(** * RepoSync micro-services: a shallow embedding of the synchronisation path

    The development follows the Go sources:
    - [pkg/models] (data model shared by the services),
    - [services/document-processor/main.go] (cleaning, chunking, validation),
    - [services/orchestrator/main.go] (the run: discover, diff, filter,
      chunk, embed, upsert, save metadata, notify; the [/sync] handler),
    - [pkg/config] (the comma-separated lists of the environment),
    - the GitHub service (change detection),
    - [pkg/logger] (levels and the filter of the log).

    Go [int] is modelled as [Z] with the 64-bit wrap-around written out,
    Go [string] as [string] (a sequence of bytes), slices as lists, and a
    runtime panic or a loop that never exits as explicit outcomes. *)

From Stdlib Require Import ZArith List String Ascii Bool Lia.
From Stdlib Require Import DecimalString.
Import ListNotations.
Open Scope string_scope.
Open Scope list_scope.
Open Scope Z_scope.

(** ** Outcomes of a Go call *)

(** A call either returns, panics (index or slice out of range), or is
    still running when the fuel of the model is used up. *)
Inductive outcome (A : Type) : Type :=
| Returns (a : A)
| Panics
| OutOfFuel.
Arguments Returns {A} a.
Arguments Panics {A}.
Arguments OutOfFuel {A}.

(** ** Go integers *)
Module GoInt.

(** Two's complement wrap-around of a 64-bit [int]. *)
Definition wrap (z : Z) : Z := (z + 2 ^ 63) mod 2 ^ 64 - 2 ^ 63.

Definition add (a b : Z) : Z := wrap (a + b).
Definition sub (a b : Z) : Z := wrap (a - b).

(** [a / b] of Go truncates toward zero. *)
Definition div (a b : Z) : Z := Z.quot a b.

(** [fmt.Sprintf("%d", z)] *)
Definition itoa (z : Z) : string := NilZero.string_of_int (Z.to_int z).

End GoInt.

(** ** The parts of Go's [strings] and [path/filepath] the services use

    Strings are byte sequences.  The functions below are the byte-level
    reading of the Go library: exact on ASCII text; a byte above 0x7F is
    taken as part of a printable, non-space rune. *)
Module GoStrings.

Definition nl_char : ascii := "010"%char.
Definition nl : string := String nl_char EmptyString.

(** [len(s)] *)
Definition len (s : string) : Z := Z.of_nat (String.length s).

(** [s[lo:hi]]; [None] is the panic "slice bounds out of range". *)
Definition slice (s : string) (lo hi : Z) : option string :=
  if (0 <=? lo) && (lo <=? hi) && (hi <=? len s)
  then Some (substring (Z.to_nat lo) (Z.to_nat (hi - lo)) s)
  else None.

(** [unicode.IsSpace] on a byte: tab, LF, VT, FF, CR and the blank. *)
Definition isSpace (c : ascii) : bool :=
  let n := nat_of_ascii c in
  (((9 <=? n) && (n <=? 13)) || (n =? 32))%nat.

(** [unicode.IsPrint] on a byte: 0x20..0x7E; bytes of longer runes are
    kept. *)
Definition isPrint (c : ascii) : bool :=
  let n := nat_of_ascii c in
  (((32 <=? n) && (n <=? 126)) || (128 <=? n))%nat.

Fixpoint TrimLeft (s : string) : string :=
  match s with
  | EmptyString => EmptyString
  | String c s' => if isSpace c then TrimLeft s' else s
  end.

Fixpoint TrimRight (s : string) : string :=
  match s with
  | EmptyString => EmptyString
  | String c s' =>
      match TrimRight s' with
      | EmptyString => if isSpace c then EmptyString else String c EmptyString
      | t => String c t
      end
  end.

(** [strings.TrimSpace] *)
Definition TrimSpace (s : string) : string := TrimRight (TrimLeft s).

(** [strings.Split(s, "\n")]: never the empty list. *)
Fixpoint SplitLines (s : string) : list string :=
  match s with
  | EmptyString => [EmptyString]
  | String c s' =>
      if Ascii.eqb c nl_char then EmptyString :: SplitLines s'
      else match SplitLines s' with
           | l :: ls => String c l :: ls
           | [] => [String c EmptyString]
           end
  end.

(** [strings.Join(ls, "\n")] *)
Definition JoinLines (ls : list string) : string := String.concat nl ls.

(** [strings.Map] with a mapping that keeps a character or drops it. *)
Fixpoint MapKeep (keep : ascii -> bool) (s : string) : string :=
  match s with
  | EmptyString => EmptyString
  | String c s' =>
      if keep c then String c (MapKeep keep s') else MapKeep keep s'
  end.

Fixpoint mem (c : ascii) (chars : string) : bool :=
  match chars with
  | EmptyString => false
  | String d chars' => Ascii.eqb c d || mem c chars'
  end.

Fixpoint LastIndexAny_from (s chars : string) (i last : Z) : Z :=
  match s with
  | EmptyString => last
  | String c s' =>
      LastIndexAny_from s' chars (i + 1) (if mem c chars then i else last)
  end.

(** [strings.LastIndexAny(s, chars)]: the last index of a byte of
    [chars] in [s], or -1. *)
Definition LastIndexAny (s chars : string) : Z :=
  LastIndexAny_from s chars 0 (-1).

(** [strings.Contains(s, substr)] *)
Fixpoint Contains (s substr : string) : bool :=
  prefix substr s ||
  match s with
  | EmptyString => false
  | String _ s' => Contains s' substr
  end.

(** [filepath.Ext(path)]: the suffix that starts at the last dot of the
    last path element, or the empty string.  The Go loop walks from the
    right; here the candidate is carried from the left and dropped at
    each separator. *)
Fixpoint Ext_from (path cand : string) : string :=
  match path with
  | EmptyString => cand
  | String c rest =>
      if Ascii.eqb c "/"%char then Ext_from rest EmptyString
      else if Ascii.eqb c "."%char then Ext_from rest path
      else Ext_from rest cand
  end.

Definition Ext (path : string) : string := Ext_from path EmptyString.

End GoStrings.

(** ** pkg/models

    One module per struct, so that fields keep their Go names. *)

(** [time.Time], kept as an opaque instant. *)
Definition Time : Type := Z.

(** A [float32], only ever copied: its bit pattern. *)
Definition float32 : Type := Z.

(** A Go [error], by its message ([nil] is [None] where it is optional). *)
Definition Error : Type := string.

(** [map[string]string], as the list of its bindings. *)
Definition StringMap : Type := list (string * string).

Module Repository.
(** [UpdatedAt] is not read by the services modelled here. *)
Record t : Type := {
  ID : Z;
  Name : string;
  FullName : string;
  Owner : string;
  DefaultBranch : string;
  LastCommit : string;
  Private : bool
}.
End Repository.

Module FileChange.
Record t : Type := {
  Repository : string;
  FilePath : string;
  Content : string;
  CommitSHA : string;
  LastModified : Time;
  ChangeType : string;
  Size : Z
}.
End FileChange.

Module Document.
Record t : Type := {
  ID : string;
  Repository : string;
  FilePath : string;
  Content : string;
  ChunkIndex : Z;
  TotalChunks : Z;
  Metadata : StringMap;
  CommitSHA : string;
  LastModified : Time
}.
End Document.

Module Embedding.
Record t : Type := {
  ID : string;
  Vector : list float32;
  Metadata : StringMap;
  Repository : string;
  FilePath : string;
  Namespace : string
}.
End Embedding.

Module SyncMetadata.
(** [ID] is assigned by the store and [LastSyncedAt] is the wall clock
    of the save; both are left out. *)
Record t : Type := {
  ProjectID : string;
  Repository : string;
  FilePath : string;
  LastCommitSHA : string;
  EmbeddingCount : Z;
  Status : string
}.
End SyncMetadata.

Module SyncResult.
(** [StartTime], [EndTime] and [Duration] are wall-clock readings and
    are left out. *)
Record t : Type := {
  ProjectID : string;
  RepositoriesScanned : Z;
  FilesDiscovered : Z;
  FilesChanged : Z;
  FilesProcessed : Z;
  ChunksCreated : Z;
  EmbeddingsGenerated : Z;
  VectorsUpserted : Z;
  VectorsDeleted : Z;
  Errors : list string;
  Warnings : list string;
  Success : bool
}.
End SyncResult.

(** ** services/document-processor *)
Module DocumentProcessor.
Import GoStrings.

(** The receiver: [maxChunkSize] and [chunkOverlap] are the defaults
    that [handleChunk] fills in. *)
Record t : Type := {
  maxChunkSize : Z;
  chunkOverlap : Z
}.

Definition NewDocumentProcessor (maxChunkSize chunkOverlap : Z) : t :=
  {| maxChunkSize := maxChunkSize; chunkOverlap := chunkOverlap |}.

(** *** CleanContent *)

(** The body of the loop over the lines: trim, skip when empty, then
    drop every character that is neither a tab nor printable. *)
Definition keepRune (c : ascii) : bool :=
  Ascii.eqb c "009"%char || isPrint c.

Fixpoint cleanLines (lines : list string) : list string :=
  match lines with
  | [] => []
  | line :: rest =>
      let line := TrimSpace line in
      if len line =? 0 then cleanLines rest
      else MapKeep keepRune line :: cleanLines rest
  end.

Definition CleanContent (content : string) : string :=
  JoinLines (cleanLines (SplitLines content)).

(** *** splitIntoChunks *)

Definition sentenceEnds : string := (".!?" ++ nl)%string.

(** One iteration of the loop at [start]: the chunk it appends, if any,
    and the next [start].  [None] is a slice out of range. *)
Definition splitStep (text : string) (maxSize overlap start : Z)
  : option (option string * Z) :=
  let textLen := len text in
  let end0 := GoInt.add start maxSize in
  let end1 := if end0 >? textLen then textLen else end0 in
  let boundary :=
    if end1 <? textLen then
      match slice text start end1 with
      | None => None
      | Some window =>
          let lastPeriod := LastIndexAny window sentenceEnds in
          Some (if lastPeriod >? GoInt.div maxSize 2
                then GoInt.add (GoInt.add start lastPeriod) 1
                else end1)
      end
    else Some end1 in
  match boundary with
  | None => None
  | Some end2 =>
      match slice text start end2 with
      | None => None
      | Some raw =>
          let chunk := TrimSpace raw in
          let next := GoInt.sub end2 overlap in
          Some (if len chunk >? 0 then Some chunk else None,
                if next <? 0 then 0 else next)
      end
  end.

(** The loop [for start < textLen], from a given [start] with the
    chunks collected so far. *)
Fixpoint splitLoop (fuel : nat) (text : string) (maxSize overlap : Z)
                   (start : Z) (chunks : list string)
  : outcome (list string) :=
  if start <? len text then
    match fuel with
    | O => OutOfFuel
    | S fuel' =>
        match splitStep text maxSize overlap start with
        | None => Panics
        | Some (Some chunk, next) =>
            splitLoop fuel' text maxSize overlap next (chunks ++ [chunk])
        | Some (None, next) =>
            splitLoop fuel' text maxSize overlap next chunks
        end
    end
  else Returns chunks.

Definition splitIntoChunks (fuel : nat) (text : string)
                           (maxSize overlap : Z) : outcome (list string) :=
  splitLoop fuel text maxSize overlap 0 [].

(** *** ChunkDocument *)
Section Chunking.

(** [fmt.Sprintf("%x", md5.Sum([]byte(s)))] of the Go library. *)
Variable md5hex : string -> string.

(** The identifier of chunk [i] of a file. *)
Definition docID (repository filePath : string) (i : Z) : string :=
  md5hex (repository ++ "-" ++ filePath ++ "-" ++ GoInt.itoa i)%string.

Definition newDocument (fc : FileChange.t) (total i : Z)
                       (chunk : string) : Document.t :=
  {| Document.ID := docID (FileChange.Repository fc) (FileChange.FilePath fc) i;
     Document.Repository := FileChange.Repository fc;
     Document.FilePath := FileChange.FilePath fc;
     Document.Content := chunk;
     Document.ChunkIndex := i;
     Document.TotalChunks := total;
     Document.Metadata :=
       [ ("repository", FileChange.Repository fc);
         ("file_path", FileChange.FilePath fc);
         ("commit_sha", FileChange.CommitSHA fc);
         ("chunk_index", GoInt.itoa i);
         ("total_chunks", GoInt.itoa total);
         ("file_ext", Ext (FileChange.FilePath fc)) ];
     Document.CommitSHA := FileChange.CommitSHA fc;
     Document.LastModified := FileChange.LastModified fc |}.

(** The loop [for i, chunk := range chunks], from index [i]. *)
Fixpoint documentsFrom (fc : FileChange.t) (total i : Z)
                       (chunks : list string) : list Document.t :=
  match chunks with
  | [] => []
  | chunk :: rest =>
      newDocument fc total i chunk :: documentsFrom fc total (i + 1) rest
  end.

Definition ChunkDocument (fuel : nat) (fileChange : FileChange.t)
                         (maxSize overlap : Z)
  : outcome (list Document.t) :=
  let content := CleanContent (FileChange.Content fileChange) in
  if len content =? 0 then Returns []
  else
    let chunks :=
      if len content <=? maxSize then Returns [content]
      else splitIntoChunks fuel content maxSize overlap in
    match chunks with
    | Returns chunks =>
        Returns (documentsFrom fileChange (Z.of_nat (List.length chunks)) 0 chunks)
    | Panics => Panics
    | OutOfFuel => OutOfFuel
    end.

(** [handleChunk], once the request is decoded: a size or an overlap that
    is absent from the request, or 0, is replaced by the default of the
    processor.  The orchestrator posts the change record alone. *)
Definition handleChunk (p : t) (fuel : nat) (fileChange : FileChange.t)
                       (reqMaxChunkSize reqChunkOverlap : Z)
  : outcome (list Document.t) :=
  let maxSize :=
    if reqMaxChunkSize =? 0 then maxChunkSize p else reqMaxChunkSize in
  let overlap :=
    if reqChunkOverlap =? 0 then chunkOverlap p else reqChunkOverlap in
  ChunkDocument fuel fileChange maxSize overlap.

End Chunking.

(** *** ValidateDocument *)

Definition ValidateDocument (fileChange : FileChange.t)
                            (allowedExtensions excludePatterns : list string)
  : bool :=
  let ext := Ext (FileChange.FilePath fileChange) in
  if (Z.of_nat (List.length allowedExtensions) >? 0)
     && negb (existsb (fun allowed => String.eqb ext allowed) allowedExtensions)
  then false
  else if existsb (fun pattern => Contains (FileChange.FilePath fileChange) pattern)
                  excludePatterns
  then false
  else if String.eqb (FileChange.ChangeType fileChange) "deleted"
          || String.eqb (FileChange.ChangeType fileChange) "removed"
  then false
  else true.

End DocumentProcessor.

(** ** services/orchestrator *)
Module Orchestrator.
Import GoStrings.

(** *** Configuration

    The fields of [config.Config] that the orchestrator reads. *)
Record GitHubConfig : Type := {
  Organization : string;
  FilterKeyword : string
}.

Record ProcessingConfig : Type := {
  AllowedExtensions : list string;
  ExcludePatterns : list string;
  MaxWorkers : Z
}.

Record Config : Type := {
  GitHub : GitHubConfig;
  Processing : ProcessingConfig
}.

(** *** The peers behind the HTTP client

    What a Go function that wraps one HTTP exchange returns: a value or
    an error (transport or JSON decoding). *)
Inductive result (A : Type) : Type :=
| Ok (a : A)
| Err (e : Error).
Arguments Ok {A} a.
Arguments Err {A} e.

(** The answers of the services.  Within one run an answer is taken to
    depend on the request only.  [upsert] is [None] on status 200;
    [postMetadata] is the error of the save, which the run discards. *)
Record Services : Type := {
  repositories : string -> string -> result (list Repository.t);
  changes : string -> string -> result (list FileChange.t);
  lastCommit : string -> string -> result string;
  chunk : FileChange.t -> result (list Document.t);
  embed : list string -> result (list (list float32));
  upsert : list Embedding.t -> option Error;
  postMetadata : SyncMetadata.t -> option Error
}.

(** The orchestrator: its configuration and its peers. *)
Record t : Type := {
  config : Config;
  services : Services
}.

(** The text of a notification: the summary line (its duration left
    out) or, for a failure, the first recorded error. *)
Inductive Message : Type :=
| Summary (filesProcessed embeddingsGenerated : Z)
| FirstError (msg : string).

(** What a run does to the outside: the requests it sends and the
    warnings it logs.  [DeleteVectors] and [DeleteSyncMetadata] are the
    two removal operations of [pkg/interfaces]. *)
Inductive Effect : Type :=
| GetRepositories (org keyword : string)
| GetChanges (repo lastCommit : string)
| GetMetadata (projectID repository : string)
| PostChunk (fileChange : FileChange.t)
| PostEmbed (texts : list string)
| PostUpsert (embeddings : list Embedding.t)
| PostMetadata (metadata : SyncMetadata.t)
| PostNotify (type title : string) (message : Message) (res : SyncResult.t)
| DeleteVectors (ids : list string) (namespace : string)
| DeleteSyncMetadata (projectID repository filePath : string)
| LogWarning (msg : string).

(** *** Computations: an outcome and the effects so far *)
Definition M (A : Type) : Type := (outcome A * list Effect)%type.

Definition ret {A} (a : A) : M A := (Returns a, []).

Definition bind {A B} (m : M A) (k : A -> M B) : M B :=
  match m with
  | (Returns a, l) => let (o, l') := k a in (o, l ++ l')
  | (Panics, l) => (Panics, l)
  | (OutOfFuel, l) => (OutOfFuel, l)
  end.

Definition emit (e : Effect) : M unit := (Returns tt, [e]).
Definition panic {A} : M A := (Panics, []).
Definition diverge {A} : M A := (OutOfFuel, []).

Notation "x <- m ;; k" := (bind m (fun x => k))
  (at level 61, m at next level, right associativity).
Notation "m ;;; k" := (bind m (fun _ => k))
  (at level 61, right associativity).

(** *** Slices *)

Definition lenL {A} (l : list A) : Z := Z.of_nat (List.length l).

(** [s[lo:hi]] on a slice whose capacity is not exceeded by [hi]. *)
Definition sliceList {A} (l : list A) (lo hi : Z) : option (list A) :=
  if (0 <=? lo) && (lo <=? hi) && (hi <=? lenL l)
  then Some (firstn (Z.to_nat (hi - lo)) (skipn (Z.to_nat lo) l))
  else None.

(** *** Updates of the [SyncResult] under construction *)
Definition newResult (projectID : string) : SyncResult.t :=
  {| SyncResult.ProjectID := projectID;
     SyncResult.RepositoriesScanned := 0;
     SyncResult.FilesDiscovered := 0;
     SyncResult.FilesChanged := 0;
     SyncResult.FilesProcessed := 0;
     SyncResult.ChunksCreated := 0;
     SyncResult.EmbeddingsGenerated := 0;
     SyncResult.VectorsUpserted := 0;
     SyncResult.VectorsDeleted := 0;
     SyncResult.Errors := [];
     SyncResult.Warnings := [];
     SyncResult.Success := false |}.

(** The assignments to the fields of [result]; [ProjectID] and
    [VectorsDeleted] are never assigned after the creation. *)
Definition update (r : SyncResult.t)
    (scanned discovered changed processed chunks embeddings upserted : Z)
    (errors warnings : list string) (success : bool) : SyncResult.t :=
  {| SyncResult.ProjectID := SyncResult.ProjectID r;
     SyncResult.RepositoriesScanned := scanned;
     SyncResult.FilesDiscovered := discovered;
     SyncResult.FilesChanged := changed;
     SyncResult.FilesProcessed := processed;
     SyncResult.ChunksCreated := chunks;
     SyncResult.EmbeddingsGenerated := embeddings;
     SyncResult.VectorsUpserted := upserted;
     SyncResult.VectorsDeleted := SyncResult.VectorsDeleted r;
     SyncResult.Errors := errors;
     SyncResult.Warnings := warnings;
     SyncResult.Success := success |}.

(** [result.Errors = append(result.Errors, msg)] *)
Definition addError (r : SyncResult.t) (msg : string) : SyncResult.t :=
  update r (SyncResult.RepositoriesScanned r) (SyncResult.FilesDiscovered r)
    (SyncResult.FilesChanged r) (SyncResult.FilesProcessed r)
    (SyncResult.ChunksCreated r) (SyncResult.EmbeddingsGenerated r)
    (SyncResult.VectorsUpserted r)
    (SyncResult.Errors r ++ [msg]) (SyncResult.Warnings r)
    (SyncResult.Success r).

(** [result.Warnings = append(result.Warnings, msg)] *)
Definition addWarning (r : SyncResult.t) (msg : string) : SyncResult.t :=
  update r (SyncResult.RepositoriesScanned r) (SyncResult.FilesDiscovered r)
    (SyncResult.FilesChanged r) (SyncResult.FilesProcessed r)
    (SyncResult.ChunksCreated r) (SyncResult.EmbeddingsGenerated r)
    (SyncResult.VectorsUpserted r)
    (SyncResult.Errors r) (SyncResult.Warnings r ++ [msg])
    (SyncResult.Success r).

(** [result.RepositoriesScanned = n] *)
Definition setScanned (r : SyncResult.t) (n : Z) : SyncResult.t :=
  update r n (SyncResult.FilesDiscovered r)
    (SyncResult.FilesChanged r) (SyncResult.FilesProcessed r)
    (SyncResult.ChunksCreated r) (SyncResult.EmbeddingsGenerated r)
    (SyncResult.VectorsUpserted r)
    (SyncResult.Errors r) (SyncResult.Warnings r) (SyncResult.Success r).

(** [FilesDiscovered], [FilesChanged] and [FilesProcessed] *)
Definition setFiles (r : SyncResult.t) (discovered changed processed : Z)
  : SyncResult.t :=
  update r (SyncResult.RepositoriesScanned r) discovered changed processed
    (SyncResult.ChunksCreated r) (SyncResult.EmbeddingsGenerated r)
    (SyncResult.VectorsUpserted r)
    (SyncResult.Errors r) (SyncResult.Warnings r) (SyncResult.Success r).

(** [ChunksCreated] and [EmbeddingsGenerated] *)
Definition setProcessed (r : SyncResult.t) (chunks embeddings : Z)
  : SyncResult.t :=
  update r (SyncResult.RepositoriesScanned r) (SyncResult.FilesDiscovered r)
    (SyncResult.FilesChanged r) (SyncResult.FilesProcessed r)
    chunks embeddings (SyncResult.VectorsUpserted r)
    (SyncResult.Errors r) (SyncResult.Warnings r) (SyncResult.Success r).

(** [result.VectorsUpserted = n] *)
Definition setUpserted (r : SyncResult.t) (n : Z) : SyncResult.t :=
  update r (SyncResult.RepositoriesScanned r) (SyncResult.FilesDiscovered r)
    (SyncResult.FilesChanged r) (SyncResult.FilesProcessed r)
    (SyncResult.ChunksCreated r) (SyncResult.EmbeddingsGenerated r) n
    (SyncResult.Errors r) (SyncResult.Warnings r) (SyncResult.Success r).

(** [result.Success = b] *)
Definition setSuccess (r : SyncResult.t) (b : bool) : SyncResult.t :=
  update r (SyncResult.RepositoriesScanned r) (SyncResult.FilesDiscovered r)
    (SyncResult.FilesChanged r) (SyncResult.FilesProcessed r)
    (SyncResult.ChunksCreated r) (SyncResult.EmbeddingsGenerated r)
    (SyncResult.VectorsUpserted r)
    (SyncResult.Errors r) (SyncResult.Warnings r) b.

(** *** Helper functions *)

(** [contains(s, substr)] of the orchestrator: the first [len(substr)]
    bytes of [s] are compared with [substr]. *)
Definition contains (s substr : string) : bool :=
  (len s >=? len substr) &&
  match slice s 0 (len substr) with
  | Some head => String.eqb head substr
  | None => false
  end.

(** The extension test of [filterFiles]:
    [len(p) >= len(ext) && p[len(p)-len(ext):] == ext]. *)
Definition endsWith (p ext : string) : bool :=
  (len p >=? len ext) &&
  match slice p (len p - len ext) (len p) with
  | Some tail => String.eqb tail ext
  | None => false
  end.

Section Methods.

Variable o : t.

Let cfg : Config := config o.
Let srv : Services := services o.

(** *** filterFiles *)
Fixpoint filterFiles (files : list FileChange.t) : list FileChange.t :=
  match files with
  | [] => []
  | file :: rest =>
      let valid :=
        existsb (fun ext => endsWith (FileChange.FilePath file) ext)
                (AllowedExtensions (Processing cfg)) in
      if negb valid then filterFiles rest
      else
        let excluded :=
          existsb (fun pattern => contains (FileChange.FilePath file) pattern)
                  (ExcludePatterns (Processing cfg)) in
        if negb excluded then file :: filterFiles rest
        else filterFiles rest
  end.

(** *** The HTTP wrappers *)

Definition discoverRepositories : M (result (list Repository.t)) :=
  let org := Organization (GitHub cfg) in
  let keyword := FilterKeyword (GitHub cfg) in
  emit (GetRepositories org keyword) ;;;
  ret (repositories srv org keyword).

Definition getChangedFiles (repo : Repository.t) (lastCommitSHA : string)
  : M (result (list FileChange.t)) :=
  emit (GetChanges (Repository.FullName repo) lastCommitSHA) ;;;
  ret (changes srv (Repository.FullName repo) lastCommitSHA).

Definition getLastCommitSHA (projectID repository : string)
  : M (result string) :=
  emit (GetMetadata projectID repository) ;;;
  ret (lastCommit srv projectID repository).

Definition chunkDocument (file : FileChange.t)
  : M (result (list Document.t)) :=
  emit (PostChunk file) ;;;
  ret (chunk srv file).

(** [namespace] is accepted and not sent. *)
Definition upsertVectors (embeddings : list Embedding.t)
                         (namespace : string) : M (option Error) :=
  emit (PostUpsert embeddings) ;;;
  ret (upsert srv embeddings).

Definition saveMetadata (metadata : SyncMetadata.t) : M (option Error) :=
  emit (PostMetadata metadata) ;;;
  ret (postMetadata srv metadata).

Definition sendNotification (res : SyncResult.t) (notifType : string)
  : M unit :=
  let title := "RepoSync Update" in
  let message := Summary (SyncResult.FilesProcessed res)
                         (SyncResult.EmbeddingsGenerated res) in
  let '(title, message) :=
    if String.eqb notifType "error" then
      ("RepoSync Failed",
       match SyncResult.Errors res with
       | first :: _ => FirstError first
       | [] => message
       end)
    else (title, message) in
  emit (PostNotify notifType title message res).

(** *** generateEmbeddings *)

Definition newEmbedding (doc : Document.t) (vector : list float32)
  : Embedding.t :=
  {| Embedding.ID := Document.ID doc;
     Embedding.Vector := vector;
     Embedding.Metadata := Document.Metadata doc;
     Embedding.Repository := Document.Repository doc;
     Embedding.FilePath := Document.FilePath doc;
     Embedding.Namespace := Organization (GitHub cfg) |}.

(** The loop [for i, doc := range documents] that reads
    [result.Embeddings[i]], from index [i]; [None] is the panic
    "index out of range". *)
Fixpoint embeddingsFrom (documents : list Document.t)
                        (vectors : list (list float32)) (i : nat)
  : option (list Embedding.t) :=
  match documents with
  | [] => Some []
  | doc :: rest =>
      match nth_error vectors i with
      | None => None
      | Some vector =>
          match embeddingsFrom rest vectors (S i) with
          | None => None
          | Some embeddings => Some (newEmbedding doc vector :: embeddings)
          end
      end
  end.

Definition generateEmbeddings (documents : list Document.t)
  : M (result (list Embedding.t)) :=
  if lenL documents =? 0 then ret (Ok [])
  else
    let texts := map Document.Content documents in
    emit (PostEmbed texts) ;;;
    match embed srv texts with
    | Err err => ret (Err err)
    | Ok vectors =>
        match embeddingsFrom documents vectors 0 with
        | None => panic
        | Some embeddings => ret (Ok embeddings)
        end
    end.

(** *** processBatch

    The goroutines of a batch are run one after the other, in the
    order of the slice (one of the schedules the wait group allows);
    each returns what it adds under the mutex, or nothing when it logged
    a warning and returned early.  Of the log, the warnings are kept. *)
Definition worker (f : FileChange.t)
  : M (option (list Embedding.t * Z)) :=
  r <- chunkDocument f ;;
  match r with
  | Err err =>
      emit (LogWarning ("Failed to chunk document "
                        ++ FileChange.FilePath f ++ ": " ++ err)%string) ;;;
      ret None
  | Ok documents =>
      r <- generateEmbeddings documents ;;
      match r with
      | Err err =>
          emit (LogWarning ("Failed to generate embeddings for "
                            ++ FileChange.FilePath f ++ ": " ++ err)%string) ;;;
          ret None
      | Ok embeddings => ret (Some (embeddings, lenL documents))
      end
  end.

Fixpoint processBatchFrom (files : list FileChange.t)
                          (allEmbeddings : list Embedding.t)
                          (totalChunks : Z)
  : M (result (list Embedding.t * Z)) :=
  match files with
  | [] => ret (Ok (allEmbeddings, totalChunks))
  | file :: rest =>
      r <- worker file ;;
      match r with
      | None => processBatchFrom rest allEmbeddings totalChunks
      | Some (embeddings, n) =>
          processBatchFrom rest (allEmbeddings ++ embeddings)
                           (GoInt.add totalChunks n)
      end
  end.

Definition processBatch (files : list FileChange.t)
  : M (result (list Embedding.t * Z)) :=
  processBatchFrom files [] 0.

(** *** processFiles

    The loop [for i := 0; i < len(files); i += batchSize]. *)
Fixpoint processFilesFrom (fuel : nat) (files : list FileChange.t)
                          (i : Z) (allEmbeddings : list Embedding.t)
                          (totalChunks : Z)
  : M (result (list Embedding.t * Z)) :=
  let batchSize := MaxWorkers (Processing cfg) in
  if i <? lenL files then
    match fuel with
    | O => diverge
    | S fuel' =>
        let end0 := GoInt.add i batchSize in
        let end1 := if end0 >? lenL files then lenL files else end0 in
        match sliceList files i end1 with
        | None => panic
        | Some batch =>
            r <- processBatch batch ;;
            match r with
            | Err err => ret (Err err)
            | Ok (embeddings, chunks) =>
                processFilesFrom fuel' files (GoInt.add i batchSize)
                                 (allEmbeddings ++ embeddings)
                                 (GoInt.add totalChunks chunks)
            end
        end
    end
  else ret (Ok (allEmbeddings, totalChunks)).

Definition processFiles (fuel : nat) (files : list FileChange.t)
  : M (result (list Embedding.t * Z)) :=
  processFilesFrom fuel files 0 [] 0.

(** *** SyncProject *)

(** Step 2: the loop over the repositories. *)
Fixpoint collectChanges (projectID : string) (incremental : bool)
                        (repos : list Repository.t)
                        (res : SyncResult.t)
                        (allChangedFiles : list FileChange.t)
  : M (SyncResult.t * list FileChange.t) :=
  match repos with
  | [] => ret (res, allChangedFiles)
  | repo :: rest =>
      lastCommitSHA <-
        (if incremental then
           r <- getLastCommitSHA projectID (Repository.FullName repo) ;;
           ret (match r with Ok sha => sha | Err _ => "" end)
         else ret "") ;;
      r <- getChangedFiles repo lastCommitSHA ;;
      match r with
      | Err err =>
          collectChanges projectID incremental rest
            (addWarning res ("Failed to get changed files for "
                             ++ Repository.FullName repo ++ ": " ++ err)%string)
            allChangedFiles
      | Ok changedFiles =>
          collectChanges projectID incremental rest res
                         (allChangedFiles ++ changedFiles)
      end
  end.

Definition metadataFor (projectID : string) (file : FileChange.t)
  : SyncMetadata.t :=
  {| SyncMetadata.ProjectID := projectID;
     SyncMetadata.Repository := FileChange.Repository file;
     SyncMetadata.FilePath := FileChange.FilePath file;
     SyncMetadata.LastCommitSHA := FileChange.CommitSHA file;
     SyncMetadata.EmbeddingCount := 0;
     SyncMetadata.Status := "synced" |}.

(** Step 6: the loop over the valid files. *)
Fixpoint updateMetadata (projectID : string) (validFiles : list FileChange.t)
  : M unit :=
  match validFiles with
  | [] => ret tt
  | file :: rest =>
      saveMetadata (metadataFor projectID file) ;;;
      updateMetadata projectID rest
  end.

(** The early exit shared by the three failure branches. *)
Definition failWith (res : SyncResult.t) (what : string) (err : Error)
  : M (SyncResult.t * option Error) :=
  let res := addError res (what ++ err)%string in
  sendNotification res "error" ;;;
  ret (res, Some err).

(** Steps 6 and after. *)
Definition complete (projectID : string) (res : SyncResult.t)
                    (validFiles : list FileChange.t)
  : M (SyncResult.t * option Error) :=
  updateMetadata projectID validFiles ;;;
  let res := setSuccess res true in
  sendNotification res "success" ;;;
  ret (res, None).

Definition SyncProject (fuel : nat) (projectID : string) (incremental : bool)
  : M (SyncResult.t * option Error) :=
  let res := newResult projectID in
  r <- discoverRepositories ;;
  match r with
  | Err err => failWith res "Failed to discover repositories: " err
  | Ok repos =>
      let res := setScanned res (lenL repos) in
      rc <- collectChanges projectID incremental repos res [] ;;
      let '(res, allChangedFiles) := rc in
      let validFiles := filterFiles allChangedFiles in
      let res := setFiles res (lenL allChangedFiles) (lenL allChangedFiles)
                          (lenL validFiles) in
      r <- processFiles fuel validFiles ;;
      match r with
      | Err err => failWith res "Failed to process files: " err
      | Ok (embeddings, chunks) =>
          let res := setProcessed res chunks (lenL embeddings) in
          if lenL embeddings >? 0 then
            e <- upsertVectors embeddings projectID ;;
            match e with
            | Some err => failWith res "Failed to upsert vectors: " err
            | None =>
                complete projectID (setUpserted res (lenL embeddings))
                         validFiles
            end
          else complete projectID res validFiles
      end
  end.

End Methods.

(** *** The run in closed form

    What step 2 and the workers compute, written without the loops; the
    loops are shown to agree with them below. *)
Section ClosedForm.

Variable o : t.

(** The answer of the change detector for one repository. *)
Definition diffOf (projectID : string) (incremental : bool)
                  (repo : Repository.t) : result (list FileChange.t) :=
  let name := Repository.FullName repo in
  changes (services o) name
    (if incremental then
       match lastCommit (services o) projectID name with
       | Ok sha => sha
       | Err _ => ""
       end
     else "").

(** The files gathered by step 2. *)
Definition changedFilesOf (projectID : string) (incremental : bool)
                          (repos : list Repository.t) : list FileChange.t :=
  flat_map (fun repo =>
              match diffOf projectID incremental repo with
              | Ok files => files
              | Err _ => []
              end) repos.

(** The warnings recorded by step 2: one per repository whose changes
    could not be listed. *)
Definition repoWarnings (projectID : string) (incremental : bool)
                        (repos : list Repository.t) : list string :=
  flat_map (fun repo =>
              match diffOf projectID incremental repo with
              | Ok _ => []
              | Err err =>
                  [("Failed to get changed files for "
                    ++ Repository.FullName repo ++ ": " ++ err)%string]
              end) repos.

(** The warning a worker writes to the log for its file, if any. *)
Definition failureWarning (f : FileChange.t) : list string :=
  match chunk (services o) f with
  | Err err =>
      [("Failed to chunk document "
        ++ FileChange.FilePath f ++ ": " ++ err)%string]
  | Ok documents =>
      if lenL documents =? 0 then []
      else
        match embed (services o) (map Document.Content documents) with
        | Err err =>
            [("Failed to generate embeddings for "
              ++ FileChange.FilePath f ++ ": " ++ err)%string]
        | Ok _ => []
        end
  end.

End ClosedForm.

(** *** What a run left behind, read off its effects *)

Definition savedOf (e : Effect) : list SyncMetadata.t :=
  match e with PostMetadata m => [m] | _ => [] end.
Definition upsertedOf (e : Effect) : list Embedding.t :=
  match e with PostUpsert es => es | _ => [] end.
Definition chunkedOf (e : Effect) : list FileChange.t :=
  match e with PostChunk f => [f] | _ => [] end.
Definition embeddedOf (e : Effect) : list (list string) :=
  match e with PostEmbed texts => [texts] | _ => [] end.
Definition loggedOf (e : Effect) : list string :=
  match e with LogWarning msg => [msg] | _ => [] end.

(** The metadata rows posted, in order. *)
Definition saved (effects : list Effect) : list SyncMetadata.t :=
  flat_map savedOf effects.
(** The embeddings posted for upsert. *)
Definition upserted (effects : list Effect) : list Embedding.t :=
  flat_map upsertedOf effects.
(** The files posted to the chunker. *)
Definition chunked (effects : list Effect) : list FileChange.t :=
  flat_map chunkedOf effects.
(** The text batches posted to the vectorizer. *)
Definition embedded (effects : list Effect) : list (list string) :=
  flat_map embeddedOf effects.
(** The warnings written to the log. *)
Definition logged (effects : list Effect) : list string :=
  flat_map loggedOf effects.

Definition isDeletion (e : Effect) : bool :=
  match e with
  | DeleteVectors _ _ | DeleteSyncMetadata _ _ _ => true
  | _ => false
  end.

(** [every P m]: each effect of [m] satisfies [P]. *)
Definition every {A : Type} (P : Effect -> Prop) (m : M A) : Prop :=
  Forall P (snd m).

Definition notifiedOf (e : Effect) : list (string * string * Message * SyncResult.t) :=
  match e with
  | PostNotify type title message res => [(type, title, message, res)]
  | _ => []
  end.
Definition metadataReadOf (e : Effect) : list (string * string) :=
  match e with GetMetadata projectID repository => [(projectID, repository)] | _ => [] end.
Definition changesRequestOf (e : Effect) : list (string * string) :=
  match e with GetChanges repo lastCommit => [(repo, lastCommit)] | _ => [] end.

(** The notifications posted: type, title, message and result. *)
Definition notified (effects : list Effect)
  : list (string * string * Message * SyncResult.t) :=
  flat_map notifiedOf effects.
(** The metadata lookups: project and repository. *)
Definition metadataReads (effects : list Effect) : list (string * string) :=
  flat_map metadataReadOf effects.
(** The change listings requested: repository and last commit. *)
Definition changesRequests (effects : list Effect) : list (string * string) :=
  flat_map changesRequestOf effects.

(** *** More of the run in closed form *)
Section ClosedFormEffects.

Variable o : t.

(** The last commit passed to the change detector for one repository. *)
Definition lastCommitOf (projectID : string) (incremental : bool)
                        (repo : Repository.t) : string :=
  if incremental then
    match lastCommit (services o) projectID (Repository.FullName repo) with
    | Ok sha => sha
    | Err _ => ""
    end
  else "".

(** The requests of step 2: per repository, the metadata lookup of an
    incremental run, then the change listing. *)
Definition diffRequests (projectID : string) (incremental : bool)
                        (repos : list Repository.t) : list Effect :=
  flat_map (fun repo =>
              (if incremental
               then [GetMetadata projectID (Repository.FullName repo)]
               else [])
              ++ [GetChanges (Repository.FullName repo)
                             (lastCommitOf projectID incremental repo)])
           repos.

(** The result record once step 3 is done. *)
Definition resultAfterFiltering (projectID : string) (incremental : bool)
                                (repos : list Repository.t) : SyncResult.t :=
  let files := changedFilesOf o projectID incremental repos in
  {| SyncResult.ProjectID := projectID;
     SyncResult.RepositoriesScanned := lenL repos;
     SyncResult.FilesDiscovered := lenL files;
     SyncResult.FilesChanged := lenL files;
     SyncResult.FilesProcessed := lenL (filterFiles o files);
     SyncResult.ChunksCreated := 0;
     SyncResult.EmbeddingsGenerated := 0;
     SyncResult.VectorsUpserted := 0;
     SyncResult.VectorsDeleted := 0;
     SyncResult.Errors := [];
     SyncResult.Warnings := repoWarnings o projectID incremental repos;
     SyncResult.Success := false |}.

End ClosedFormEffects.

(** *** handleSync

    The request as the handler reads it, and the [http.ResponseWriter]
    as far as the handler drives it: the header map, the status line
    once it has gone out together with the headers that went with it,
    and the payloads written after it. *)
Record Request : Type := {
  Method : string;
  Query : list (string * string)
}.

(** [r.URL.Query().Get(key)]: the first value of [key], or the empty
    string. *)
Fixpoint queryGet (query : list (string * string)) (key : string) : string :=
  match query with
  | [] => ""
  | (k, v) :: rest => if String.eqb k key then v else queryGet rest key
  end.

Inductive Payload : Type :=
| Text (line : string)
| Json (res : SyncResult.t).

Record ResponseWriter : Type := {
  Header : StringMap;
  wroteHeader : option (Z * StringMap);
  body : list Payload
}.

Definition newResponseWriter : ResponseWriter :=
  {| Header := []; wroteHeader := None; body := [] |}.

Fixpoint setKey (m : StringMap) (key value : string) : StringMap :=
  match m with
  | [] => [(key, value)]
  | (k, v) :: rest =>
      if String.eqb k key then (key, value) :: rest
      else (k, v) :: setKey rest key value
  end.

Fixpoint delKey (m : StringMap) (key : string) : StringMap :=
  match m with
  | [] => []
  | (k, v) :: rest =>
      if String.eqb k key then delKey rest key else (k, v) :: delKey rest key
  end.

(** [w.Header().Set(key, value)] and [w.Header().Del(key)] *)
Definition headerSet (w : ResponseWriter) (key value : string)
  : ResponseWriter :=
  {| Header := setKey (Header w) key value;
     wroteHeader := wroteHeader w;
     body := body w |}.

Definition headerDel (w : ResponseWriter) (key : string) : ResponseWriter :=
  {| Header := delKey (Header w) key;
     wroteHeader := wroteHeader w;
     body := body w |}.

(** [w.WriteHeader(code)]: the first call sends the status with the
    header map as it is then; a later call, and a later change of the
    header map, changes nothing of what was sent. *)
Definition WriteHeader (w : ResponseWriter) (code : Z) : ResponseWriter :=
  match wroteHeader w with
  | Some _ => w
  | None =>
      {| Header := Header w;
         wroteHeader := Some (code, Header w);
         body := body w |}
  end.

(** [w.Write]: sends status 200 first when no status has gone out. *)
Definition Write (w : ResponseWriter) (payload : Payload) : ResponseWriter :=
  let w := WriteHeader w 200 in
  {| Header := Header w;
     wroteHeader := wroteHeader w;
     body := body w ++ [payload] |}.

(** [http.Error(w, error, code)] *)
Definition httpError (w : ResponseWriter) (error : string) (code : Z)
  : ResponseWriter :=
  let w := headerDel w "Content-Length" in
  let w := headerSet w "Content-Type" "text/plain; charset=utf-8" in
  let w := headerSet w "X-Content-Type-Options" "nosniff" in
  let w := WriteHeader w code in
  Write w (Text error).

Definition handleSync (o : t) (fuel : nat) (w : ResponseWriter) (r : Request)
  : M ResponseWriter :=
  if negb (String.eqb (Method r) "POST") then
    ret (httpError w "Method not allowed" 405)
  else
    let projectID := queryGet (Query r) "project_id" in
    let projectID := if String.eqb projectID "" then "default" else projectID in
    let incremental := String.eqb (queryGet (Query r) "incremental") "true" in
    re <- SyncProject o fuel projectID incremental ;;
    let '(result, err) := re in
    let w := match err with
             | Some _ => WriteHeader w 500
             | None => w
             end in
    let w := headerSet w "Content-Type" "application/json" in
    ret (Write w (Json result)).

End Orchestrator.

(** ** A small deployment, used to run the model

    One organisation with one repository, whose change listing is given;
    the chunker is the document processor with the default sizes, and the
    vectorizer refuses the text of [b.md]. *)
Module Example.
Import GoStrings Orchestrator.

Definition cfg : Config :=
  {| GitHub := {| Organization := "acme"; FilterKeyword := "docs" |};
     Processing := {| AllowedExtensions := [".md"];
                      ExcludePatterns := ["node_modules"];
                      MaxWorkers := 2 |} |}.

Definition repo : Repository.t :=
  {| Repository.ID := 1; Repository.Name := "docs";
     Repository.FullName := "acme/docs"; Repository.Owner := "acme";
     Repository.DefaultBranch := "main"; Repository.LastCommit := "c1";
     Repository.Private := false |}.

Definition file (path content kind : string) : FileChange.t :=
  {| FileChange.Repository := "acme/docs"; FileChange.FilePath := path;
     FileChange.Content := content; FileChange.CommitSHA := "c1";
     FileChange.LastModified := 0; FileChange.ChangeType := kind;
     FileChange.Size := 1 |}.

Definition fileA : FileChange.t := file "a.md" "alpha" "added".
Definition fileB : FileChange.t := file "b.md" "beta" "modified".
Definition fileC : FileChange.t := file "c.md" "gamma" "added".
Definition removedD : FileChange.t := file "d.md" "" "removed".
Definition nestedE : FileChange.t :=
  file "src/node_modules/e.md" "epsilon" "added".

(** A stand-in for the digest: the text itself. *)
Definition digest (s : string) : string := s.

Definition chunker (f : FileChange.t) : result (list Document.t) :=
  match DocumentProcessor.handleChunk
          digest (DocumentProcessor.NewDocumentProcessor 1000 200) 16 f 0 0 with
  | Returns documents => Ok documents
  | _ => Err "context deadline exceeded"
  end.

Definition vectorizer (texts : list string) : result (list (list float32)) :=
  if existsb (String.eqb "beta") texts then Err "unexpected status 500"
  else Ok (map (fun _ => [1; 2]) texts).

Definition peers (files : list FileChange.t) : Services :=
  {| repositories := fun _ _ => Ok [repo];
     changes := fun _ _ => Ok files;
     lastCommit := fun _ _ => Ok "c0";
     chunk := chunker;
     embed := vectorizer;
     upsert := fun _ => None;
     postMetadata := fun _ => None |}.

Definition orchestrator (files : list FileChange.t) : Orchestrator.t :=
  {| config := cfg; services := peers files |}.

(** The same deployment with no extension allow-listed. *)
Definition cfgNoExtensions : Config :=
  {| GitHub := GitHub cfg;
     Processing := {| AllowedExtensions := [];
                      ExcludePatterns := ["node_modules"];
                      MaxWorkers := 2 |} |}.

Definition orchestratorNoExtensions (files : list FileChange.t)
  : Orchestrator.t :=
  {| config := cfgNoExtensions; services := peers files |}.

(** A control character on a line of its own, between two lines. *)
Definition sub : string := String "026"%char EmptyString.
Definition withControlLine : string := ("a" ++ nl ++ sub ++ nl ++ "b")%string.

End Example.

(** ** pkg/config: the lists read from the environment *)
Module Config.
Import GoStrings.

Definition comma_char : ascii := ","%char.

(** [strings.Split(s, ",")]: never the empty list. *)
Fixpoint SplitComma (s : string) : list string :=
  match s with
  | EmptyString => [EmptyString]
  | String c s' =>
      if Ascii.eqb c comma_char then EmptyString :: SplitComma s'
      else match SplitComma s' with
           | part :: parts => String c part :: parts
           | [] => [String c EmptyString]
           end
  end.

(** The loop [for _, part := range parts] of [parseCSV]. *)
Fixpoint trimmedParts (parts : list string) : list string :=
  match parts with
  | [] => []
  | part :: rest =>
      let trimmed := TrimSpace part in
      if negb (String.eqb trimmed "") then trimmed :: trimmedParts rest
      else trimmedParts rest
  end.

Definition parseCSV (value : string) : list string :=
  if String.eqb value "" then []
  else trimmedParts (SplitComma value).

End Config.

(** ** The GitHub service: change detection

    The GitHub client is a record of functions: what each call of the
    API returns, as far as the service reads it.  Of the log, the
    warnings are kept. *)
Module GitHubService.
Import GoStrings.
Import Orchestrator (result, Ok, Err).

(** [errors.External(service, message, err).Error()] *)
Definition External (service message : string) (err : Error) : Error :=
  ("[EXTERNAL_SERVICE_ERROR] " ++ service ++ ": " ++ message ++ ": " ++ err)%string.

Record Commit : Type := {
  SHA : string;
  AuthorDate : Time
}.

(** A file of a comparison; [Status] is the field the service tests
    for [nil]. *)
Record CommitFile : Type := {
  Filename : string;
  Status : option string;
  Changes : Z
}.

Record TreeEntry : Type := {
  Path : string;
  EntryType : string;
  Size : Z
}.

Record Client : Type := {
  (** owner, repository, ref *)
  GetCommit : string -> string -> string -> result Commit;
  (** owner, repository, base, head *)
  CompareCommits : string -> string -> string -> string
                   -> result (list CommitFile);
  (** owner, repository, ref; recursive *)
  GetTree : string -> string -> string -> result (list TreeEntry);
  (** owner, repository, path, ref: the file, and what decoding its
      content gives *)
  GetContents : string -> string -> string -> string
                -> result (result string)
}.

Section Service.

Variable client : Client.

(** The reading of the clock in [getAllFiles]. *)
Variable now : Time.

Definition GetFileContent (owner repo path ref : string) : result string :=
  match GetContents client owner repo path ref with
  | Err err => Err (External "GitHub" "failed to get file content" err)
  | Ok fileContent =>
      match fileContent with
      | Err err => Err (External "GitHub" "failed to decode file content" err)
      | Ok content => Ok content
      end
  end.

Definition GetLatestCommitSHA (owner repo branch : string) : result string :=
  match GetCommit client owner repo branch with
  | Err err => Err (External "GitHub" "failed to get latest commit SHA" err)
  | Ok commit => Ok (SHA commit)
  end.

Definition contentWarning (path : string) (err : Error) : string :=
  ("Failed to get content for " ++ path ++ ": " ++ err)%string.

(** The loop [for _, entry := range tree.Entries] of [getAllFiles]: the
    records appended and the warnings logged, both in order. *)
Fixpoint treeFiles (repo : Repository.t) (latestSHA : string)
                   (entries : list TreeEntry)
  : list FileChange.t * list string :=
  match entries with
  | [] => ([], [])
  | entry :: rest =>
      let '(files, warnings) := treeFiles repo latestSHA rest in
      if String.eqb (EntryType entry) "blob" then
        match GetFileContent (Repository.Owner repo) (Repository.Name repo)
                             (Path entry) (Repository.DefaultBranch repo) with
        | Err err => (files, contentWarning (Path entry) err :: warnings)
        | Ok content =>
            ({| FileChange.Repository := Repository.FullName repo;
                FileChange.FilePath := Path entry;
                FileChange.Content := content;
                FileChange.CommitSHA := latestSHA;
                FileChange.LastModified := now;
                FileChange.ChangeType := "added";
                FileChange.Size := Size entry |} :: files,
             warnings)
        end
      else (files, warnings)
  end.

Definition getAllFiles (repo : Repository.t)
  : result (list FileChange.t) * list string :=
  match GetTree client (Repository.Owner repo) (Repository.Name repo)
                (Repository.DefaultBranch repo) with
  | Err err => (Err (External "GitHub" "failed to get repository tree" err), [])
  | Ok entries =>
      match GetLatestCommitSHA (Repository.Owner repo) (Repository.Name repo)
                               (Repository.DefaultBranch repo) with
      | Err err => (Err err, [])
      | Ok latestSHA =>
          let '(files, warnings) := treeFiles repo latestSHA entries in
          (Ok files, warnings)
      end
  end.

(** The loop [for _, file := range comparison.Files] of
    [GetChangedFiles]. *)
Fixpoint comparedFiles (repo : Repository.t) (latestCommit : Commit)
                       (files : list CommitFile)
  : list FileChange.t * list string :=
  match files with
  | [] => ([], [])
  | file :: rest =>
      let '(changes, warnings) := comparedFiles repo latestCommit rest in
      let changeType :=
        match Status file with
        | Some status => status
        | None => "modified"
        end in
      if String.eqb changeType "removed" || String.eqb changeType "deleted"
      then
        ({| FileChange.Repository := Repository.FullName repo;
            FileChange.FilePath := Filename file;
            FileChange.Content := "";
            FileChange.CommitSHA := SHA latestCommit;
            FileChange.LastModified := AuthorDate latestCommit;
            FileChange.ChangeType := changeType;
            FileChange.Size := Changes file |} :: changes,
         warnings)
      else
        match GetFileContent (Repository.Owner repo) (Repository.Name repo)
                             (Filename file) (Repository.DefaultBranch repo) with
        | Err err => (changes, contentWarning (Filename file) err :: warnings)
        | Ok content =>
            ({| FileChange.Repository := Repository.FullName repo;
                FileChange.FilePath := Filename file;
                FileChange.Content := content;
                FileChange.CommitSHA := SHA latestCommit;
                FileChange.LastModified := AuthorDate latestCommit;
                FileChange.ChangeType := changeType;
                FileChange.Size := Changes file |} :: changes,
             warnings)
        end
  end.

Definition GetChangedFiles (repo : Repository.t) (lastCommitSHA : string)
  : result (list FileChange.t) * list string :=
  match GetCommit client (Repository.Owner repo) (Repository.Name repo)
                  (Repository.DefaultBranch repo) with
  | Err err => (Err (External "GitHub" "failed to get latest commit" err), [])
  | Ok latestCommit =>
      if String.eqb lastCommitSHA "" then getAllFiles repo
      else
        match CompareCommits client (Repository.Owner repo)
                             (Repository.Name repo) lastCommitSHA
                             (SHA latestCommit) with
        | Err err =>
            (Err (External "GitHub" "failed to compare commits" err), [])
        | Ok files =>
            let '(changes, warnings) := comparedFiles repo latestCommit files in
            (Ok changes, warnings)
        end
  end.

End Service.

End GitHubService.

(** ** pkg/logger: levels and the filter of [log] *)
Module Logger.
Import GoStrings.

Inductive LogLevel : Type := DEBUG | INFO | WARNING | ERROR.

(** The values [iota] gives the constants. *)
Definition rank (level : LogLevel) : Z :=
  match level with
  | DEBUG => 0
  | INFO => 1
  | WARNING => 2
  | ERROR => 3
  end.

Definition levelStrings (level : LogLevel) : string :=
  match level with
  | DEBUG => "DEBUG"
  | INFO => "INFO"
  | WARNING => "WARN"
  | ERROR => "ERROR"
  end.

(** The writer of the logger is left out: [log] returns the line it
    writes, if any. *)
Record t : Type := {
  level : LogLevel;
  prefix : string
}.

Definition New (level : LogLevel) (prefix : string) : t :=
  {| level := level; prefix := prefix |}.

(** [strings.ToUpper] on a string of ASCII bytes. *)
Definition upper (c : ascii) : ascii :=
  let n := nat_of_ascii c in
  if ((97 <=? n) && (n <=? 122))%nat then ascii_of_nat (n - 32) else c.

Fixpoint ToUpper (s : string) : string :=
  match s with
  | EmptyString => EmptyString
  | String c s' => String (upper c) (ToUpper s')
  end.

Definition parseLogLevel (level : string) : LogLevel :=
  let name := ToUpper level in
  if String.eqb name "DEBUG" then DEBUG
  else if String.eqb name "INFO" then INFO
  else if String.eqb name "WARNING" || String.eqb name "WARN" then WARNING
  else if String.eqb name "ERROR" then ERROR
  else INFO.

(** [Init], as far as the level and the prefix go. *)
Definition Init (level service : string) : t :=
  New (parseLogLevel level) service.

(** [l.log(level, ...)] with the message formatted and the clock read:
    the line written, or [None] when the entry is below the level of
    the logger. *)
Definition log (l : t) (timestamp : string) (lv : LogLevel)
               (message : string) : option string :=
  if rank lv <? rank (level l) then None
  else
    let levelStr := levelStrings lv in
    Some (if negb (String.eqb (prefix l) "")
          then ("[" ++ timestamp ++ "] [" ++ levelStr ++ "] ["
                ++ prefix l ++ "] " ++ message ++ nl)%string
          else ("[" ++ timestamp ++ "] [" ++ levelStr ++ "] "
                ++ message ++ nl)%string).

End Logger.

(** * Properties *)

Import GoStrings.

(** ** Integers *)

Lemma wrap_small (z : Z) : - 2 ^ 63 <= z < 2 ^ 63 -> GoInt.wrap z = z.
Proof.
  intros H. unfold GoInt.wrap.
  rewrite Z.mod_small; lia.
Qed.

(** ** The two content filters *)
Section Filters.
Import Orchestrator DocumentProcessor.

Lemma filterFiles_no_extension (o : Orchestrator.t) (files : list FileChange.t) :
  AllowedExtensions (Processing (config o)) = [] ->
  filterFiles o files = [].
Proof.
  intros Hext. induction files as [| file rest IH]; simpl.
  - reflexivity.
  - rewrite Hext. simpl. exact IH.
Qed.

Lemma ValidateDocument_no_extension (fc : FileChange.t) (patterns : list string) :
  ValidateDocument fc [] patterns =
  negb (existsb (Contains (FileChange.FilePath fc)) patterns)
  && negb (String.eqb (FileChange.ChangeType fc) "deleted"
           || String.eqb (FileChange.ChangeType fc) "removed").
Proof.
  unfold ValidateDocument. simpl.
  destruct (existsb _ patterns); simpl; [reflexivity |].
  destruct (_ || _); reflexivity.
Qed.

(** [filterFiles] keeps exactly the files whose path ends with an allowed
    extension and does not start with an exclude pattern, in order; the
    change type plays no part. *)
Lemma filterFiles_In (o : Orchestrator.t) (files : list FileChange.t)
                     (f : FileChange.t) :
  In f (filterFiles o files) <->
  In f files
  /\ existsb (endsWith (FileChange.FilePath f))
             (AllowedExtensions (Processing (config o))) = true
  /\ existsb (contains (FileChange.FilePath f))
             (ExcludePatterns (Processing (config o))) = false.
Proof.
  induction files as [| file rest IH]; cbn [filterFiles In].
  - tauto.
  - change (fun ext => endsWith (FileChange.FilePath file) ext)
      with (endsWith (FileChange.FilePath file)).
    change (fun pattern => contains (FileChange.FilePath file) pattern)
      with (contains (FileChange.FilePath file)).
    destruct (existsb (endsWith (FileChange.FilePath file)) _) eqn:Hv;
      cbn [negb].
    + destruct (existsb (contains (FileChange.FilePath file)) _) eqn:Hx;
        cbn [negb In]; rewrite IH; split.
      * tauto.
      * intros ([<- | Hin] & H1 & H2); [congruence | tauto].
      * intros [<- | H]; tauto.
      * tauto.
    + rewrite IH. split.
      * tauto.
      * intros ([<- | Hin] & H1 & H2); [congruence | tauto].
Qed.

Lemma prefix_length (a b : string) :
  prefix a b = true -> (String.length a <= String.length b)%nat.
Proof.
  revert b. induction a as [| c a IH]; intros b H; simpl.
  - lia.
  - destruct b as [| d b]; simpl in H; [discriminate |].
    destruct (Ascii.ascii_dec c d); [| discriminate].
    apply IH in H. simpl. lia.
Qed.

(** [contains] of the orchestrator is the prefix test. *)
Lemma contains_is_prefix (s substr : string) :
  contains s substr = prefix substr s.
Proof.
  unfold contains, slice, len.
  destruct (Z.of_nat (String.length s) >=? Z.of_nat (String.length substr))
    eqn:Hge.
  - assert (Hle : (0 <=? 0) && (0 <=? Z.of_nat (String.length substr))
                  && (Z.of_nat (String.length substr)
                      <=? Z.of_nat (String.length s)) = true).
    { rewrite !andb_true_iff, !Z.leb_le. lia. }
    rewrite Hle. cbn [andb].
    rewrite Z.sub_0_r, Nat2Z.id. simpl Z.to_nat.
    destruct (prefix substr s) eqn:Hp.
    + apply prefix_correct in Hp. rewrite Hp. apply String.eqb_refl.
    + apply String.eqb_neq. intros Heq.
      apply prefix_correct in Heq. congruence.
  - cbn [andb]. destruct (prefix substr s) eqn:Hp; [| reflexivity].
    apply prefix_length in Hp. lia.
Qed.

(** [ValidateDocument] refuses every removal. *)
Lemma ValidateDocument_removed (fc : FileChange.t)
                               (allowed patterns : list string) :
  FileChange.ChangeType fc = "removed" ->
  ValidateDocument fc allowed patterns = false.
Proof.
  intros H. unfold ValidateDocument. rewrite H.
  destruct (_ && _); [reflexivity |].
  destruct (existsb _ patterns); reflexivity.
Qed.

(** C9. With an empty list of allowed extensions [filterFiles] of the
    orchestrator returns the empty list whatever the files are, while
    [ValidateDocument] of the document processor does not look at the
    extension at all (it only applies the exclude patterns and the
    change type); hence there are a configuration and a file that the
    second accepts and the first drops. *)
Theorem filters_disagree_without_extensions :
  (forall (o : Orchestrator.t) (files : list FileChange.t),
      AllowedExtensions (Processing (config o)) = [] ->
      filterFiles o files = [])
  /\ (forall (fc : FileChange.t) (patterns : list string),
        ValidateDocument fc [] patterns =
        negb (existsb (Contains (FileChange.FilePath fc)) patterns)
        && negb (String.eqb (FileChange.ChangeType fc) "deleted"
                 || String.eqb (FileChange.ChangeType fc) "removed"))
  /\ (exists (o : Orchestrator.t) (fc : FileChange.t),
        AllowedExtensions (Processing (config o)) = []
        /\ ValidateDocument fc (AllowedExtensions (Processing (config o)))
                               (ExcludePatterns (Processing (config o))) = true
        /\ filterFiles o [fc] = []).
Proof.
  split; [| split].
  - exact filterFiles_no_extension.
  - exact ValidateDocument_no_extension.
  - exists (Example.orchestratorNoExtensions []), Example.fileA.
    repeat split.
Qed.

Lemma filters_disagree_without_extensions_witness :
  AllowedExtensions
    (Processing (config (Example.orchestratorNoExtensions []))) = []
  /\ filterFiles (Example.orchestratorNoExtensions [])
                 [Example.fileA; Example.fileB; Example.removedD] = [].
Proof.
  split.
  - reflexivity.
  - apply (proj1 filters_disagree_without_extensions). reflexivity.
Defined.

(** C5, at the failing input.  The exclude pattern [node_modules]
    occurs inside the path [src/node_modules/e.md], not at its start:
    [contains] of the orchestrator answers no and [filterFiles] keeps
    the file, where [strings.Contains] answers yes and
    [ValidateDocument] drops it. *)
Theorem filterFiles_keeps_inner_pattern :
  contains "src/node_modules/e.md" "node_modules" = false
  /\ Contains "src/node_modules/e.md" "node_modules" = true
  /\ filterFiles (Example.orchestrator [Example.nestedE]) [Example.nestedE]
     = [Example.nestedE]
  /\ ValidateDocument Example.nestedE [".md"] ["node_modules"] = false.
Proof.
  repeat split; vm_compute; reflexivity.
Qed.

(** C2, at the failing input.  A change record of kind [removed] with
    an allowed extension is kept by [filterFiles] and posted to the
    chunker by the run, where [ValidateDocument] drops it. *)
Theorem filterFiles_keeps_removed_file :
  FileChange.ChangeType Example.removedD = "removed"
  /\ filterFiles (Example.orchestrator [Example.removedD]) [Example.removedD]
     = [Example.removedD]
  /\ chunked (snd (SyncProject (Example.orchestrator [Example.removedD])
                               4 "p" true))
     = [Example.removedD]
  /\ ValidateDocument Example.removedD [".md"] ["node_modules"] = false.
Proof.
  repeat split; vm_compute; reflexivity.
Qed.

End Filters.

(** ** Cleaning and chunking *)
Section Cleaning.
Import DocumentProcessor.

(** C10, at the failing input.  A line that holds only a control
    character survives the emptiness test and is then emptied by the
    mapping, so the first pass leaves an empty line that the second
    pass removes. *)
Theorem CleanContent_second_pass_differs :
  CleanContent Example.withControlLine = ("a" ++ nl ++ nl ++ "b")%string
  /\ CleanContent (CleanContent Example.withControlLine)
     = ("a" ++ nl ++ "b")%string
  /\ CleanContent (CleanContent Example.withControlLine)
     <> CleanContent Example.withControlLine.
Proof.
  split; [| split]; try (vm_compute; reflexivity).
  vm_compute. discriminate.
Qed.

Lemma splitLoop_stuck_at_4 (fuel : nat) (chunks : list string) :
  splitLoop fuel "abcde" 4 1 4 chunks = OutOfFuel.
Proof.
  revert chunks. induction fuel as [| fuel IH]; intros chunks.
  - reflexivity.
  - change (splitLoop (S fuel) "abcde" 4 1 4 chunks)
      with (match splitStep "abcde" 4 1 4 with
            | None => Panics
            | Some (Some chunk, next) =>
                splitLoop fuel "abcde" 4 1 next (chunks ++ [chunk])
            | Some (None, next) => splitLoop fuel "abcde" 4 1 next chunks
            end).
    replace (splitStep "abcde" 4 1 4) with (Some (Some "e", 4))
      by (vm_compute; reflexivity).
    apply IH.
Qed.

(** C8, at the failing input.  With [maxSize = 4] and [overlap = 1]
    (so [0 <= overlap < maxSize / 2]) the loop on the five-byte text
    [abcde] reaches [start = 4] after two iterations and stays there:
    the end of the chunk is the end of the text, and [end - overlap] is
    [4] again.  No amount of fuel lets [splitIntoChunks] return. *)
Theorem splitIntoChunks_never_returns :
  forall fuel : nat, splitIntoChunks fuel "abcde" 4 1 = OutOfFuel.
Proof.
  intros fuel. unfold splitIntoChunks.
  destruct fuel as [| [| fuel]]; try reflexivity.
  change (splitLoop (S (S fuel)) "abcde" 4 1 0 [])
    with (match splitStep "abcde" 4 1 0 with
          | None => Panics
          | Some (Some chunk, next) =>
              splitLoop (S fuel) "abcde" 4 1 next ([] ++ [chunk])
          | Some (None, next) => splitLoop (S fuel) "abcde" 4 1 next []
          end).
  replace (splitStep "abcde" 4 1 0) with (Some (Some "abcd", 3))
    by (vm_compute; reflexivity).
  change (splitLoop (S fuel) "abcde" 4 1 3 ([] ++ ["abcd"]))
    with (match splitStep "abcde" 4 1 3 with
          | None => Panics
          | Some (Some chunk, next) =>
              splitLoop fuel "abcde" 4 1 next (([] ++ ["abcd"]) ++ [chunk])
          | Some (None, next) =>
              splitLoop fuel "abcde" 4 1 next ([] ++ ["abcd"])
          end).
  replace (splitStep "abcde" 4 1 3) with (Some (Some "de", 4))
    by (vm_compute; reflexivity).
  apply splitLoop_stuck_at_4.
Qed.

(** *** The loop with a positive overlap *)

Lemma substring_length (s : string) (n m : nat) :
  (n + m <= String.length s)%nat -> String.length (substring n m s) = m.
Proof.
  revert n m. induction s as [| c s IH]; intros n m H; simpl in H.
  - assert (n = 0%nat) by lia. assert (m = 0%nat) by lia. subst. reflexivity.
  - destruct n as [| n].
    + destruct m as [| m]; [reflexivity |].
      simpl. rewrite IH; [reflexivity | lia].
    + simpl. apply IH. lia.
Qed.

Lemma slice_some (text : string) (lo hi : Z) :
  0 <= lo <= hi -> hi <= len text ->
  exists w, slice text lo hi = Some w /\ len w = hi - lo.
Proof.
  intros H1 H2. unfold slice.
  assert (Hc : (0 <=? lo) && (lo <=? hi) && (hi <=? len text) = true).
  { rewrite !andb_true_iff, !Z.leb_le. lia. }
  rewrite Hc. eexists. split; [reflexivity |].
  unfold len in *. rewrite substring_length; lia.
Qed.

Lemma LastIndexAny_from_bounds (s chars : string) (i last : Z) :
  LastIndexAny_from s chars i last = last
  \/ i <= LastIndexAny_from s chars i last < i + len s.
Proof.
  revert i last. induction s as [| c s IH]; intros i last.
  - left. reflexivity.
  - cbn [LastIndexAny_from].
    assert (Hlen : len (String c s) = len s + 1).
    { unfold len. cbn [String.length]. lia. }
    destruct (IH (i + 1) (if mem c chars then i else last)) as [-> | H].
    + destruct (mem c chars); [right | left; reflexivity].
      rewrite Hlen. unfold len. lia.
    + right. lia.
Qed.

Lemma LastIndexAny_bounds (s chars : string) :
  -1 <= LastIndexAny s chars < len s.
Proof.
  unfold LastIndexAny.
  destruct (LastIndexAny_from_bounds s chars 0 (-1)) as [-> | H];
    unfold len in *; lia.
Qed.

(** From a position inside the text, one iteration does not panic and
    leaves the position inside the text. *)
Lemma splitStep_stays (text : string) (maxSize overlap start : Z) :
  0 < maxSize < 2 ^ 62 -> 0 < overlap < 2 ^ 62 -> len text < 2 ^ 62 ->
  0 <= start < len text ->
  exists c next,
    splitStep text maxSize overlap start = Some (c, next)
    /\ 0 <= next < len text.
Proof.
  intros Hm Ho Ht Hs. unfold splitStep. cbv zeta.
  unfold GoInt.add, GoInt.sub.
  rewrite (wrap_small (start + maxSize)) by lia.
  set (end1 := if start + maxSize >? len text then len text
               else start + maxSize).
  assert (He1 : start < end1 <= len text).
  { subst end1. rewrite Z.gtb_ltb.
    destruct (len text <? start + maxSize) eqn:E;
      [apply Z.ltb_lt in E | apply Z.ltb_ge in E]; lia. }
  assert (Htail : forall end2, start < end2 <= len text ->
    exists c next,
      match slice text start end2 with
      | Some raw =>
          Some (if len (TrimSpace raw) >? 0 then Some (TrimSpace raw) else None,
                if GoInt.wrap (end2 - overlap) <? 0 then 0
                else GoInt.wrap (end2 - overlap))
      | None => None
      end = Some (c, next) /\ 0 <= next < len text).
  { intros end2 He2.
    destruct (slice_some text start end2) as (raw & -> & _); [lia | lia |].
    rewrite (wrap_small (end2 - overlap)) by lia.
    eexists. eexists. split; [reflexivity |].
    destruct (end2 - overlap <? 0) eqn:E;
      [apply Z.ltb_lt in E | apply Z.ltb_ge in E]; lia. }
  destruct (end1 <? len text).
  - destruct (slice_some text start end1) as (w & -> & Hw); [lia | lia |].
    pose proof (LastIndexAny_bounds w sentenceEnds) as Hb.
    destruct (LastIndexAny w sentenceEnds >? GoInt.div maxSize 2) eqn:E.
    + rewrite Z.gtb_ltb in E. apply Z.ltb_lt in E. unfold GoInt.div in E.
      assert (0 <= Z.quot maxSize 2) by (apply Z.quot_pos; lia).
      rewrite (wrap_small (start + LastIndexAny w sentenceEnds)) by lia.
      rewrite (wrap_small (start + LastIndexAny w sentenceEnds + 1)) by lia.
      apply Htail. lia.
    + apply Htail. lia.
  - apply Htail. lia.
Qed.

Lemma splitLoop_positive_overlap (text : string) (maxSize overlap : Z) :
  0 < maxSize < 2 ^ 62 -> 0 < overlap < 2 ^ 62 -> len text < 2 ^ 62 ->
  forall (fuel : nat) (start : Z) (chunks : list string),
    0 <= start < len text ->
    splitLoop fuel text maxSize overlap start chunks = OutOfFuel.
Proof.
  intros Hm Ho Ht.
  induction fuel as [| fuel IH]; intros start chunks Hs; cbn [splitLoop];
    (replace (start <? len text) with true by (symmetry; apply Z.ltb_lt; lia)).
  - reflexivity.
  - destruct (splitStep_stays text maxSize overlap start Hm Ho Ht Hs)
      as (c & next & -> & Hn).
    destruct c; apply IH; exact Hn.
Qed.

(** With a positive overlap (and a positive chunk size) [splitIntoChunks]
    returns on no non-empty text, however much fuel it is given: the
    position never reaches the end of the text. *)
Lemma splitIntoChunks_positive_overlap (text : string) (maxSize overlap : Z) :
  0 < maxSize < 2 ^ 62 -> 0 < overlap < 2 ^ 62 ->
  0 < len text < 2 ^ 62 ->
  forall fuel : nat, splitIntoChunks fuel text maxSize overlap = OutOfFuel.
Proof.
  intros Hm Ho Ht fuel. unfold splitIntoChunks.
  apply splitLoop_positive_overlap; lia.
Qed.

End Cleaning.

(** ** The computations of the orchestrator *)
Section Computations.
Import Orchestrator.

Lemma bind_Returns {A B : Type} (m : M A) (k : A -> M B) (b : B)
                   (l : list Effect) :
  bind m k = (Returns b, l) ->
  exists a l1 l2, m = (Returns a, l1) /\ k a = (Returns b, l2) /\ l = l1 ++ l2.
Proof.
  destruct m as [[a | |] l1]; simpl; try discriminate.
  destruct (k a) as [r l2] eqn:Hk. intros H. inversion H; subst.
  exists a, l1, l2. auto.
Qed.

Lemma every_ret {A : Type} (P : Effect -> Prop) (a : A) : every P (ret a).
Proof. constructor. Qed.

Lemma every_panic {A : Type} (P : Effect -> Prop) : every P (@panic A).
Proof. constructor. Qed.

Lemma every_diverge {A : Type} (P : Effect -> Prop) : every P (@diverge A).
Proof. constructor. Qed.

Lemma every_emit (P : Effect -> Prop) (e : Effect) : P e -> every P (emit e).
Proof. intros H. repeat constructor. exact H. Qed.

Lemma every_bind {A B : Type} (P : Effect -> Prop) (m : M A) (k : A -> M B) :
  every P m -> (forall a, every P (k a)) -> every P (bind m k).
Proof.
  unfold every. destruct m as [[a | |] l]; simpl; intros Hm Hk; auto.
  specialize (Hk a). destruct (k a) as [r l2]. simpl in *.
  apply Forall_app. split; assumption.
Qed.

(** *** Footprints

    Which effects each function can have: a property of effects that
    holds of the requests a function sends holds of all its effects. *)
Section Footprint.

Variable o : Orchestrator.t.
Variable P : Effect -> Prop.

Hypothesis P_repositories : forall org keyword, P (GetRepositories org keyword).
Hypothesis P_changes : forall repo sha, P (GetChanges repo sha).
Hypothesis P_metadata : forall projectID repo, P (GetMetadata projectID repo).
Hypothesis P_chunk : forall f, P (PostChunk f).
Hypothesis P_embed : forall texts, P (PostEmbed texts).
Hypothesis P_upsert : forall embeddings, P (PostUpsert embeddings).
Hypothesis P_save : forall m, P (PostMetadata m).
Hypothesis P_notify : forall ty title msg res, P (PostNotify ty title msg res).
Hypothesis P_log : forall msg, P (LogWarning msg).

Ltac step :=
  first [ apply every_bind; [| intros ? ]
        | apply every_ret | apply every_panic | apply every_diverge
        | apply every_emit; auto ].

Lemma every_discoverRepositories : every P (discoverRepositories o).
Proof. unfold discoverRepositories. repeat step. Qed.

Lemma every_getChangedFiles repo sha : every P (getChangedFiles o repo sha).
Proof. unfold getChangedFiles. repeat step. Qed.

Lemma every_getLastCommitSHA projectID repo :
  every P (getLastCommitSHA o projectID repo).
Proof. unfold getLastCommitSHA. repeat step. Qed.

Lemma every_chunkDocument f : every P (chunkDocument o f).
Proof. unfold chunkDocument. repeat step. Qed.

Lemma every_upsertVectors embeddings ns :
  every P (upsertVectors o embeddings ns).
Proof. unfold upsertVectors. repeat step. Qed.

Lemma every_saveMetadata m : every P (saveMetadata o m).
Proof. unfold saveMetadata. repeat step. Qed.

Lemma every_sendNotification res ty : every P (sendNotification res ty).
Proof.
  unfold sendNotification.
  destruct (String.eqb ty "error"); [destruct (SyncResult.Errors res) |];
    apply every_emit; auto.
Qed.

Lemma every_generateEmbeddings documents :
  every P (generateEmbeddings o documents).
Proof.
  unfold generateEmbeddings.
  destruct (lenL documents =? 0); [step |].
  step; [step |].
  destruct (embed _ _); [| step].
  destruct (embeddingsFrom _ _ _ _); step.
Qed.

Lemma every_worker f : every P (worker o f).
Proof.
  unfold worker. step; [apply every_chunkDocument |].
  destruct a as [documents | err]; [| repeat step].
  step; [apply every_generateEmbeddings |].
  destruct a as [embeddings | err]; repeat step.
Qed.

Lemma every_processBatchFrom files acc total :
  every P (processBatchFrom o files acc total).
Proof.
  revert acc total. induction files as [| f rest IH]; intros acc total; simpl.
  - step.
  - step; [apply every_worker |].
    destruct a as [[embeddings n] |]; apply IH.
Qed.

Lemma every_processFilesFrom fuel files i acc total :
  every P (processFilesFrom o fuel files i acc total).
Proof.
  revert i acc total. induction fuel as [| fuel IH]; intros i acc total; simpl.
  - destruct (i <? lenL files); step.
  - destruct (i <? lenL files); [| step].
    destruct (sliceList _ _ _); [| step].
    step; [apply every_processBatchFrom |].
    destruct a as [[embeddings chunks] | err]; [apply IH | step].
Qed.

Lemma every_collectChanges projectID incremental repos res acc :
  every P (collectChanges o projectID incremental repos res acc).
Proof.
  revert res acc.
  induction repos as [| repo rest IH]; intros res acc; cbn [collectChanges].
  - step.
  - step.
    + destruct incremental; [| step].
      step; [apply every_getLastCommitSHA | step].
    + step; [apply every_getChangedFiles |].
      destruct a0; apply IH.
Qed.

Lemma every_updateMetadata projectID files :
  every P (updateMetadata o projectID files).
Proof.
  induction files as [| f rest IH]; cbn [updateMetadata].
  - step.
  - step; [apply every_saveMetadata | exact IH].
Qed.

Lemma every_failWith res what err : every P (failWith res what err).
Proof.
  unfold failWith. step; [apply every_sendNotification | step].
Qed.

Lemma every_complete projectID res files :
  every P (complete o projectID res files).
Proof.
  unfold complete. step; [apply every_updateMetadata |].
  step; [apply every_sendNotification | step].
Qed.

Lemma every_SyncProject fuel projectID incremental :
  every P (SyncProject o fuel projectID incremental).
Proof.
  unfold SyncProject. step; [apply every_discoverRepositories |].
  destruct a as [repos | err]; [| apply every_failWith].
  step; [apply every_collectChanges |].
  destruct a as [res files].
  step; [apply every_processFilesFrom |].
  destruct a as [[embeddings chunks] | err]; [| apply every_failWith].
  destruct (lenL embeddings >? 0); [| apply every_complete].
  step; [apply every_upsertVectors |].
  destruct a; [apply every_failWith | apply every_complete].
Qed.

End Footprint.

(** C3, as the code has it.  No run of [SyncProject] sends a
    delete-by-identifier request to the vector store or deletes a
    metadata row, whatever the change records are: its effects are
    listing, chunk, embed, upsert, save-metadata and notify requests and
    logged warnings only. *)
Theorem SyncProject_never_deletes :
  forall (o : Orchestrator.t) (fuel : nat) (projectID : string)
         (incremental : bool),
    Forall (fun e => isDeletion e = false)
           (snd (SyncProject o fuel projectID incremental)).
Proof.
  intros o fuel projectID incremental.
  apply (every_SyncProject o (fun e => isDeletion e = false));
    intros; reflexivity.
Qed.

(** C3, the claim refuted.  In a run whose only change record is the
    removal of [d.md], no request is a deletion. *)
Lemma removal_triggers_no_deletion :
  let run := SyncProject (Example.orchestrator [Example.removedD]) 4 "p" true in
  FileChange.ChangeType Example.removedD = "removed"
  /\ fst run <> Panics /\ fst run <> OutOfFuel
  /\ ~ (exists ids ns, In (DeleteVectors ids ns) (snd run))
  /\ ~ (exists p r f, In (DeleteSyncMetadata p r f) (snd run)).
Proof.
  repeat split; try (vm_compute; discriminate).
  - intros (ids & ns & H). vm_compute in H.
    repeat (destruct H as [H | H]; [discriminate |]). exact H.
  - intros (p & r & f & H). vm_compute in H.
    repeat (destruct H as [H | H]; [discriminate |]). exact H.
Qed.

(** *** The loops in closed form *)
Section Loops.

Variable o : Orchestrator.t.

Lemma every_effects {A : Type} (P : Effect -> Prop) (m : M A)
                    (x : outcome A) (l : list Effect) :
  every P m -> m = (x, l) -> Forall P l.
Proof. intros H ->. exact H. Qed.

Lemma saved_app (l1 l2 : list Effect) : saved (l1 ++ l2) = saved l1 ++ saved l2.
Proof. apply flat_map_app. Qed.

Lemma logged_app (l1 l2 : list Effect) :
  logged (l1 ++ l2) = logged l1 ++ logged l2.
Proof. apply flat_map_app. Qed.

Lemma saved_none (l : list Effect) :
  Forall (fun e => savedOf e = []) l -> saved l = [].
Proof.
  induction 1 as [| e l He _ IH]; simpl.
  - reflexivity.
  - rewrite He, IH. reflexivity.
Qed.

Lemma collectChanges_closed projectID incremental repos res acc :
  exists res' l,
    collectChanges o projectID incremental repos res acc
    = (Returns (res', acc ++ changedFilesOf o projectID incremental repos), l)
    /\ SyncResult.Warnings res'
       = SyncResult.Warnings res ++ repoWarnings o projectID incremental repos.
Proof.
  revert res acc.
  induction repos as [| repo rest IH]; intros res acc.
  - exists res, []. simpl. rewrite !app_nil_r. split; reflexivity.
  - cbn [collectChanges changedFilesOf repoWarnings flat_map].
    fold (changedFilesOf o projectID incremental rest).
    fold (repoWarnings o projectID incremental rest).
    assert (Hsha :
      exists l0,
        (if incremental
         then bind (getLastCommitSHA o projectID (Repository.FullName repo))
                (fun r => ret match r with Ok sha => sha | Err _ => "" end)
         else ret "")
        = (Returns
             (if incremental
              then match lastCommit (services o) projectID
                           (Repository.FullName repo) with
                   | Ok sha => sha
                   | Err _ => ""
                   end
              else ""), l0)).
    { destruct incremental; eexists; reflexivity. }
    destruct Hsha as (l0 & Hsha). rewrite Hsha. clear Hsha.
    unfold diffOf.
    set (sha := if incremental then _ else _).
    cbn [bind]. unfold getChangedFiles. cbn [bind emit ret].
    destruct (changes (services o) (Repository.FullName repo) sha)
      as [files | err].
    + destruct (IH res (acc ++ files)) as (res' & l & Heq & Hw).
      rewrite Heq. exists res'. eexists. split; [| rewrite Hw; reflexivity].
      rewrite <- app_assoc. reflexivity.
    + destruct (IH (addWarning res
                      ("Failed to get changed files for "
                       ++ Repository.FullName repo ++ ": " ++ err)%string) acc)
        as (res' & l & Heq & Hw).
      rewrite Heq. exists res'. eexists. split; [reflexivity |].
      rewrite Hw. cbn [addWarning update SyncResult.Warnings].
      rewrite <- app_assoc. reflexivity.
Qed.

Lemma updateMetadata_closed projectID files :
  updateMetadata o projectID files
  = (Returns tt, map (fun f => PostMetadata (metadataFor projectID f)) files).
Proof.
  induction files as [| f rest IH]; cbn [updateMetadata map].
  - reflexivity.
  - rewrite IH. reflexivity.
Qed.

Lemma saved_PostMetadata projectID files :
  saved (map (fun f => PostMetadata (metadataFor projectID f)) files)
  = map (metadataFor projectID) files.
Proof.
  unfold saved.
  induction files as [| f rest IH]; cbn [map flat_map savedOf app].
  - reflexivity.
  - rewrite IH. reflexivity.
Qed.

Lemma failWith_inv res what err res' err' l :
  failWith res what err = (Returns (res', err'), l) ->
  err' = Some err
  /\ saved l = []
  /\ SyncResult.Warnings res' = SyncResult.Warnings res
  /\ SyncResult.FilesProcessed res' = SyncResult.FilesProcessed res.
Proof.
  intros H.
  assert (Hs : Forall (fun e => savedOf e = []) l).
  { refine (every_effects _ _ _ _ _ H).
    apply every_failWith. intros; reflexivity. }
  unfold failWith in H.
  apply bind_Returns in H as (u & l1 & l2 & _ & Hr & _).
  unfold ret in Hr. inversion Hr; subst.
  repeat split. apply saved_none, Hs.
Qed.

Lemma complete_inv projectID res files res' err' l :
  complete o projectID res files = (Returns (res', err'), l) ->
  err' = None
  /\ res' = setSuccess res true
  /\ saved l = map (metadataFor projectID) files
  /\ Forall (fun e => forall es, e <> PostUpsert es) l.
Proof.
  intros H.
  assert (Hu : Forall (fun e => forall es, e <> PostUpsert es) l).
  { refine (every_effects _ _ _ _ _ H).
    apply every_complete; intros; discriminate. }
  unfold complete in H.
  apply bind_Returns in H as (u & l1 & l2 & Hm & H & ->).
  rewrite updateMetadata_closed in Hm. inversion Hm; subst l1.
  apply bind_Returns in H as (u' & l3 & l4 & Hn & Hr & ->).
  unfold ret in Hr. inversion Hr; subst.
  assert (Hn' : Forall (fun e => savedOf e = []) l3).
  { refine (every_effects _ _ _ _ _ Hn).
    apply every_sendNotification. intros; reflexivity. }
  repeat split; [| exact Hu].
  rewrite !saved_app, saved_PostMetadata, (saved_none l3 Hn').
  simpl. rewrite app_nil_r. reflexivity.
Qed.

(** What a returning run of [SyncProject] has done, by the answer of
    the repository listing. *)
Lemma SyncProject_inv fuel projectID incremental res err effects :
  SyncProject o fuel projectID incremental = (Returns (res, err), effects) ->
  match repositories (services o) (Organization (GitHub (config o)))
                     (FilterKeyword (GitHub (config o))) with
  | Err e0 =>
      err = Some e0 /\ saved effects = [] /\ SyncResult.Warnings res = []
  | Ok repos =>
      let validFiles :=
        filterFiles o (changedFilesOf o projectID incremental repos) in
      SyncResult.Warnings res = repoWarnings o projectID incremental repos
      /\ SyncResult.FilesProcessed res = lenL validFiles
      /\ match err with
         | Some _ => saved effects = []
         | None =>
             saved effects = map (metadataFor projectID) validFiles
             /\ SyncResult.Success res = true
             /\ (forall es, In (PostUpsert es) effects ->
                            upsert (services o) es = None)
         end
  end.
Proof.
  intros H. unfold SyncProject in H.
  apply bind_Returns in H as (r & l1 & l2 & Hd & H & ->).
  unfold discoverRepositories in Hd. cbn [bind emit ret app] in Hd.
  inversion Hd; subst; clear Hd.
  destruct (repositories _ _ _) as [repos | e0].
  2: { apply failWith_inv in H as (-> & Hs & Hw & _).
       repeat split; [| exact Hw].
       rewrite saved_app, Hs. reflexivity. }
  apply bind_Returns in H as ([res1 files] & l3 & l4 & Hc & H & ->).
  destruct (collectChanges_closed projectID incremental repos
              (setScanned (newResult projectID) (lenL repos)) [])
    as (res1' & lc & Hc' & Hw1).
  rewrite Hc' in Hc. inversion Hc; subst res1' files lc. clear Hc.
  cbn [app] in H. cbn [app newResult setScanned update SyncResult.Warnings] in Hw1.
  assert (Hl3 : Forall (fun e => savedOf e = []) l3
                /\ Forall (fun e => forall es, e <> PostUpsert es) l3).
  { split; refine (every_effects _ _ _ _ _ Hc');
      apply every_collectChanges; intros; first [reflexivity | discriminate]. }
  destruct Hl3 as [Hs3 Hu3].
  cbv beta iota in H.
  set (validFiles := filterFiles o (changedFilesOf o projectID incremental repos)) in *.
  apply bind_Returns in H as (r & l5 & l6 & Hp & H & ->).
  assert (Hl5 : Forall (fun e => savedOf e = []) l5
                /\ Forall (fun e => forall es, e <> PostUpsert es) l5).
  { split; refine (every_effects _ _ _ _ _ Hp);
      apply every_processFilesFrom; intros; first [reflexivity | discriminate]. }
  destruct Hl5 as [Hs5 Hu5].
  assert (Hpre : saved ([GetRepositories (Organization (GitHub (config o)))
                           (FilterKeyword (GitHub (config o)))] ++ l3 ++ l5) = []).
  { rewrite !saved_app, (saved_none _ Hs3), (saved_none _ Hs5). reflexivity. }
  assert (Hupre : forall es,
             ~ In (PostUpsert es)
                  ([GetRepositories (Organization (GitHub (config o)))
                      (FilterKeyword (GitHub (config o)))] ++ l3 ++ l5)).
  { intros es Hin. rewrite !in_app_iff in Hin.
    destruct Hin as [[Hin | []] | [Hin | Hin]]; [discriminate | |].
    - rewrite Forall_forall in Hu3. exact (Hu3 _ Hin es eq_refl).
    - rewrite Forall_forall in Hu5. exact (Hu5 _ Hin es eq_refl). }
  destruct r as [[embeddings chunks] | e1].
  2: { apply failWith_inv in H as (-> & Hs & Hw & Hf).
       split; [rewrite Hw; exact Hw1 |]. split; [rewrite Hf; reflexivity |].
       rewrite !saved_app in *. rewrite Hs.
       rewrite (saved_none _ Hs3), (saved_none _ Hs5). reflexivity. }
  destruct (lenL embeddings >? 0).
  - apply bind_Returns in H as (e & l7 & l8 & Hup & H & ->).
    unfold upsertVectors in Hup. cbn [bind emit ret app] in Hup.
    inversion Hup; subst e l7; clear Hup.
    destruct (upsert (services o) embeddings) as [e2 |] eqn:Hans.
    + apply failWith_inv in H as (-> & Hs & Hw & Hf).
      split; [rewrite Hw; exact Hw1 |]. split; [rewrite Hf; reflexivity |].
      rewrite !saved_app in *. rewrite Hs.
      rewrite (saved_none _ Hs3), (saved_none _ Hs5). reflexivity.
    + apply complete_inv in H as (-> & -> & Hs & Hu).
      split; [exact Hw1 |]. split; [reflexivity |].
      split; [| split; [reflexivity |]].
      * rewrite !saved_app in *. rewrite Hs.
        rewrite (saved_none _ Hs3), (saved_none _ Hs5). reflexivity.
      * intros es Hin.
        rewrite app_assoc, app_assoc, <- (app_assoc _ l3 l5) in Hin.
        apply in_app_or in Hin as [Hin | Hin]; [elim (Hupre es Hin) |].
        apply in_app_or in Hin as [[Hin | []] | Hin].
        -- inversion Hin; subst. exact Hans.
        -- rewrite Forall_forall in Hu. elim (Hu _ Hin es eq_refl).
  - apply complete_inv in H as (-> & -> & Hs & Hu).
    split; [exact Hw1 |]. split; [reflexivity |].
    split; [| split; [reflexivity |]].
    + rewrite !saved_app in *. rewrite Hs.
      rewrite (saved_none _ Hs3), (saved_none _ Hs5). reflexivity.
    + intros es Hin.
      rewrite app_assoc, app_assoc, <- (app_assoc _ l3 l5) in Hin.
      apply in_app_or in Hin as [Hin | Hin]; [elim (Hupre es Hin) |].
      rewrite Forall_forall in Hu. elim (Hu _ Hin es eq_refl).
Qed.

Lemma lenL_zero {A : Type} (l : list A) : lenL l = 0 -> l = [].
Proof. destruct l; [reflexivity | unfold lenL; simpl; lia]. Qed.

(** One worker: what it logs, and what it hands over when both the
    chunker and the vectorizer answered. *)
Lemma worker_spec f r l :
  worker o f = (Returns r, l) ->
  logged l = failureWarning o f
  /\ (forall documents vectors es,
        chunk (services o) f = Ok documents ->
        embed (services o) (map Document.Content documents) = Ok vectors ->
        embeddingsFrom o documents vectors 0 = Some es ->
        exists n, r = Some (es, n)).
Proof.
  unfold worker, failureWarning, chunkDocument, generateEmbeddings.
  cbn [bind emit ret app].
  destruct (chunk (services o) f) as [documents | err].
  - destruct (lenL documents =? 0) eqn:Hlen.
    + cbn [bind emit ret app]. intros H. inversion H; subst.
      split; [reflexivity |].
      intros documents' vectors es Hd _ Hes.
      assert (documents' = documents) by congruence. subst documents'.
      apply Z.eqb_eq, lenL_zero in Hlen. rewrite Hlen in Hes.
      simpl in Hes. inversion Hes. rewrite Hlen. eauto.
    + cbn [bind emit ret app].
      destruct (embed (services o) (map Document.Content documents))
        as [vectors | err] eqn:Hembed.
      * destruct (embeddingsFrom o documents vectors 0) as [es |] eqn:Hes;
          cbn [bind emit ret panic app]; intros H; inversion H; subst.
        split; [reflexivity |].
        intros documents' vectors' es' Hd Hv Hes'.
        assert (documents' = documents) by congruence. subst documents'.
        assert (es' = es) by congruence. subst es'. eauto.
      * cbn [bind emit ret app]. intros H. inversion H; subst.
        split; [reflexivity |].
        intros documents' vectors es Hd Hv _.
        assert (documents' = documents) by congruence. subst documents'.
        congruence.
  - intros H. inversion H; subst. split; [reflexivity |].
    intros documents vectors es Hd. discriminate.
Qed.

Lemma processBatchFrom_spec files acc total embs n l :
  processBatchFrom o files acc total = (Returns (Ok (embs, n)), l) ->
  logged l = flat_map (failureWarning o) files
  /\ incl acc embs
  /\ (forall f documents vectors es,
        In f files ->
        chunk (services o) f = Ok documents ->
        embed (services o) (map Document.Content documents) = Ok vectors ->
        embeddingsFrom o documents vectors 0 = Some es ->
        incl es embs).
Proof.
  revert acc total l.
  induction files as [| file rest IH]; intros acc total l H;
    cbn [processBatchFrom] in H.
  - unfold ret in H. inversion H; subst.
    repeat split; [apply incl_refl | intros ? ? ? ? []].
  - apply bind_Returns in H as (r & l1 & l2 & Hw & H & ->).
    apply worker_spec in Hw as [Hlog Hgive].
    rewrite logged_app, Hlog. cbn [flat_map].
    destruct r as [[embeddings k] |].
    + apply IH in H as (Hl & Hacc & Hrest).
      split; [rewrite Hl; reflexivity |].
      split; [intros e He; apply Hacc, in_or_app; auto |].
      intros f documents vectors es [<- | Hin] Hd Hv Hes.
      * destruct (Hgive _ _ _ Hd Hv Hes) as (k' & Heq). inversion Heq; subst.
        intros e He. apply Hacc, in_or_app. auto.
      * eapply Hrest; eauto.
    + apply IH in H as (Hl & Hacc & Hrest).
      split; [rewrite Hl; reflexivity |].
      split; [exact Hacc |].
      intros f documents vectors es [<- | Hin] Hd Hv Hes.
      * destruct (Hgive _ _ _ Hd Hv Hes) as (k' & Heq). discriminate.
      * eapply Hrest; eauto.
Qed.

End Loops.

(** ** The run as a whole *)

(** C1, as the code has it.  A run of [SyncProject] that returns without
    error has posted one metadata row, carrying the file's commit SHA and
    the status [synced], for every file kept by [filterFiles], in order
    and whether or not that file's chunks were embedded, and every upsert
    it posted was accepted; a run that returns an error has posted no
    metadata row. *)
Theorem SyncProject_checkpoints_every_valid_file :
  forall (o : Orchestrator.t) (fuel : nat) (projectID : string)
         (incremental : bool) (res : SyncResult.t) (err : option Error)
         (effects : list Effect),
    SyncProject o fuel projectID incremental = (Returns (res, err), effects) ->
    match err with
    | Some _ => saved effects = []
    | None =>
        exists repos,
          repositories (services o) (Organization (GitHub (config o)))
                       (FilterKeyword (GitHub (config o))) = Ok repos
          /\ saved effects
             = map (metadataFor projectID)
                   (filterFiles o (changedFilesOf o projectID incremental repos))
          /\ (forall es, In (PostUpsert es) effects ->
                         upsert (services o) es = None)
    end.
Proof.
  intros o fuel projectID incremental res err effects H.
  apply SyncProject_inv in H.
  destruct (repositories _ _ _) as [repos | e0].
  - destruct H as (_ & _ & H). destruct err as [e |]; [exact H |].
    destruct H as (Hs & _ & Hu). exists repos. auto.
  - destruct H as (-> & Hs & _). exact Hs.
Qed.

Lemma SyncProject_checkpoints_every_valid_file_witness :
  let o := Example.orchestrator [Example.fileA; Example.removedD] in
  let run := SyncProject o 4 "p" false in
  let res := match fst run with
             | Returns (res, _) => res
             | _ => newResult "p"
             end in
  run = (Returns (res, None), snd run)
  /\ exists repos,
      repositories (services o) (Organization (GitHub (config o)))
                   (FilterKeyword (GitHub (config o))) = Ok repos
      /\ saved (snd run)
         = map (metadataFor "p")
               (filterFiles o (changedFilesOf o "p" false repos))
      /\ (forall es, In (PostUpsert es) (snd run) ->
                     upsert (services o) es = None).
Proof.
  intros o run res. split.
  - vm_compute. reflexivity.
  - apply (SyncProject_checkpoints_every_valid_file o 4 "p" false res None
             (snd run)).
    vm_compute. reflexivity.
Defined.

(** C1, the claim refuted.  The vectorizer refuses [b.md]; the run
    returns without error, has posted the metadata row of [b.md] with
    the new commit SHA, and has upserted no embedding of [b.md]. *)
Lemma checkpoint_advances_without_vectors :
  let o := Example.orchestrator [Example.fileA; Example.fileB; Example.fileC] in
  exists res effects,
    SyncProject o 4 "p" true = (Returns (res, None), effects)
    /\ In (metadataFor "p" Example.fileB) (saved effects)
    /\ SyncMetadata.LastCommitSHA (metadataFor "p" Example.fileB) = "c1"
    /\ map Embedding.FilePath (upserted effects) = ["a.md"; "c.md"].
Proof.
  eexists. eexists. split; [vm_compute; reflexivity |].
  split; [right; left; reflexivity |].
  split; reflexivity.
Qed.

(** C4, as the code has it.  [RunResult.Warnings] holds exactly the
    warnings of step 2, one per repository whose changes could not be
    listed, and nothing for a file whose chunking or vectorizing failed.
    Such a file gets one warning in the log, naming its path; the
    embeddings of every file of the batch for which both calls answered
    are in the result of the batch. *)
Theorem file_failures_logged_not_reported :
  forall (o : Orchestrator.t),
    (forall fuel projectID incremental res err effects repos,
        SyncProject o fuel projectID incremental
        = (Returns (res, err), effects) ->
        repositories (services o) (Organization (GitHub (config o)))
                     (FilterKeyword (GitHub (config o))) = Ok repos ->
        SyncResult.Warnings res = repoWarnings o projectID incremental repos)
    /\ (forall files embs n effects,
          processBatch o files = (Returns (Ok (embs, n)), effects) ->
          logged effects = flat_map (failureWarning o) files
          /\ (forall f documents vectors es,
                In f files ->
                chunk (services o) f = Ok documents ->
                embed (services o) (map Document.Content documents)
                = Ok vectors ->
                embeddingsFrom o documents vectors 0 = Some es ->
                incl es embs)).
Proof.
  intros o. split.
  - intros fuel projectID incremental res err effects repos H Hrepos.
    apply SyncProject_inv in H. rewrite Hrepos in H. apply H.
  - intros files embs n effects H.
    apply processBatchFrom_spec in H as (Hl & _ & Hrest). auto.
Qed.

Lemma file_failures_logged_not_reported_witness :
  let o := Example.orchestrator [Example.fileA; Example.fileB; Example.fileC] in
  let files := [Example.fileA; Example.fileB; Example.fileC] in
  let batch := processBatch o files in
  let embs := match fst batch with
              | Returns (Ok (embs, _)) => embs
              | _ => []
              end in
  batch = (Returns (Ok (embs, 2)), snd batch)
  /\ logged (snd batch) = flat_map (failureWarning o) files
  /\ (forall f documents vectors es,
        In f files ->
        chunk (services o) f = Ok documents ->
        embed (services o) (map Document.Content documents) = Ok vectors ->
        embeddingsFrom o documents vectors 0 = Some es ->
        incl es embs).
Proof.
  intros o files batch embs. split.
  - vm_compute. reflexivity.
  - apply (proj2 (file_failures_logged_not_reported o) files embs 2
             (snd batch)).
    vm_compute. reflexivity.
Defined.

(** C4, the claim refuted.  The vectorizer refuses [b.md]; the run
    returns with no entry in [Warnings], the failure being in the log
    only, and the two other files of the batch are upserted. *)
Lemma vectorizer_failure_leaves_no_warning :
  let o := Example.orchestrator [Example.fileA; Example.fileB; Example.fileC] in
  exists res effects,
    SyncProject o 4 "p" true = (Returns (res, None), effects)
    /\ failureWarning o Example.fileB
       = ["Failed to generate embeddings for b.md: unexpected status 500"]
    /\ SyncResult.Warnings res = []
    /\ logged effects
       = ["Failed to generate embeddings for b.md: unexpected status 500"]
    /\ map Embedding.FilePath (upserted effects) = ["a.md"; "c.md"].
Proof.
  eexists. eexists. split; [vm_compute; reflexivity |].
  repeat split.
Qed.

(** *** generateEmbeddings *)

Lemma embeddingsFrom_total (o : Orchestrator.t) (documents : list Document.t)
                           (vectors : list (list float32)) (i : nat) :
  (i + List.length documents <= List.length vectors)%nat ->
  exists es,
    embeddingsFrom o documents vectors i = Some es
    /\ List.length es = List.length documents
    /\ (forall k doc,
          nth_error documents k = Some doc ->
          exists v, nth_error vectors (i + k) = Some v
                    /\ nth_error es k = Some (newEmbedding o doc v)).
Proof.
  revert i. induction documents as [| doc rest IH]; intros i Hlen.
  - exists []. repeat split. intros [| k] d H; discriminate.
  - cbn [embeddingsFrom]. simpl in Hlen.
    destruct (nth_error vectors i) as [v |] eqn:Hv.
    2: { apply nth_error_None in Hv. lia. }
    destruct (IH (S i)) as (es & Hes & Hl & Hnth); [lia |].
    rewrite Hes. exists (newEmbedding o doc v :: es).
    split; [reflexivity |]. split; [simpl; lia |].
    intros [| k] d Hd; simpl in Hd.
    + inversion Hd; subst. exists v. rewrite Nat.add_0_r. auto.
    + destruct (Hnth k d Hd) as (v' & Hv' & He).
      exists v'. rewrite Nat.add_succ_r. auto.
Qed.

(** C7.  When the vectorizer answers with as many vectors as there are
    documents, [generateEmbeddings] on a non-empty list returns (it
    neither fails nor panics on [result.Embeddings[i]]), after one embed
    request for the contents in order; the result has one embedding per
    document, and the embedding at index [i] carries the identifier,
    metadata, repository and path of document [i] and the vector at
    index [i] of the answer. *)
Theorem generateEmbeddings_one_per_document :
  forall (o : Orchestrator.t) (documents : list Document.t)
         (vectors : list (list float32)),
    documents <> [] ->
    embed (services o) (map Document.Content documents) = Ok vectors ->
    List.length vectors = List.length documents ->
    exists embeddings,
      generateEmbeddings o documents
      = (Returns (Ok embeddings), [PostEmbed (map Document.Content documents)])
      /\ List.length embeddings = List.length documents
      /\ (forall i doc,
            nth_error documents i = Some doc ->
            exists e v,
              nth_error embeddings i = Some e
              /\ nth_error vectors i = Some v
              /\ Embedding.ID e = Document.ID doc
              /\ Embedding.Vector e = v
              /\ Embedding.Metadata e = Document.Metadata doc
              /\ Embedding.Repository e = Document.Repository doc
              /\ Embedding.FilePath e = Document.FilePath doc).
Proof.
  intros o documents vectors Hne Hembed Hlen.
  destruct (embeddingsFrom_total o documents vectors 0) as (es & Hes & Hl & Hnth);
    [lia |].
  exists es. split; [| split; [exact Hl |]].
  - unfold generateEmbeddings.
    destruct (lenL documents =? 0) eqn:Hz.
    + apply Z.eqb_eq in Hz. destruct documents; [congruence |].
      unfold lenL in Hz. simpl in Hz. lia.
    + rewrite Hembed, Hes. reflexivity.
  - intros i doc Hd. destruct (Hnth i doc Hd) as (v & Hv & He).
    exists (newEmbedding o doc v), v. simpl in Hv. repeat split; assumption.
Qed.

Lemma generateEmbeddings_one_per_document_witness :
  let o := Example.orchestrator [] in
  let documents :=
    match Example.chunker Example.fileA with Ok ds => ds | Err _ => [] end in
  documents <> []
  /\ exists embeddings,
      generateEmbeddings o documents
      = (Returns (Ok embeddings), [PostEmbed (map Document.Content documents)])
      /\ List.length embeddings = List.length documents
      /\ (forall i doc,
            nth_error documents i = Some doc ->
            exists e v,
              nth_error embeddings i = Some e
              /\ nth_error [[1; 2]] i = Some v
              /\ Embedding.ID e = Document.ID doc
              /\ Embedding.Vector e = v
              /\ Embedding.Metadata e = Document.Metadata doc
              /\ Embedding.Repository e = Document.Repository doc
              /\ Embedding.FilePath e = Document.FilePath doc).
Proof.
  intros o documents. split.
  - vm_compute. discriminate.
  - apply (generateEmbeddings_one_per_document o documents [[1; 2]]).
    + vm_compute. discriminate.
    + vm_compute. reflexivity.
    + vm_compute. reflexivity.
Defined.

End Computations.

(** ** Chunk identifiers *)
Section ChunkIdentity.
Import DocumentProcessor.

Variable md5hex : string -> string.

Lemma documentsFrom_nth fc total i chunks k d :
  nth_error (documentsFrom md5hex fc total i chunks) k = Some d ->
  exists chunk,
    nth_error chunks k = Some chunk
    /\ d = newDocument md5hex fc total (i + Z.of_nat k) chunk.
Proof.
  revert i k. induction chunks as [| c rest IH]; intros i k H.
  - destruct k; discriminate.
  - destruct k as [| k]; cbn [documentsFrom nth_error] in *.
    + inversion H; subst. exists c. rewrite Z.add_0_r. auto.
    + destruct (IH _ _ H) as (chunk & Hc & ->).
      exists chunk. split; [exact Hc |]. f_equal. lia.
Qed.

(** The identifiers, ordinals and counts of the documents made from a
    list of chunks depend on the repository, the path and the number of
    chunks only. *)
Lemma documentsFrom_identity fc1 fc2 total i chunks :
  FileChange.Repository fc1 = FileChange.Repository fc2 ->
  FileChange.FilePath fc1 = FileChange.FilePath fc2 ->
  map Document.ID (documentsFrom md5hex fc1 total i chunks)
  = map Document.ID (documentsFrom md5hex fc2 total i chunks)
  /\ map Document.ChunkIndex (documentsFrom md5hex fc1 total i chunks)
     = map Document.ChunkIndex (documentsFrom md5hex fc2 total i chunks)
  /\ map Document.TotalChunks (documentsFrom md5hex fc1 total i chunks)
     = map Document.TotalChunks (documentsFrom md5hex fc2 total i chunks).
Proof.
  intros Hr Hp. revert i.
  induction chunks as [| c rest IH]; intros i; cbn [documentsFrom map].
  - repeat split.
  - destruct (IH (i + 1)) as (H1 & H2 & H3).
    rewrite H1, H2, H3. cbn [newDocument Document.ID Document.ChunkIndex
                               Document.TotalChunks].
    rewrite Hr, Hp. repeat split.
Qed.

(** The result of the loop does not depend on the fuel it was given. *)
Lemma splitLoop_fuel (fuel1 fuel2 : nat) text maxSize overlap start chunks c1 c2 :
  splitLoop fuel1 text maxSize overlap start chunks = Returns c1 ->
  splitLoop fuel2 text maxSize overlap start chunks = Returns c2 ->
  c1 = c2.
Proof.
  revert fuel2 start chunks.
  induction fuel1 as [| fuel1 IH]; intros fuel2 start chunks H1 H2.
  - cbn [splitLoop] in H1.
    destruct (start <? len text) eqn:Hlt; [discriminate |].
    destruct fuel2; cbn [splitLoop] in H2; rewrite Hlt in H2; congruence.
  - cbn [splitLoop] in H1.
    destruct (start <? len text) eqn:Hlt.
    + destruct fuel2; cbn [splitLoop] in H2; rewrite Hlt in H2;
        [discriminate |].
      destruct (splitStep text maxSize overlap start) as [[[chunk |] next] |];
        [eapply IH; eassumption | eapply IH; eassumption | discriminate].
    + destruct fuel2; cbn [splitLoop] in H2; rewrite Hlt in H2; congruence.
Qed.

(** What [ChunkDocument] returns is made of the chunks of the cleaned
    content. *)
Lemma ChunkDocument_inv fuel fc maxSize overlap docs :
  ChunkDocument md5hex fuel fc maxSize overlap = Returns docs ->
  exists chunks,
    docs = documentsFrom md5hex fc (Z.of_nat (List.length chunks)) 0 chunks
    /\ (let content := CleanContent (FileChange.Content fc) in
        if len content =? 0 then chunks = []
        else if len content <=? maxSize then chunks = [content]
        else splitIntoChunks fuel content maxSize overlap = Returns chunks).
Proof.
  unfold ChunkDocument. cbv zeta.
  destruct (len (CleanContent (FileChange.Content fc)) =? 0).
  - intros H. inversion H. exists []. split; reflexivity.
  - destruct (len (CleanContent (FileChange.Content fc)) <=? maxSize).
    + intros H. inversion H.
      exists [CleanContent (FileChange.Content fc)]. split; reflexivity.
    + destruct (splitIntoChunks _ _ _ _) as [chunks | |]; try discriminate.
      intros H. inversion H. exists chunks. split; reflexivity.
Qed.

(** C6.  The identifier of the chunk at ordinal [k] is the digest of
    repository, path and [k]: two change records with the same repository
    and path get the same identifier at every ordinal both have, whatever
    their contents; and when the contents are the same too (other fields,
    such as the commit or the time, may differ) the identifiers, the
    ordinals and the counts are the same lists. *)
Theorem chunk_identifiers_stable :
  forall (fuel1 fuel2 : nat) (fc1 fc2 : FileChange.t) (maxSize overlap : Z)
         (docs1 docs2 : list Document.t),
    FileChange.Repository fc1 = FileChange.Repository fc2 ->
    FileChange.FilePath fc1 = FileChange.FilePath fc2 ->
    ChunkDocument md5hex fuel1 fc1 maxSize overlap = Returns docs1 ->
    ChunkDocument md5hex fuel2 fc2 maxSize overlap = Returns docs2 ->
    (forall k d1 d2,
        nth_error docs1 k = Some d1 ->
        nth_error docs2 k = Some d2 ->
        Document.ID d1
        = docID md5hex (FileChange.Repository fc1) (FileChange.FilePath fc1)
                (Z.of_nat k)
        /\ Document.ID d2 = Document.ID d1
        /\ Document.ChunkIndex d1 = Z.of_nat k
        /\ Document.ChunkIndex d2 = Z.of_nat k)
    /\ (FileChange.Content fc1 = FileChange.Content fc2 ->
        map Document.ID docs1 = map Document.ID docs2
        /\ map Document.ChunkIndex docs1 = map Document.ChunkIndex docs2
        /\ map Document.TotalChunks docs1 = map Document.TotalChunks docs2).
Proof.
  intros fuel1 fuel2 fc1 fc2 maxSize overlap docs1 docs2 Hr Hp H1 H2.
  apply ChunkDocument_inv in H1 as (chunks1 & -> & Hc1).
  apply ChunkDocument_inv in H2 as (chunks2 & -> & Hc2).
  split.
  - intros k d1 d2 Hd1 Hd2.
    apply documentsFrom_nth in Hd1 as (c1 & _ & ->).
    apply documentsFrom_nth in Hd2 as (c2 & _ & ->).
    cbn [newDocument Document.ID Document.ChunkIndex].
    rewrite Hr, Hp. repeat split.
  - intros Hcontent. cbv zeta in Hc1, Hc2. rewrite <- Hcontent in Hc2.
    assert (chunks1 = chunks2) as <-.
    { destruct (len (CleanContent (FileChange.Content fc1)) =? 0);
        [congruence |].
      destruct (len (CleanContent (FileChange.Content fc1)) <=? maxSize);
        [congruence |].
      unfold splitIntoChunks in *. eapply splitLoop_fuel; eassumption. }
    apply documentsFrom_identity; assumption.
Qed.

(** A change record whose cleaned content is longer than the chunk size
    is split, and with a positive overlap the split never returns. *)
Lemma ChunkDocument_positive_overlap (fc : FileChange.t) (maxSize overlap : Z) :
  0 < maxSize < 2 ^ 62 -> 0 < overlap < 2 ^ 62 ->
  maxSize < len (CleanContent (FileChange.Content fc)) < 2 ^ 62 ->
  forall fuel : nat,
    ChunkDocument md5hex fuel fc maxSize overlap = OutOfFuel.
Proof.
  intros Hm Ho Hc fuel. unfold ChunkDocument. cbv zeta.
  replace (len (CleanContent (FileChange.Content fc)) =? 0) with false
    by (symmetry; apply Z.eqb_neq; lia).
  replace (len (CleanContent (FileChange.Content fc)) <=? maxSize) with false
    by (symmetry; apply Z.leb_gt; lia).
  rewrite splitIntoChunks_positive_overlap by lia. reflexivity.
Qed.

(** So it is with the documented defaults (chunks of 1000 bytes, overlap
    of 200) for every file of more than 1000 cleaned bytes. *)
Lemma handleChunk_defaults (fc : FileChange.t) :
  1000 < len (CleanContent (FileChange.Content fc)) < 2 ^ 62 ->
  forall fuel : nat,
    handleChunk md5hex (NewDocumentProcessor 1000 200) fuel fc 0 0 = OutOfFuel.
Proof.
  intros Hc fuel. unfold handleChunk. cbn.
  apply ChunkDocument_positive_overlap; lia.
Qed.

End ChunkIdentity.

Lemma chunk_identifiers_stable_witness :
  let fc1 := Example.file "notes.md" "abcde" "added" in
  let fc2 := {| FileChange.Repository := "acme/docs";
                FileChange.FilePath := "notes.md";
                FileChange.Content := "abcde";
                FileChange.CommitSHA := "c2";
                FileChange.LastModified := 86400;
                FileChange.ChangeType := "modified";
                FileChange.Size := 5 |} in
  let docs1 :=
    match DocumentProcessor.ChunkDocument Example.digest 3 fc1 4 0 with
    | Returns docs => docs
    | _ => []
    end in
  let docs2 :=
    match DocumentProcessor.ChunkDocument Example.digest 5 fc2 4 0 with
    | Returns docs => docs
    | _ => []
    end in
  map Document.Content docs1 = ["abcd"; "e"]
  /\ map Document.ID docs1 = ["acme/docs-notes.md-0"; "acme/docs-notes.md-1"]
  /\ (map Document.ID docs1 = map Document.ID docs2
      /\ map Document.ChunkIndex docs1 = map Document.ChunkIndex docs2
      /\ map Document.TotalChunks docs1 = map Document.TotalChunks docs2).
Proof.
  intros fc1 fc2 docs1 docs2.
  split; [vm_compute; reflexivity |].
  split; [vm_compute; reflexivity |].
  apply (proj2 (chunk_identifiers_stable Example.digest 3 5 fc1 fc2 4 0
                  docs1 docs2 eq_refl eq_refl
                  ltac:(vm_compute; reflexivity)
                  ltac:(vm_compute; reflexivity))).
  reflexivity.
Defined.

(** * Further properties *)

(** ** Strings *)
Section StringFacts.

Lemma prefix_app (a s : string) :
  prefix a s = true <-> exists post, s = (a ++ post)%string.
Proof.
  revert s. induction a as [| c a IH]; intros s.
  - split; [intros _; exists s; reflexivity | intros _; destruct s; reflexivity].
  - destruct s as [| d s]; simpl.
    + split; [discriminate | intros (post & H); discriminate].
    + destruct (Ascii.ascii_dec c d) as [-> | Hne].
      * rewrite IH. split; intros (post & H); exists post.
        -- rewrite H. reflexivity.
        -- inversion H. reflexivity.
      * split; [discriminate |].
        intros (post & H). inversion H. congruence.
Qed.

Lemma substring_app_tail (pre ext : string) :
  substring (String.length pre) (String.length ext) (pre ++ ext) = ext.
Proof.
  induction pre as [| c pre IH]; simpl.
  - induction ext as [| d ext IHe]; simpl; [reflexivity |].
    f_equal. exact IHe.
  - exact IH.
Qed.

Lemma substring_full (s : string) : substring 0 (String.length s) s = s.
Proof. induction s as [| c s IH]; simpl; [reflexivity | rewrite IH; reflexivity]. Qed.

Lemma substring_split (s : string) (n m : nat) :
  (n + m = String.length s)%nat ->
  s = (substring 0 n s ++ substring n m s)%string.
Proof.
  revert n m. induction s as [| c s IH]; intros n m H; simpl in H.
  - assert (n = 0%nat) by lia. assert (m = 0%nat) by lia. subst. reflexivity.
  - destruct n as [| n].
    + simpl in H. subst m. simpl. f_equal.
      symmetry. apply substring_full.
    + simpl. f_equal. apply IH. lia.
Qed.

Lemma length_append (a b : string) :
  String.length (a ++ b) = (String.length a + String.length b)%nat.
Proof. induction a as [| c a IH]; simpl; [reflexivity | rewrite IH; reflexivity]. Qed.

(** The extension test of [filterFiles] is the suffix test. *)
Lemma endsWith_app (p ext : string) :
  Orchestrator.endsWith p ext = true <-> exists pre, p = (pre ++ ext)%string.
Proof.
  unfold Orchestrator.endsWith, slice, len. split.
  - intros H. apply andb_true_iff in H as [Hge H].
    apply Z.geb_le in Hge.
    assert (Hc : (0 <=? Z.of_nat (String.length p) - Z.of_nat (String.length ext))
                 && (Z.of_nat (String.length p) - Z.of_nat (String.length ext)
                     <=? Z.of_nat (String.length p))
                 && (Z.of_nat (String.length p) <=? Z.of_nat (String.length p))
                 = true).
    { rewrite !andb_true_iff, !Z.leb_le. lia. }
    rewrite Hc in H. apply String.eqb_eq in H.
    replace (Z.to_nat (Z.of_nat (String.length p)
                       - (Z.of_nat (String.length p)
                          - Z.of_nat (String.length ext))))
      with (String.length ext) in H by lia.
    replace (Z.to_nat (Z.of_nat (String.length p) - Z.of_nat (String.length ext)))
      with (String.length p - String.length ext)%nat in H by lia.
    remember (String.length ext) as m eqn:Hm.
    remember (String.length p - m)%nat as n eqn:Hn.
    exists (substring 0 n p). rewrite <- H.
    apply substring_split. lia.
  - intros (pre & ->). rewrite length_append.
    assert (Hge : (Z.of_nat (String.length pre + String.length ext)
                   >=? Z.of_nat (String.length ext)) = true).
    { apply Z.geb_le. lia. }
    rewrite Hge. cbn [andb].
    assert (Hc : (0 <=? Z.of_nat (String.length pre + String.length ext)
                        - Z.of_nat (String.length ext))
                 && (Z.of_nat (String.length pre + String.length ext)
                     - Z.of_nat (String.length ext)
                     <=? Z.of_nat (String.length pre + String.length ext))
                 && (Z.of_nat (String.length pre + String.length ext)
                     <=? Z.of_nat (String.length pre + String.length ext))
                 = true).
    { rewrite !andb_true_iff, !Z.leb_le. lia. }
    rewrite Hc.
    replace (Z.to_nat (Z.of_nat (String.length pre + String.length ext)
                       - Z.of_nat (String.length ext)))
      with (String.length pre) by lia.
    replace (Z.to_nat (Z.of_nat (String.length pre + String.length ext)
                       - (Z.of_nat (String.length pre + String.length ext)
                          - Z.of_nat (String.length ext))))
      with (String.length ext) by lia.
    rewrite substring_app_tail. apply String.eqb_refl.
Qed.

Lemma existsb_endsWith (p : string) (exts : list string) :
  existsb (Orchestrator.endsWith p) exts = true <->
  exists ext pre, In ext exts /\ p = (pre ++ ext)%string.
Proof.
  rewrite existsb_exists. split.
  - intros (ext & Hin & H). apply endsWith_app in H as (pre & ->). eauto.
  - intros (ext & pre & Hin & ->). exists ext. split; [exact Hin |].
    apply endsWith_app. eauto.
Qed.

Lemma existsb_contains_false (p : string) (pats : list string) :
  existsb (Orchestrator.contains p) pats = false <->
  forall pat post, In pat pats -> p <> (pat ++ post)%string.
Proof.
  split.
  - intros H pat post Hin ->.
    assert (existsb (Orchestrator.contains (pat ++ post)) pats = true);
      [| congruence].
    apply existsb_exists. exists pat. split; [exact Hin |].
    rewrite contains_is_prefix. apply prefix_app. eauto.
  - intros H. destruct (existsb _ pats) eqn:E; [| reflexivity].
    apply existsb_exists in E as (pat & Hin & Hc).
    rewrite contains_is_prefix in Hc. apply prefix_app in Hc as (post & ->).
    elim (H pat post Hin eq_refl).
Qed.

(** A prefix is a substring. *)
Lemma prefix_Contains (s sub : string) :
  prefix sub s = true -> Contains s sub = true.
Proof. intros H. destruct s; simpl in *; rewrite H; reflexivity. Qed.

(** [filepath.Ext] returns a suffix of the path. *)
Lemma Ext_from_suffix (path cand : string) :
  Ext_from path cand = cand
  \/ exists pre, path = (pre ++ Ext_from path cand)%string.
Proof.
  revert cand. induction path as [| c rest IH]; intros cand.
  - left. reflexivity.
  - cbn [Ext_from].
    destruct (Ascii.eqb c "/"%char).
    + destruct (IH EmptyString) as [-> | (pre & H)].
      * right. exists (String c rest). symmetry.
        clear. induction (String c rest) as [| d s IHs]; simpl;
          [reflexivity | rewrite IHs; reflexivity].
      * right. exists (String c pre). simpl. rewrite <- H. reflexivity.
    + destruct (Ascii.eqb c "."%char).
      * destruct (IH (String c rest)) as [-> | (pre & H)].
        -- right. exists EmptyString. reflexivity.
        -- right. exists (String c pre). simpl. rewrite <- H. reflexivity.
      * destruct (IH cand) as [-> | (pre & H)].
        -- left. reflexivity.
        -- right. exists (String c pre). simpl. rewrite <- H. reflexivity.
Qed.

Lemma Ext_suffix (path : string) :
  exists pre, path = (pre ++ Ext path)%string.
Proof.
  unfold Ext. destruct (Ext_from_suffix path EmptyString) as [-> | H].
  - exists path. clear. induction path as [| c s IH]; simpl;
      [reflexivity | rewrite <- IH; reflexivity].
  - exact H.
Qed.

End StringFacts.

(** ** More on the two filters *)
Section FilterFacts.
Import Orchestrator DocumentProcessor.

(** X1.  [filterFiles] keeps a file exactly when its path ends with one of
    the allowed extensions and starts with none of the exclude patterns;
    neither the change type nor the content is looked at. *)
Theorem filterFiles_suffix_prefix :
  forall (o : Orchestrator.t) (files : list FileChange.t) (f : FileChange.t),
    In f (filterFiles o files) <->
    In f files
    /\ (exists ext pre,
           In ext (AllowedExtensions (Processing (config o)))
           /\ FileChange.FilePath f = (pre ++ ext)%string)
    /\ (forall pat post,
           In pat (ExcludePatterns (Processing (config o))) ->
           FileChange.FilePath f <> (pat ++ post)%string).
Proof.
  intros o files f.
  rewrite filterFiles_In, existsb_endsWith, existsb_contains_false.
  reflexivity.
Qed.

(** X2.  An empty exclude pattern excludes every file: with the empty
    string among the exclude patterns [filterFiles] returns nothing. *)
Theorem filterFiles_empty_pattern :
  forall (o : Orchestrator.t) (files : list FileChange.t),
    In "" (ExcludePatterns (Processing (config o))) ->
    filterFiles o files = [].
Proof.
  intros o files Hin.
  destruct (filterFiles o files) as [| f rest] eqn:E; [reflexivity |].
  assert (Hf : In f (filterFiles o files)) by (rewrite E; left; reflexivity).
  apply filterFiles_In in Hf as (_ & _ & Hx).
  rewrite existsb_contains_false in Hx.
  elim (Hx "" (FileChange.FilePath f) Hin). reflexivity.
Qed.

Lemma filterFiles_empty_pattern_witness :
  let o := {| config :=
                {| GitHub := GitHub Example.cfg;
                   Processing := {| AllowedExtensions := [".md"];
                                    ExcludePatterns := ["dist"; ""];
                                    MaxWorkers := 2 |} |};
              services := Example.peers [] |} in
  In "" (ExcludePatterns (Processing (config o)))
  /\ filterFiles o [Example.fileA; Example.fileB] = [].
Proof.
  intros o. split.
  - right. left. reflexivity.
  - apply (filterFiles_empty_pattern o). right. left. reflexivity.
Defined.

(** X3.  With a non-empty allow-list [ValidateDocument] is the stricter
    filter: every change record it accepts is kept by [filterFiles] under
    the same lists (the extension of a path is a suffix of it, and a
    pattern at the start of a path occurs in it). *)
Theorem ValidateDocument_implies_filterFiles :
  forall (o : Orchestrator.t) (fc : FileChange.t),
    AllowedExtensions (Processing (config o)) <> [] ->
    ValidateDocument fc (AllowedExtensions (Processing (config o)))
                        (ExcludePatterns (Processing (config o))) = true ->
    filterFiles o [fc] = [fc].
Proof.
  intros o fc Hne Hv. unfold ValidateDocument in Hv.
  set (exts := AllowedExtensions (Processing (config o))) in *.
  set (pats := ExcludePatterns (Processing (config o))) in *.
  assert (Hlen : (Z.of_nat (List.length exts) >? 0) = true).
  { destruct exts; [congruence |]. reflexivity. }
  rewrite Hlen in Hv. cbn [andb] in Hv.
  destruct (existsb (fun allowed => String.eqb (Ext (FileChange.FilePath fc)) allowed)
                    exts) eqn:Hext; [| discriminate].
  cbn [negb] in Hv.
  destruct (existsb (fun pattern => Contains (FileChange.FilePath fc) pattern)
                    pats) eqn:Hpat; [discriminate |].
  assert (Hin : In fc (filterFiles o [fc])).
  { apply filterFiles_In. split; [left; reflexivity |]. split.
    - apply existsb_exists in Hext as (ext & Hin & Heq).
      apply String.eqb_eq in Heq. apply existsb_exists. exists ext.
      split; [exact Hin |]. apply endsWith_app. rewrite <- Heq.
      apply Ext_suffix.
    - change (existsb (contains (FileChange.FilePath fc)) pats = false).
      destruct (existsb (contains (FileChange.FilePath fc)) pats) eqn:E;
        [| reflexivity].
      apply existsb_exists in E as (pat & Hin & Hc).
      rewrite contains_is_prefix in Hc. apply prefix_Contains in Hc.
      assert (existsb (fun pattern => Contains (FileChange.FilePath fc) pattern)
                      pats = true); [| congruence].
      apply existsb_exists. exists pat. auto. }
  cbn [filterFiles] in *.
  destruct (negb _); [destruct Hin |].
  destruct (negb _); [reflexivity | destruct Hin].
Qed.

Lemma ValidateDocument_implies_filterFiles_witness :
  let o := Example.orchestrator [] in
  AllowedExtensions (Processing (config o)) <> []
  /\ ValidateDocument Example.fileA (AllowedExtensions (Processing (config o)))
                      (ExcludePatterns (Processing (config o))) = true
  /\ filterFiles o [Example.fileA] = [Example.fileA].
Proof.
  intros o. split; [discriminate |]. split; [reflexivity |].
  apply (ValidateDocument_implies_filterFiles o Example.fileA).
  - discriminate.
  - reflexivity.
Defined.

End FilterFacts.

(** ** Batches *)
Section Batching.
Import Orchestrator.

Lemma bind_ret_l {A B : Type} (a : A) (k : A -> M B) : bind (ret a) k = k a.
Proof. unfold bind, ret. destruct (k a). reflexivity. Qed.



Lemma wrap_add_l (a b : Z) : GoInt.wrap (GoInt.wrap a + b) = GoInt.wrap (a + b).
Proof.
  unfold GoInt.wrap.
  replace ((a + 2 ^ 63) mod 2 ^ 64 - 2 ^ 63 + b + 2 ^ 63)
    with ((a + 2 ^ 63) mod 2 ^ 64 + b) by lia.
  rewrite Zplus_mod_idemp_l. do 2 f_equal. lia.
Qed.

Lemma wrap_add_r (a b : Z) : GoInt.wrap (a + GoInt.wrap b) = GoInt.wrap (a + b).
Proof. rewrite Z.add_comm, wrap_add_l, Z.add_comm. reflexivity. Qed.

Lemma wrap_wrap (a : Z) : GoInt.wrap (GoInt.wrap a) = GoInt.wrap a.
Proof.
  pose proof (wrap_add_l a 0) as H. rewrite !Z.add_0_r in H. exact H.
Qed.

Lemma add_assoc (a b c : Z) :
  GoInt.add (GoInt.add a b) c = GoInt.add a (GoInt.add b c).
Proof.
  unfold GoInt.add. rewrite wrap_add_l, wrap_add_r. f_equal. lia.
Qed.

Variable o : Orchestrator.t.







End Batching.



(** ** A worker count that is not positive *)
Section WorkerCount.
Import Orchestrator.

Variable o : Orchestrator.t.

Lemma processFilesFrom_no_worker fuel files acc t :
  MaxWorkers (Processing (config o)) = 0 ->
  files <> [] ->
  processFilesFrom o fuel files 0 acc t = (OutOfFuel, []).
Proof.
  intros Hw Hne. revert acc t.
  assert (Hlt : (0 <? lenL files) = true).
  { apply Z.ltb_lt. destruct files; [congruence |]. unfold lenL. simpl. lia. }
  assert (Hgt : (0 >? lenL files) = false).
  { rewrite Z.gtb_ltb. apply Z.ltb_ge. unfold lenL. lia. }
  assert (Hslice : sliceList files 0 0 = Some []).
  { unfold sliceList.
    replace ((0 <=? 0) && (0 <=? 0) && (0 <=? lenL files)) with true.
    - reflexivity.
    - symmetry. rewrite !andb_true_iff, !Z.leb_le. unfold lenL. lia. }
  induction fuel as [| fuel IH]; intros acc t; cbn [processFilesFrom];
    rewrite Hlt.
  - reflexivity.
  - rewrite Hw. change (GoInt.add 0 0) with 0. rewrite Hgt, Hslice.
    unfold processBatch. cbn [processBatchFrom].
    rewrite bind_ret_l. apply IH.
Qed.

Lemma processFilesFrom_negative_workers fuel files acc t :
  - 2 ^ 62 < MaxWorkers (Processing (config o)) < 0 ->
  files <> [] ->
  processFilesFrom o (S fuel) files 0 acc t = (Panics, []).
Proof.
  intros Hw Hne. cbn [processFilesFrom].
  assert (Hlt : (0 <? lenL files) = true).
  { apply Z.ltb_lt. destruct files; [congruence |]. unfold lenL. simpl. lia. }
  rewrite Hlt. set (w := MaxWorkers (Processing (config o))) in *.
  assert (Hadd : GoInt.add 0 w = w).
  { unfold GoInt.add. apply wrap_small. lia. }
  rewrite Hadd.
  assert (Hgt : (w >? lenL files) = false).
  { rewrite Z.gtb_ltb. apply Z.ltb_ge. unfold lenL. lia. }
  rewrite Hgt. unfold sliceList.
  replace (0 <=? w) with false by (symmetry; apply Z.leb_gt; lia).
  reflexivity.
Qed.

Lemma flat_map_none {A B : Type} (f : A -> list B) (l : list A) :
  Forall (fun e => f e = []) l -> flat_map f l = [].
Proof.
  induction 1 as [| e l He _ IH]; cbn [flat_map].
  - reflexivity.
  - rewrite He, IH. reflexivity.
Qed.

(** A run whose [processFiles] does not return stops there, with the
    effects of the first two steps only. *)
Lemma SyncProject_stops_in_processFiles fuel projectID incremental repos
                                        (panics : bool) :
  repositories (services o) (Organization (GitHub (config o)))
               (FilterKeyword (GitHub (config o))) = Ok repos ->
  processFiles o fuel
    (filterFiles o (changedFilesOf o projectID incremental repos))
  = (if panics then Panics else OutOfFuel, []) ->
  exists l,
    snd (SyncProject o fuel projectID incremental) = l
    /\ fst (SyncProject o fuel projectID incremental)
       = (if panics then Panics else OutOfFuel)
    /\ notified l = [] /\ saved l = [] /\ upserted l = [] /\ chunked l = [].
Proof.
  intros Hrepos Hp. unfold SyncProject, discoverRepositories.
  cbn [bind emit ret app]. rewrite Hrepos.
  destruct (collectChanges_closed o projectID incremental repos
              (setScanned (newResult projectID) (lenL repos)) [])
    as (res1 & lc & Hc & _).
  assert (Hn : notified lc = []).
  { apply flat_map_none. refine (every_effects _ _ _ _ _ Hc).
    apply every_collectChanges; intros; reflexivity. }
  assert (Hs : saved lc = []).
  { apply flat_map_none. refine (every_effects _ _ _ _ _ Hc).
    apply every_collectChanges; intros; reflexivity. }
  assert (Hu : upserted lc = []).
  { apply flat_map_none. refine (every_effects _ _ _ _ _ Hc).
    apply every_collectChanges; intros; reflexivity. }
  assert (Hk : chunked lc = []).
  { apply flat_map_none. refine (every_effects _ _ _ _ _ Hc).
    apply every_collectChanges; intros; reflexivity. }
  rewrite Hc. cbn [app bind]. rewrite Hp.
  destruct panics; cbn [bind fst snd app]; rewrite app_nil_r;
    (eexists; split; [reflexivity |]); (split; [reflexivity |]);
    unfold notified, saved, upserted, chunked in *;
    cbn [flat_map notifiedOf savedOf upsertedOf chunkedOf app];
    auto.
Qed.

End WorkerCount.

(** X5.  With [MaxWorkers = 0] the batch loop never advances: a run that
    has at least one valid file never returns, whatever the fuel, and it
    has posted nothing to the chunker, the index, the metadata store or
    the notifier. *)
Theorem SyncProject_zero_workers_never_returns :
  forall (o : Orchestrator.t) (projectID : string) (incremental : bool)
         (repos : list Repository.t),
    Orchestrator.MaxWorkers (Orchestrator.Processing (Orchestrator.config o)) = 0 ->
    Orchestrator.repositories (Orchestrator.services o)
      (Orchestrator.Organization (Orchestrator.GitHub (Orchestrator.config o)))
      (Orchestrator.FilterKeyword (Orchestrator.GitHub (Orchestrator.config o)))
    = Orchestrator.Ok repos ->
    Orchestrator.filterFiles o
      (Orchestrator.changedFilesOf o projectID incremental repos) <> [] ->
    forall fuel : nat,
      fst (Orchestrator.SyncProject o fuel projectID incremental) = OutOfFuel
      /\ Orchestrator.notified
           (snd (Orchestrator.SyncProject o fuel projectID incremental)) = []
      /\ Orchestrator.saved
           (snd (Orchestrator.SyncProject o fuel projectID incremental)) = []
      /\ Orchestrator.upserted
           (snd (Orchestrator.SyncProject o fuel projectID incremental)) = []
      /\ Orchestrator.chunked
           (snd (Orchestrator.SyncProject o fuel projectID incremental)) = [].
Proof.
  intros o projectID incremental repos Hw Hrepos Hne fuel.
  destruct (SyncProject_stops_in_processFiles o fuel projectID incremental
              repos false Hrepos) as (l & <- & Hf & Hn & Hs & Hu & Hc).
  - unfold Orchestrator.processFiles.
    apply processFilesFrom_no_worker; assumption.
  - repeat split; assumption.
Qed.

Lemma SyncProject_zero_workers_never_returns_witness :
  let o := {| Orchestrator.config :=
                {| Orchestrator.GitHub := Orchestrator.GitHub Example.cfg;
                   Orchestrator.Processing :=
                     {| Orchestrator.AllowedExtensions := [".md"];
                        Orchestrator.ExcludePatterns := [];
                        Orchestrator.MaxWorkers := 0 |} |};
              Orchestrator.services := Example.peers [Example.fileA] |} in
  fst (Orchestrator.SyncProject o 50 "p" false) = OutOfFuel
  /\ Orchestrator.notified (snd (Orchestrator.SyncProject o 50 "p" false)) = []
  /\ Orchestrator.saved (snd (Orchestrator.SyncProject o 50 "p" false)) = []
  /\ Orchestrator.upserted (snd (Orchestrator.SyncProject o 50 "p" false)) = []
  /\ Orchestrator.chunked (snd (Orchestrator.SyncProject o 50 "p" false)) = [].
Proof.
  intros o.
  apply (SyncProject_zero_workers_never_returns o "p" false [Example.repo]).
  - reflexivity.
  - reflexivity.
  - vm_compute. discriminate.
Defined.

(** X6.  With a negative [MaxWorkers] the first batch is the slice
    [files[0:MaxWorkers]]: a run that has at least one valid file panics
    there (slice bounds out of range), before anything is posted to the
    chunker, the index, the metadata store or the notifier. *)
Theorem SyncProject_negative_workers_panics :
  forall (o : Orchestrator.t) (projectID : string) (incremental : bool)
         (repos : list Repository.t),
    - 2 ^ 62
      < Orchestrator.MaxWorkers (Orchestrator.Processing (Orchestrator.config o))
      < 0 ->
    Orchestrator.repositories (Orchestrator.services o)
      (Orchestrator.Organization (Orchestrator.GitHub (Orchestrator.config o)))
      (Orchestrator.FilterKeyword (Orchestrator.GitHub (Orchestrator.config o)))
    = Orchestrator.Ok repos ->
    Orchestrator.filterFiles o
      (Orchestrator.changedFilesOf o projectID incremental repos) <> [] ->
    forall fuel : nat,
      fst (Orchestrator.SyncProject o (S fuel) projectID incremental) = Panics
      /\ Orchestrator.notified
           (snd (Orchestrator.SyncProject o (S fuel) projectID incremental)) = []
      /\ Orchestrator.saved
           (snd (Orchestrator.SyncProject o (S fuel) projectID incremental)) = []
      /\ Orchestrator.upserted
           (snd (Orchestrator.SyncProject o (S fuel) projectID incremental)) = []
      /\ Orchestrator.chunked
           (snd (Orchestrator.SyncProject o (S fuel) projectID incremental)) = [].
Proof.
  intros o projectID incremental repos Hw Hrepos Hne fuel.
  destruct (SyncProject_stops_in_processFiles o (S fuel) projectID incremental
              repos true Hrepos) as (l & <- & Hf & Hn & Hs & Hu & Hc).
  - unfold Orchestrator.processFiles.
    apply processFilesFrom_negative_workers; assumption.
  - repeat split; assumption.
Qed.

Lemma SyncProject_negative_workers_panics_witness :
  let o := {| Orchestrator.config :=
                {| Orchestrator.GitHub := Orchestrator.GitHub Example.cfg;
                   Orchestrator.Processing :=
                     {| Orchestrator.AllowedExtensions := [".md"];
                        Orchestrator.ExcludePatterns := [];
                        Orchestrator.MaxWorkers := -1 |} |};
              Orchestrator.services := Example.peers [Example.fileA] |} in
  fst (Orchestrator.SyncProject o 1 "p" false) = Panics
  /\ Orchestrator.notified (snd (Orchestrator.SyncProject o 1 "p" false)) = []
  /\ Orchestrator.saved (snd (Orchestrator.SyncProject o 1 "p" false)) = []
  /\ Orchestrator.upserted (snd (Orchestrator.SyncProject o 1 "p" false)) = []
  /\ Orchestrator.chunked (snd (Orchestrator.SyncProject o 1 "p" false)) = [].
Proof.
  intros o.
  apply (SyncProject_negative_workers_panics o "p" false [Example.repo]).
  - vm_compute. split; reflexivity.
  - reflexivity.
  - vm_compute. discriminate.
Defined.

(** ** The shape of a run *)
Section RunShape.
Import Orchestrator.

Variable o : Orchestrator.t.

Lemma lenL_app {A : Type} (l1 l2 : list A) : lenL (l1 ++ l2) = lenL l1 + lenL l2.
Proof. unfold lenL. rewrite length_app. lia. Qed.

Lemma embeddingsFrom_shape documents vectors i es :
  embeddingsFrom o documents vectors i = Some es ->
  List.length es = List.length documents
  /\ map Embedding.ID es = map Document.ID documents
  /\ Forall (fun e => Embedding.Namespace e = Organization (GitHub (config o))) es.
Proof.
  revert i es. induction documents as [| doc rest IH]; intros i es H;
    cbn [embeddingsFrom] in H.
  - inversion H. repeat split. constructor.
  - destruct (nth_error vectors i) as [v |]; [| discriminate].
    destruct (embeddingsFrom o rest vectors (S i)) as [es' |] eqn:E;
      [| discriminate].
    inversion H; subst. destruct (IH _ _ E) as (Hl & Hid & Hns).
    cbn [List.length map]. rewrite Hl, Hid. repeat split.
    constructor; [reflexivity | exact Hns].
Qed.

(** What a worker that returns has done: one chunk request for its file,
    and as many embeddings as it counts chunks, all in the namespace of
    the organisation. *)
Lemma worker_inv f r l :
  worker o f = (Returns r, l) ->
  chunked l = [f]
  /\ match r with
     | Some (es, n) =>
         n = lenL es
         /\ Forall (fun e => Embedding.Namespace e
                             = Organization (GitHub (config o))) es
     | None => True
     end.
Proof.
  unfold worker, chunkDocument, generateEmbeddings.
  cbn [bind emit ret app].
  destruct (chunk (services o) f) as [documents | err].
  - destruct (lenL documents =? 0) eqn:Hz.
    + cbn [bind emit ret app]. intros H. inversion H; subst.
      split; [reflexivity |]. apply Z.eqb_eq in Hz. rewrite Hz.
      split; [reflexivity | constructor].
    + cbn [bind emit ret app].
      destruct (embed (services o) (map Document.Content documents))
        as [vectors | err].
      * destruct (embeddingsFrom o documents vectors 0) as [es |] eqn:Hes;
          cbn [bind emit ret panic app]; intros H; inversion H; subst.
        split; [reflexivity |].
        destruct (embeddingsFrom_shape _ _ _ _ Hes) as (Hl & _ & Hns).
        split; [unfold lenL; rewrite Hl; reflexivity | exact Hns].
      * cbn [bind emit ret app]. intros H. inversion H; subst.
        split; [reflexivity | exact I].
  - intros H. inversion H; subst. split; [reflexivity | exact I].
Qed.

Lemma chunked_app (l1 l2 : list Effect) :
  chunked (l1 ++ l2) = chunked l1 ++ chunked l2.
Proof. apply flat_map_app. Qed.

Lemma processBatchFrom_inv files acc t r l :
  GoInt.wrap t = t ->
  processBatchFrom o files acc t = (Returns r, l) ->
  exists es,
    r = Ok (acc ++ es, GoInt.wrap (t + lenL es))
    /\ Forall (fun e => Embedding.Namespace e
                        = Organization (GitHub (config o))) es
    /\ chunked l = files.
Proof.
  revert acc t l. induction files as [| f rest IH]; intros acc t l Ht H;
    cbn [processBatchFrom] in H.
  - unfold ret in H. inversion H; subst. exists [].
    rewrite app_nil_r. unfold lenL. cbn [List.length Z.of_nat].
    rewrite Z.add_0_r, Ht. repeat split. constructor.
  - apply bind_Returns in H as (w & l1 & l2 & Hw & H & ->).
    apply worker_inv in Hw as (Hc & Hw). rewrite chunked_app, Hc.
    destruct w as [[e n] |].
    + destruct Hw as (-> & Hns).
      apply IH in H as (es & -> & Hes & Hrest);
        [| unfold GoInt.add; apply wrap_wrap].
      exists (e ++ es). rewrite app_assoc, lenL_app. unfold GoInt.add.
      rewrite wrap_add_l, Z.add_assoc, Hrest.
      repeat split. apply Forall_app. auto.
    + apply IH in H as (es & -> & Hes & Hrest); [| exact Ht].
      exists es. rewrite Hrest. repeat split. exact Hes.
Qed.

Lemma processFilesFrom_inv fuel files i acc t r l :
  GoInt.wrap t = t ->
  processFilesFrom o fuel files i acc t = (Returns r, l) ->
  exists es,
    r = Ok (acc ++ es, GoInt.wrap (t + lenL es))
    /\ Forall (fun e => Embedding.Namespace e
                        = Organization (GitHub (config o))) es.
Proof.
  revert i acc t l. induction fuel as [| fuel IH]; intros i acc t l Ht H;
    cbn [processFilesFrom] in H.
  - destruct (i <? lenL files); [discriminate |].
    unfold ret in H. inversion H; subst. exists [].
    rewrite app_nil_r. unfold lenL. cbn [List.length Z.of_nat].
    rewrite Z.add_0_r, Ht. repeat split. constructor.
  - destruct (i <? lenL files).
    + destruct (sliceList _ _ _) as [batch |]; [| discriminate].
      apply bind_Returns in H as (rb & l1 & l2 & Hb & H & ->).
      apply processBatchFrom_inv in Hb as (es1 & -> & Hes1 & _);
        [| reflexivity].
      cbn [app] in H. rewrite Z.add_0_l in H.
      apply IH in H as (es2 & -> & Hes2);
        [| unfold GoInt.add; apply wrap_wrap].
      exists (es1 ++ es2). rewrite app_assoc, lenL_app. unfold GoInt.add.
      rewrite wrap_add_r, wrap_add_l, Z.add_assoc.
      repeat split. apply Forall_app. auto.
    + unfold ret in H. inversion H; subst. exists [].
      rewrite app_nil_r. unfold lenL. cbn [List.length Z.of_nat].
      rewrite Z.add_0_r, Ht. repeat split. constructor.
Qed.


End RunShape.

Section RunShape2.
Import Orchestrator.

Variable o : Orchestrator.t.

Lemma collectChanges_full projectID incremental repos res acc :
  collectChanges o projectID incremental repos res acc
  = (Returns
       (update res (SyncResult.RepositoriesScanned res)
          (SyncResult.FilesDiscovered res) (SyncResult.FilesChanged res)
          (SyncResult.FilesProcessed res) (SyncResult.ChunksCreated res)
          (SyncResult.EmbeddingsGenerated res) (SyncResult.VectorsUpserted res)
          (SyncResult.Errors res)
          (SyncResult.Warnings res ++ repoWarnings o projectID incremental repos)
          (SyncResult.Success res),
        acc ++ changedFilesOf o projectID incremental repos),
     diffRequests o projectID incremental repos).
Proof.
  revert res acc.
  induction repos as [| repo rest IH]; intros res acc.
  - cbn. rewrite !app_nil_r. destruct res; reflexivity.
  - cbn [collectChanges changedFilesOf repoWarnings diffRequests flat_map].
    fold (changedFilesOf o projectID incremental rest).
    fold (repoWarnings o projectID incremental rest).
    fold (diffRequests o projectID incremental rest).
    unfold diffOf, lastCommitOf.
    assert (Hsha :
      (if incremental
       then bind (getLastCommitSHA o projectID (Repository.FullName repo))
              (fun r => ret match r with Ok sha => sha | Err _ => "" end)
       else ret "")
      = (Returns
           (if incremental
            then match lastCommit (services o) projectID
                         (Repository.FullName repo) with
                 | Ok sha => sha
                 | Err _ => ""
                 end
            else ""),
         if incremental
         then [GetMetadata projectID (Repository.FullName repo)]
         else [])).
    { destruct incremental; reflexivity. }
    rewrite Hsha. clear Hsha.
    set (sha := if incremental then _ else _).
    cbn [bind]. unfold getChangedFiles. cbn [bind emit ret app].
    destruct (changes (services o) (Repository.FullName repo) sha)
      as [files | err].
    + rewrite IH. rewrite <- !app_assoc. reflexivity.
    + rewrite IH. cbn [addWarning update SyncResult.Warnings
                        SyncResult.RepositoriesScanned SyncResult.FilesDiscovered
                        SyncResult.FilesChanged SyncResult.FilesProcessed
                        SyncResult.ChunksCreated SyncResult.EmbeddingsGenerated
                        SyncResult.VectorsUpserted SyncResult.Errors
                        SyncResult.Success SyncResult.ProjectID
                        SyncResult.VectorsDeleted].
      rewrite <- !app_assoc. reflexivity.
Qed.

(** A run whose repository listing failed. *)
Lemma SyncProject_discovery_failure fuel projectID incremental e0 :
  repositories (services o) (Organization (GitHub (config o)))
               (FilterKeyword (GitHub (config o))) = Err e0 ->
  let msg := ("Failed to discover repositories: " ++ e0)%string in
  let res := addError (newResult projectID) msg in
  SyncProject o fuel projectID incremental
  = (Returns (res, Some e0),
     [GetRepositories (Organization (GitHub (config o)))
                      (FilterKeyword (GitHub (config o)));
      PostNotify "error" "RepoSync Failed" (FirstError msg) res]).
Proof.
  intros H. unfold SyncProject, discoverRepositories.
  cbn [bind emit ret app]. rewrite H. reflexivity.
Qed.

(** A returning run whose repository listing succeeded: one of three
    ends, each with its result and its effects in order. *)
Lemma SyncProject_shape fuel projectID incremental res err effects repos :
  SyncProject o fuel projectID incremental = (Returns (res, err), effects) ->
  repositories (services o) (Organization (GitHub (config o)))
               (FilterKeyword (GitHub (config o))) = Ok repos ->
  let valid := filterFiles o (changedFilesOf o projectID incremental repos) in
  exists es lp,
    processFiles o fuel valid
    = (Returns (Ok (es, GoInt.wrap (lenL es))), lp)
    /\ Forall (fun e => Embedding.Namespace e
                        = Organization (GitHub (config o))) es
    /\ let res2 := setProcessed (resultAfterFiltering o projectID incremental repos)
                                (GoInt.wrap (lenL es)) (lenL es) in
       let pre := GetRepositories (Organization (GitHub (config o)))
                                  (FilterKeyword (GitHub (config o)))
                  :: diffRequests o projectID incremental repos ++ lp in
       let saves := map (fun f => PostMetadata (metadataFor projectID f)) valid in
       (exists e,
           (lenL es >? 0) = true /\ upsert (services o) es = Some e
           /\ err = Some e
           /\ res = addError res2 ("Failed to upsert vectors: " ++ e)%string
           /\ effects
              = pre ++ [PostUpsert es;
                        PostNotify "error" "RepoSync Failed"
                          (FirstError ("Failed to upsert vectors: " ++ e)%string)
                          res])
       \/ ((lenL es >? 0) = true /\ upsert (services o) es = None
           /\ err = None
           /\ res = setSuccess (setUpserted res2 (lenL es)) true
           /\ effects
              = pre ++ [PostUpsert es] ++ saves
                ++ [PostNotify "success" "RepoSync Update"
                      (Summary (lenL valid) (lenL es)) res])
       \/ ((lenL es >? 0) = false
           /\ err = None
           /\ res = setSuccess res2 true
           /\ effects
              = pre ++ saves
                ++ [PostNotify "success" "RepoSync Update"
                      (Summary (lenL valid) (lenL es)) res]).
Proof.
  intros H Hrepos valid. subst valid. revert H.
  unfold SyncProject, discoverRepositories.
  cbn [bind emit ret app]. rewrite Hrepos.
  rewrite collectChanges_full. cbn [app bind].
  remember (filterFiles o (changedFilesOf o projectID incremental repos))
    as valid eqn:Hvalid.
  destruct (processFiles o fuel valid) as [[r | |] lp] eqn:Hp;
    cbn [bind]; try discriminate.
  unfold processFiles in Hp.
  destruct (processFilesFrom_inv o _ _ _ _ _ _ _ eq_refl Hp) as (es & -> & Hns).
  cbn [app] in *. rewrite Z.add_0_l in *.
  destruct (lenL es >? 0) eqn:Hpos.
  - unfold upsertVectors. cbn [bind emit ret app].
    destruct (upsert (services o) es) as [e |] eqn:Hans.
    + unfold failWith. cbn. intros H. inversion H; subst.
      exists es, lp. split; [reflexivity |]. split; [exact Hns |].
      left. exists e. rewrite Hans.
      repeat split; try assumption.
      cbn [app]. rewrite <- ?app_assoc. reflexivity.
    + unfold complete. rewrite updateMetadata_closed. cbn.
      intros H. inversion H; subst.
      exists es, lp. split; [reflexivity |]. split; [exact Hns |].
      right. left. rewrite Hans.
      repeat split; try assumption.
      cbn [app]. rewrite <- ?app_assoc. reflexivity.
  - unfold complete. rewrite updateMetadata_closed. cbn.
    intros H. inversion H; subst.
    exists es, lp. split; [reflexivity |]. split; [exact Hns |].
    right. right.
    repeat split; try assumption.
    cbn [app]. rewrite <- ?app_assoc. reflexivity.
Qed.

End RunShape2.

Section RunFacts.
Import Orchestrator.

Variable o : Orchestrator.t.

Lemma diffRequests_every (P : Effect -> Prop) projectID incremental repos :
  (forall a b, P (GetMetadata a b)) ->
  (forall a b, P (GetChanges a b)) ->
  Forall P (diffRequests o projectID incremental repos).
Proof.
  intros Hm Hc. unfold diffRequests.
  induction repos as [| repo rest IH]; cbn [flat_map].
  - constructor.
  - apply Forall_app. split; [| exact IH].
    destruct incremental; repeat constructor; auto.
Qed.

Lemma processFiles_every (P : Effect -> Prop) fuel files x lp :
  processFiles o fuel files = (x, lp) ->
  (forall f, P (PostChunk f)) ->
  (forall texts, P (PostEmbed texts)) ->
  (forall msg, P (LogWarning msg)) ->
  Forall P lp.
Proof.
  intros Hp H1 H2 H3. refine (every_effects _ _ _ _ _ Hp).
  unfold processFiles. apply every_processFilesFrom; assumption.
Qed.

Lemma saves_every (P : Effect -> Prop) projectID files :
  (forall m, P (PostMetadata m)) ->
  Forall P (map (fun f => PostMetadata (metadataFor projectID f)) files).
Proof.
  intros H. induction files; cbn [map]; constructor; auto.
Qed.

(** The effects of a returning run, cut before the notification. *)
Lemma SyncProject_effects fuel projectID incremental res err effects :
  SyncProject o fuel projectID incremental = (Returns (res, err), effects) ->
  exists before title message,
    effects
    = before ++ [PostNotify (match err with Some _ => "error" | None => "success" end)
                            title message res]
    /\ notified before = []
    /\ (err <> None -> saved before = [])
    /\ SyncResult.Success res = match err with Some _ => false | None => true end.
Proof.
  intros H.
  destruct (repositories (services o) (Organization (GitHub (config o)))
                         (FilterKeyword (GitHub (config o))))
    as [repos | e0] eqn:Hrepos.
  - destruct (SyncProject_shape o _ _ _ _ _ _ _ H Hrepos)
      as (es & lp & Hp & _ & Hcases).
    cbv zeta in Hcases.
    assert (Hlp : notified lp = [] /\ saved lp = []).
    { split; apply flat_map_none;
        apply (processFiles_every _ _ _ _ _ Hp); intros; reflexivity. }
    assert (Hd : notified (diffRequests o projectID incremental repos) = []
                 /\ saved (diffRequests o projectID incremental repos) = []).
    { split; apply flat_map_none; apply diffRequests_every; intros; reflexivity. }
    assert (Hsv : notified (map (fun f => PostMetadata (metadataFor projectID f))
                              (filterFiles o (changedFilesOf o projectID
                                                incremental repos))) = []).
    { apply flat_map_none. apply saves_every. intros; reflexivity. }
    destruct Hlp as [Hn1 Hs1]. destruct Hd as [Hn2 Hs2].
    set (pre := GetRepositories (Organization (GitHub (config o)))
                                (FilterKeyword (GitHub (config o)))
                :: diffRequests o projectID incremental repos ++ lp) in *.
    set (saves := map (fun f => PostMetadata (metadataFor projectID f))
                      (filterFiles o (changedFilesOf o projectID
                                        incremental repos))) in *.
    assert (Hpre : notified pre = [] /\ saved pre = []).
    { unfold pre, notified, saved in *. cbn [flat_map notifiedOf savedOf app].
      rewrite !flat_map_app, Hn1, Hn2, Hs1, Hs2. split; reflexivity. }
    destruct Hpre as [Hn0 Hs0].
    destruct Hcases as [(e & _ & _ & -> & Hres & ->)
                       | [(_ & _ & -> & Hres & ->) | (_ & -> & Hres & ->)]].
    + exists (pre ++ [PostUpsert es]). eexists. eexists. split.
      * rewrite <- app_assoc. reflexivity.
      * unfold notified, saved in *.
        rewrite !flat_map_app, Hn0, Hs0. cbn [flat_map notifiedOf savedOf app].
        repeat split. rewrite Hres. reflexivity.
    + exists (pre ++ [PostUpsert es] ++ saves). eexists. eexists. split.
      * rewrite <- !app_assoc. reflexivity.
      * unfold notified in *.
        rewrite !flat_map_app, Hn0, Hsv. cbn [flat_map notifiedOf app].
        repeat split; [congruence |].
        rewrite Hres. reflexivity.
    + exists (pre ++ saves). eexists. eexists. split.
      * rewrite <- !app_assoc. reflexivity.
      * unfold notified in *.
        rewrite !flat_map_app, Hn0, Hsv.
        repeat split; [congruence |].
        rewrite Hres. reflexivity.
  - rewrite (SyncProject_discovery_failure o fuel projectID incremental e0 Hrepos)
      in H.
    inversion H; subst.
    eexists [_], _, _. split; [reflexivity |]. repeat split.
Qed.

End RunFacts.

(** X7.  Every run of [SyncProject] that returns has posted exactly one
    notification, as its last effect; its type is [error] when the run
    returns an error and [success] otherwise (never [warning], whatever
    was logged or recorded in [Warnings]); it carries the result as
    returned, whose [Success] flag is true exactly when no error is
    returned. *)
Theorem SyncProject_notifies_once :
  forall (o : Orchestrator.t) (fuel : nat) (projectID : string)
         (incremental : bool) (res : SyncResult.t) (err : option Error)
         (effects : list Orchestrator.Effect),
    Orchestrator.SyncProject o fuel projectID incremental
    = (Returns (res, err), effects) ->
    exists before title message,
      let type := match err with Some _ => "error" | None => "success" end in
      effects = before ++ [Orchestrator.PostNotify type title message res]
      /\ Orchestrator.notified effects = [(type, title, message, res)]
      /\ SyncResult.Success res
         = match err with Some _ => false | None => true end.
Proof.
  intros o fuel projectID incremental res err effects H.
  destruct (SyncProject_effects o _ _ _ _ _ _ H)
    as (before & title & message & -> & Hn & _ & Hs).
  exists before, title, message. cbv zeta. split; [reflexivity |].
  split; [| exact Hs].
  unfold Orchestrator.notified in *. rewrite flat_map_app, Hn. reflexivity.
Qed.

Lemma SyncProject_notifies_once_witness :
  let o := Example.orchestrator [Example.fileA; Example.fileB] in
  let run := Orchestrator.SyncProject o 4 "p" true in
  let res := match fst run with
             | Returns (res, _) => res
             | _ => Orchestrator.newResult "p"
             end in
  run = (Returns (res, None), snd run)
  /\ exists before title message,
      snd run = before ++ [Orchestrator.PostNotify "success" title message res]
      /\ Orchestrator.notified (snd run) = [("success", title, message, res)]
      /\ SyncResult.Success res = true.
Proof.
  intros o run res. split.
  - vm_compute. reflexivity.
  - apply (SyncProject_notifies_once o 4 "p" true res None (snd run)).
    vm_compute. reflexivity.
Defined.

Section RunFacts2.
Import Orchestrator.

Variable o : Orchestrator.t.

Lemma lenL_nonneg {A : Type} (l : list A) : 0 <= lenL l.
Proof. unfold lenL. lia. Qed.

(** A returning run whose repository listing succeeded, with what it
    upserted, saved and posted to the chunker. *)
Lemma SyncProject_posts fuel projectID incremental res err effects repos :
  SyncProject o fuel projectID incremental = (Returns (res, err), effects) ->
  repositories (services o) (Organization (GitHub (config o)))
               (FilterKeyword (GitHub (config o))) = Ok repos ->
  let valid := filterFiles o (changedFilesOf o projectID incremental repos) in
  exists es lp,
    processFiles o fuel valid = (Returns (Ok (es, GoInt.wrap (lenL es))), lp)
    /\ Forall (fun e => Embedding.Namespace e
                        = Organization (GitHub (config o))) es
    /\ chunked effects = chunked lp
    /\ metadataReads effects
       = metadataReads (diffRequests o projectID incremental repos)
    /\ changesRequests effects
       = changesRequests (diffRequests o projectID incremental repos)
    /\ upserted effects = (if lenL es >? 0 then es else [])
    /\ res = match err with
             | Some e =>
                 addError (setProcessed
                             (resultAfterFiltering o projectID incremental repos)
                             (GoInt.wrap (lenL es)) (lenL es))
                          ("Failed to upsert vectors: " ++ e)%string
             | None =>
                 setSuccess
                   (setUpserted
                      (setProcessed
                         (resultAfterFiltering o projectID incremental repos)
                         (GoInt.wrap (lenL es)) (lenL es))
                      (if lenL es >? 0 then lenL es else 0)) true
             end
    /\ (err <> None -> (lenL es >? 0) = true).
Proof.
  intros H Hrepos valid.
  destruct (SyncProject_shape o _ _ _ _ _ _ _ H Hrepos)
    as (es & lp & Hp & Hns & Hcases).
  cbv zeta in Hcases. exists es, lp.
  split; [exact Hp |]. split; [exact Hns |].
  assert (Hlp : metadataReads lp = [] /\ changesRequests lp = []
                /\ upserted lp = []).
  { repeat split; apply flat_map_none;
      apply (processFiles_every o _ _ _ _ _ Hp); intros; reflexivity. }
  assert (Hd : chunked (diffRequests o projectID incremental repos) = []
               /\ upserted (diffRequests o projectID incremental repos) = []).
  { split; apply flat_map_none; apply diffRequests_every; intros; reflexivity. }
  assert (Hsv : forall files,
             chunked (map (fun f => PostMetadata (metadataFor projectID f)) files) = []
             /\ metadataReads (map (fun f => PostMetadata (metadataFor projectID f)) files) = []
             /\ changesRequests (map (fun f => PostMetadata (metadataFor projectID f)) files) = []
             /\ upserted (map (fun f => PostMetadata (metadataFor projectID f)) files) = []).
  { intros files. repeat split; apply flat_map_none; apply saves_every;
      intros; reflexivity. }
  destruct Hlp as (Hm1 & Hc1 & Hu1). destruct Hd as (Hk2 & Hu2).
  destruct (Hsv valid) as (Hk3 & Hm3 & Hc3 & Hu3).
  unfold chunked, metadataReads, changesRequests, upserted in *.
  destruct Hcases as [(e & Hpos & _ & -> & -> & ->)
                     | [(Hpos & _ & -> & -> & ->) | (Hpos & -> & -> & ->)]];
    rewrite Hpos;
    repeat first [ rewrite flat_map_app
                 | progress cbn [flat_map chunkedOf metadataReadOf
                                 changesRequestOf upsertedOf app] ];
    fold valid;
    rewrite ?Hm1, ?Hc1, ?Hu1, ?Hk2, ?Hu2, ?Hk3, ?Hm3, ?Hc3, ?Hu3, ?app_nil_r;
    repeat split; try reflexivity; try congruence.
Qed.

End RunFacts2.

Section RunFacts3.
Import Orchestrator.

Variable o : Orchestrator.t.

Lemma diffRequests_metadataReads projectID incremental repos :
  metadataReads (diffRequests o projectID incremental repos)
  = if incremental
    then map (fun repo => (projectID, Repository.FullName repo)) repos
    else [].
Proof.
  unfold metadataReads, diffRequests.
  induction repos as [| repo rest IH]; cbn [flat_map map].
  - destruct incremental; reflexivity.
  - rewrite !flat_map_app, IH. destruct incremental; reflexivity.
Qed.

Lemma diffRequests_changesRequests projectID incremental repos :
  changesRequests (diffRequests o projectID incremental repos)
  = map (fun repo => (Repository.FullName repo,
                      lastCommitOf o projectID incremental repo)) repos.
Proof.
  unfold changesRequests, diffRequests.
  induction repos as [| repo rest IH]; cbn [flat_map map].
  - reflexivity.
  - rewrite !flat_map_app, IH. destruct incremental; reflexivity.
Qed.

Lemma app_tail_two {A : Type} (x l : list A) (p a b : A) :
  x ++ [p] = l ++ [a; b] -> p = b.
Proof.
  intros H. change (l ++ [a; b]) with (l ++ [a] ++ [b]) in H.
  rewrite app_assoc in H. apply app_inj_tail in H. tauto.
Qed.


End RunFacts3.

(** X8.  The result of a run that returns without error, field by field:
    the repositories listed, the files gathered (discovered and changed
    are the same number), the files kept by the filter as
    [FilesProcessed] (whether or not their processing succeeded), and
    the number of embeddings posted for upsert as [ChunksCreated],
    [EmbeddingsGenerated] and [VectorsUpserted] alike; no error, the
    warnings of step 2, nothing deleted, and [Success]. *)
Theorem SyncProject_success_result :
  forall (o : Orchestrator.t) (fuel : nat) (projectID : string)
         (incremental : bool) (res : SyncResult.t)
         (effects : list Orchestrator.Effect) (repos : list Repository.t),
    Orchestrator.SyncProject o fuel projectID incremental
    = (Returns (res, None), effects) ->
    Orchestrator.repositories (Orchestrator.services o)
      (Orchestrator.Organization (Orchestrator.GitHub (Orchestrator.config o)))
      (Orchestrator.FilterKeyword (Orchestrator.GitHub (Orchestrator.config o)))
    = Orchestrator.Ok repos ->
    Orchestrator.lenL (Orchestrator.upserted effects) < 2 ^ 63 ->
    let files := Orchestrator.changedFilesOf o projectID incremental repos in
    let n := Orchestrator.lenL (Orchestrator.upserted effects) in
    res = {| SyncResult.ProjectID := projectID;
             SyncResult.RepositoriesScanned := Orchestrator.lenL repos;
             SyncResult.FilesDiscovered := Orchestrator.lenL files;
             SyncResult.FilesChanged := Orchestrator.lenL files;
             SyncResult.FilesProcessed :=
               Orchestrator.lenL (Orchestrator.filterFiles o files);
             SyncResult.ChunksCreated := n;
             SyncResult.EmbeddingsGenerated := n;
             SyncResult.VectorsUpserted := n;
             SyncResult.VectorsDeleted := 0;
             SyncResult.Errors := [];
             SyncResult.Warnings :=
               Orchestrator.repoWarnings o projectID incremental repos;
             SyncResult.Success := true |}.
Proof.
  intros o fuel projectID incremental res effects repos H Hrepos Hn files n.
  destruct (SyncProject_posts o _ _ _ _ _ _ _ H Hrepos)
    as (es & lp & _ & _ & _ & _ & _ & Hu & -> & _).
  subst n files. rewrite Hu in *.
  pose proof (lenL_nonneg es) as Hge.
  destruct (Orchestrator.lenL es >? 0) eqn:Hpos.
  - rewrite (wrap_small (Orchestrator.lenL es)) by lia. reflexivity.
  - rewrite Z.gtb_ltb in Hpos. apply Z.ltb_ge in Hpos.
    assert (Hz : Orchestrator.lenL es = 0) by lia.
    rewrite Hz. reflexivity.
Qed.

Lemma SyncProject_success_result_witness :
  let o := Example.orchestrator [Example.fileA; Example.fileB; Example.nestedE] in
  let run := Orchestrator.SyncProject o 4 "p" true in
  let res := match fst run with
             | Returns (res, _) => res
             | _ => Orchestrator.newResult "p"
             end in
  run = (Returns (res, None), snd run)
  /\ res = {| SyncResult.ProjectID := "p";
              SyncResult.RepositoriesScanned := 1;
              SyncResult.FilesDiscovered := 3;
              SyncResult.FilesChanged := 3;
              SyncResult.FilesProcessed := 3;
              SyncResult.ChunksCreated := 2;
              SyncResult.EmbeddingsGenerated := 2;
              SyncResult.VectorsUpserted := 2;
              SyncResult.VectorsDeleted := 0;
              SyncResult.Errors := [];
              SyncResult.Warnings := [];
              SyncResult.Success := true |}.
Proof.
  intros o run res. split.
  - vm_compute. reflexivity.
  - apply (SyncProject_success_result o 4 "p" true res (snd run) [Example.repo]).
    + vm_compute. reflexivity.
    + reflexivity.
    + vm_compute. reflexivity.
Defined.

(** X9.  A run returns an error in two cases only, a failed repository
    listing or a refused upsert.  Its result then has [Success] false,
    the one error message (the step followed by the error text), no
    vector counted as upserted; the notification carries that message;
    and no metadata row was saved. *)
Theorem SyncProject_failure_result :
  forall (o : Orchestrator.t) (fuel : nat) (projectID : string)
         (incremental : bool) (res : SyncResult.t) (e : Error)
         (effects : list Orchestrator.Effect),
    Orchestrator.SyncProject o fuel projectID incremental
    = (Returns (res, Some e), effects) ->
    exists what,
      (what = "Failed to discover repositories: "
       \/ what = "Failed to upsert vectors: ")
      /\ SyncResult.Errors res = [(what ++ e)%string]
      /\ SyncResult.Success res = false
      /\ SyncResult.VectorsUpserted res = 0
      /\ Orchestrator.notified effects
         = [("error", "RepoSync Failed",
             Orchestrator.FirstError (what ++ e)%string, res)]
      /\ Orchestrator.saved effects = [].
Proof.
  intros o fuel projectID incremental res e effects H.
  destruct (Orchestrator.repositories (Orchestrator.services o)
              (Orchestrator.Organization (Orchestrator.GitHub (Orchestrator.config o)))
              (Orchestrator.FilterKeyword (Orchestrator.GitHub (Orchestrator.config o))))
    as [repos | e0] eqn:Hrepos.
  - exists "Failed to upsert vectors: ".
    destruct (SyncProject_effects o _ _ _ _ _ _ H)
      as (before & title & message & Heff & Hn & Hs & _).
    specialize (Hs ltac:(discriminate)).
    destruct (SyncProject_shape o _ _ _ _ _ _ _ H Hrepos)
      as (es & lp & _ & _ & Hcases).
    cbv zeta in Hcases.
    destruct Hcases as [(e' & _ & _ & He & Hres & Heff')
                       | [(_ & _ & He & _) | (_ & He & _)]];
      try discriminate.
    inversion He; subst e'.
    split; [right; reflexivity |].
    split; [rewrite Hres; reflexivity |].
    split; [rewrite Hres; reflexivity |].
    split; [rewrite Hres; reflexivity |].
    rewrite Heff in Heff'. apply app_tail_two in Heff'.
    inversion Heff'; subst title message. rewrite Heff.
    unfold Orchestrator.notified, Orchestrator.saved in *.
    rewrite !flat_map_app, Hn, Hs. split; reflexivity.
  - exists "Failed to discover repositories: ".
    rewrite (SyncProject_discovery_failure o fuel projectID incremental e0 Hrepos)
      in H.
    inversion H; subst. repeat split. left. reflexivity.
Qed.

Lemma SyncProject_failure_result_witness :
  let o := {| Orchestrator.config := Example.cfg;
              Orchestrator.services :=
                {| Orchestrator.repositories := fun _ _ => Orchestrator.Ok [Example.repo];
                   Orchestrator.changes := fun _ _ => Orchestrator.Ok [Example.fileA];
                   Orchestrator.lastCommit := fun _ _ => Orchestrator.Ok "c0";
                   Orchestrator.chunk := Example.chunker;
                   Orchestrator.embed := Example.vectorizer;
                   Orchestrator.upsert := fun _ => Some "upsert failed: quota";
                   Orchestrator.postMetadata := fun _ => None |} |} in
  let run := Orchestrator.SyncProject o 4 "p" true in
  let res := match fst run with
             | Returns (res, _) => res
             | _ => Orchestrator.newResult "p"
             end in
  run = (Returns (res, Some "upsert failed: quota"), snd run)
  /\ exists what,
      (what = "Failed to discover repositories: "
       \/ what = "Failed to upsert vectors: ")
      /\ SyncResult.Errors res = [(what ++ "upsert failed: quota")%string]
      /\ SyncResult.Success res = false
      /\ SyncResult.VectorsUpserted res = 0
      /\ Orchestrator.notified (snd run)
         = [("error", "RepoSync Failed",
             Orchestrator.FirstError (what ++ "upsert failed: quota")%string, res)]
      /\ Orchestrator.saved (snd run) = [].
Proof.
  intros o run res. split.
  - vm_compute. reflexivity.
  - apply (SyncProject_failure_result o 4 "p" true res "upsert failed: quota"
             (snd run)).
    vm_compute. reflexivity.
Defined.

(** X10.  In every run that returns, [ChunksCreated] and
    [EmbeddingsGenerated] are the same number: a worker adds its chunks to
    the count only together with their embeddings, so the chunks of a file
    whose vectorizing failed are not counted. *)
Theorem SyncProject_chunks_equal_embeddings :
  forall (o : Orchestrator.t) (fuel : nat) (projectID : string)
         (incremental : bool) (res : SyncResult.t) (err : option Error)
         (effects : list Orchestrator.Effect),
    Orchestrator.SyncProject o fuel projectID incremental
    = (Returns (res, err), effects) ->
    SyncResult.EmbeddingsGenerated res < 2 ^ 63 ->
    SyncResult.ChunksCreated res = SyncResult.EmbeddingsGenerated res.
Proof.
  intros o fuel projectID incremental res err effects H Hb.
  destruct (Orchestrator.repositories (Orchestrator.services o)
              (Orchestrator.Organization (Orchestrator.GitHub (Orchestrator.config o)))
              (Orchestrator.FilterKeyword (Orchestrator.GitHub (Orchestrator.config o))))
    as [repos | e0] eqn:Hrepos.
  - destruct (SyncProject_posts o _ _ _ _ _ _ _ H Hrepos)
      as (es & lp & _ & _ & _ & _ & _ & _ & Hres & _).
    pose proof (lenL_nonneg es) as Hge.
    destruct err; rewrite Hres in *;
      cbn [Orchestrator.addError Orchestrator.setSuccess Orchestrator.setUpserted
           Orchestrator.setProcessed Orchestrator.update
           SyncResult.ChunksCreated SyncResult.EmbeddingsGenerated] in *;
      apply wrap_small; lia.
  - rewrite (SyncProject_discovery_failure o fuel projectID incremental e0 Hrepos)
      in H.
    inversion H; subst. reflexivity.
Qed.

Lemma SyncProject_chunks_equal_embeddings_witness :
  let o := Example.orchestrator [Example.fileA; Example.fileB; Example.fileC] in
  let run := Orchestrator.SyncProject o 4 "p" true in
  let res := match fst run with
             | Returns (res, _) => res
             | _ => Orchestrator.newResult "p"
             end in
  run = (Returns (res, None), snd run)
  /\ SyncResult.FilesProcessed res = 3
  /\ SyncResult.ChunksCreated res = SyncResult.EmbeddingsGenerated res.
Proof.
  intros o run res. split; [vm_compute; reflexivity |].
  split; [vm_compute; reflexivity |].
  apply (SyncProject_chunks_equal_embeddings o 4 "p" true res None (snd run)).
  - vm_compute. reflexivity.
  - vm_compute. reflexivity.
Defined.

(** X11.  Every embedding a run posts for upsert carries the configured
    organisation as its namespace: the project identifier passed to
    [upsertVectors] is not used. *)
Theorem SyncProject_upserts_in_organization_namespace :
  forall (o : Orchestrator.t) (fuel : nat) (projectID : string)
         (incremental : bool) (res : SyncResult.t) (err : option Error)
         (effects : list Orchestrator.Effect) (e : Embedding.t),
    Orchestrator.SyncProject o fuel projectID incremental
    = (Returns (res, err), effects) ->
    In e (Orchestrator.upserted effects) ->
    Embedding.Namespace e
    = Orchestrator.Organization (Orchestrator.GitHub (Orchestrator.config o)).
Proof.
  intros o fuel projectID incremental res err effects e H Hin.
  destruct (Orchestrator.repositories (Orchestrator.services o)
              (Orchestrator.Organization (Orchestrator.GitHub (Orchestrator.config o)))
              (Orchestrator.FilterKeyword (Orchestrator.GitHub (Orchestrator.config o))))
    as [repos | e0] eqn:Hrepos.
  - destruct (SyncProject_posts o _ _ _ _ _ _ _ H Hrepos)
      as (es & lp & _ & Hns & _ & _ & _ & Hu & _).
    rewrite Hu in Hin. destruct (Orchestrator.lenL es >? 0); [| destruct Hin].
    rewrite Forall_forall in Hns. apply Hns. exact Hin.
  - rewrite (SyncProject_discovery_failure o fuel projectID incremental e0 Hrepos)
      in H.
    inversion H; subst. destruct Hin.
Qed.

Lemma SyncProject_upserts_in_organization_namespace_witness :
  let o := Example.orchestrator [Example.fileA] in
  let run := Orchestrator.SyncProject o 4 "project-7" true in
  let res := match fst run with
             | Returns (res, _) => res
             | _ => Orchestrator.newResult "project-7"
             end in
  let e := match Orchestrator.upserted (snd run) with
           | e :: _ => e
           | [] => Orchestrator.newEmbedding o
                     (DocumentProcessor.newDocument Example.digest Example.fileA 1 0 "")
                     []
           end in
  run = (Returns (res, None), snd run)
  /\ In e (Orchestrator.upserted (snd run))
  /\ Embedding.Namespace e = "acme".
Proof.
  intros o run res e. split; [vm_compute; reflexivity |].
  split; [left; reflexivity |].
  apply (SyncProject_upserts_in_organization_namespace
           o 4 "project-7" true res None (snd run) e).
  - vm_compute. reflexivity.
  - left. reflexivity.
Defined.

(** X12.  What a returning run asks of the metadata store and of the
    change detector: an incremental run looks up each listed repository
    once, a full run never; each repository's changes are requested
    once, in order, with the looked-up commit (the empty string when the
    lookup failed) or, in a full run, with the empty string. *)
Theorem SyncProject_diff_requests :
  forall (o : Orchestrator.t) (fuel : nat) (projectID : string)
         (incremental : bool) (res : SyncResult.t) (err : option Error)
         (effects : list Orchestrator.Effect) (repos : list Repository.t),
    Orchestrator.SyncProject o fuel projectID incremental
    = (Returns (res, err), effects) ->
    Orchestrator.repositories (Orchestrator.services o)
      (Orchestrator.Organization (Orchestrator.GitHub (Orchestrator.config o)))
      (Orchestrator.FilterKeyword (Orchestrator.GitHub (Orchestrator.config o)))
    = Orchestrator.Ok repos ->
    Orchestrator.metadataReads effects
    = (if incremental
       then map (fun repo => (projectID, Repository.FullName repo)) repos
       else [])
    /\ Orchestrator.changesRequests effects
       = map (fun repo =>
                (Repository.FullName repo,
                 if incremental
                 then match Orchestrator.lastCommit (Orchestrator.services o)
                              projectID (Repository.FullName repo) with
                      | Orchestrator.Ok sha => sha
                      | Orchestrator.Err _ => ""
                      end
                 else ""))
             repos.
Proof.
  intros o fuel projectID incremental res err effects repos H Hrepos.
  destruct (SyncProject_posts o _ _ _ _ _ _ _ H Hrepos)
    as (es & lp & _ & _ & _ & Hm & Hc & _).
  rewrite Hm, Hc, diffRequests_metadataReads, diffRequests_changesRequests.
  split; reflexivity.
Qed.

Lemma SyncProject_diff_requests_witness :
  let o := Example.orchestrator [Example.fileA] in
  let run := Orchestrator.SyncProject o 4 "p" false in
  let res := match fst run with
             | Returns (res, _) => res
             | _ => Orchestrator.newResult "p"
             end in
  run = (Returns (res, None), snd run)
  /\ Orchestrator.metadataReads (snd run) = []
  /\ Orchestrator.changesRequests (snd run) = [("acme/docs", "")].
Proof.
  intros o run res. split; [vm_compute; reflexivity |].
  apply (SyncProject_diff_requests o 4 "p" false res None (snd run)
           [Example.repo]).
  - vm_compute. reflexivity.
  - reflexivity.
Defined.



(** ** More on cleaning and chunking *)
Section ChunkingFacts.
Import DocumentProcessor.

Lemma TrimLeft_length (s : string) :
  (String.length (TrimLeft s) <= String.length s)%nat.
Proof.
  induction s as [| c s IH]; cbn [TrimLeft String.length]; [lia |].
  destruct (isSpace c); cbn [String.length]; lia.
Qed.

Lemma TrimRight_length (s : string) :
  (String.length (TrimRight s) <= String.length s)%nat.
Proof.
  induction s as [| c s IH]; cbn [TrimRight String.length]; [lia |].
  destruct (TrimRight s) as [| d t].
  - destruct (isSpace c); cbn [String.length]; lia.
  - cbn [String.length] in *. lia.
Qed.

Lemma TrimSpace_len (s : string) : len (TrimSpace s) <= len s.
Proof.
  unfold len, TrimSpace.
  pose proof (TrimRight_length (TrimLeft s)).
  pose proof (TrimLeft_length s). lia.
Qed.

(** The chunk an iteration appends is never empty. *)
Lemma splitStep_chunk (text : string) (maxSize overlap start : Z)
                      (chunk : string) (next : Z) :
  splitStep text maxSize overlap start = Some (Some chunk, next) ->
  0 < len chunk.
Proof.
  unfold splitStep. cbv zeta.
  match goal with
  | |- match ?b with _ => _ end = _ -> _ => destruct b as [end2 |]
  end; [| discriminate].
  destruct (slice text start end2) as [raw |]; [| discriminate].
  destruct (len (TrimSpace raw) >? 0) eqn:E; [| discriminate].
  intros H. inversion H; subst.
  rewrite Z.gtb_ltb in E. apply Z.ltb_lt in E. exact E.
Qed.

Lemma splitLoop_nonempty (fuel : nat) (text : string) (maxSize overlap : Z) :
  forall (start : Z) (chunks out : list string),
    splitLoop fuel text maxSize overlap start chunks = Returns out ->
    Forall (fun c => 0 < len c) chunks ->
    Forall (fun c => 0 < len c) out.
Proof.
  induction fuel as [| fuel IH]; intros start chunks out H Hc;
    cbn [splitLoop] in H; destruct (start <? len text); try discriminate;
    try (inversion H; subst; exact Hc).
  destruct (splitStep text maxSize overlap start)
    as [[[chunk |] next] |] eqn:E; [| | discriminate].
  - apply (IH _ _ _ H). apply Forall_app. split; [exact Hc |].
    constructor; [| constructor]. eapply splitStep_chunk; exact E.
  - apply (IH _ _ _ H). exact Hc.
Qed.

(** Without an overlap, one iteration from a position inside the text
    moves the position forward, and its chunk fits the chunk size. *)
Lemma splitStep_advances (text : string) (maxSize overlap start : Z) :
  0 < maxSize < 2 ^ 62 -> - 2 ^ 62 < overlap <= 0 -> len text < 2 ^ 62 ->
  0 <= start < len text ->
  exists c next,
    splitStep text maxSize overlap start = Some (c, next)
    /\ start < next
    /\ (forall chunk, c = Some chunk -> 0 < len chunk <= maxSize).
Proof.
  intros Hm Ho Ht Hs. unfold splitStep. cbv zeta.
  unfold GoInt.add, GoInt.sub.
  rewrite (wrap_small (start + maxSize)) by lia.
  set (end1 := if start + maxSize >? len text then len text
               else start + maxSize).
  assert (He1 : start < end1 <= len text /\ end1 - start <= maxSize).
  { subst end1. rewrite Z.gtb_ltb.
    destruct (len text <? start + maxSize) eqn:E;
      [apply Z.ltb_lt in E | apply Z.ltb_ge in E]; lia. }
  assert (Htail : forall end2,
    start < end2 <= len text -> end2 - start <= maxSize ->
    exists c next,
      match slice text start end2 with
      | Some raw =>
          Some (if len (TrimSpace raw) >? 0 then Some (TrimSpace raw) else None,
                if GoInt.wrap (end2 - overlap) <? 0 then 0
                else GoInt.wrap (end2 - overlap))
      | None => None
      end = Some (c, next)
      /\ start < next
      /\ (forall chunk, c = Some chunk -> 0 < len chunk <= maxSize)).
  { intros end2 He2 Hfit.
    destruct (slice_some text start end2) as (raw & -> & Hraw); [lia | lia |].
    rewrite (wrap_small (end2 - overlap)) by lia.
    eexists. eexists. split; [reflexivity |]. split.
    - destruct (end2 - overlap <? 0) eqn:E;
        [apply Z.ltb_lt in E | apply Z.ltb_ge in E]; lia.
    - intros chunk Hc. pose proof (TrimSpace_len raw) as Hle.
      destruct (len (TrimSpace raw) >? 0) eqn:E; [| discriminate].
      inversion Hc; subst.
      rewrite Z.gtb_ltb in E. apply Z.ltb_lt in E. lia. }
  destruct (end1 <? len text).
  - destruct (slice_some text start end1) as (w & -> & Hw); [lia | lia |].
    pose proof (LastIndexAny_bounds w sentenceEnds) as Hb.
    destruct (LastIndexAny w sentenceEnds >? GoInt.div maxSize 2) eqn:E.
    + rewrite Z.gtb_ltb in E. apply Z.ltb_lt in E. unfold GoInt.div in E.
      assert (0 <= Z.quot maxSize 2) by (apply Z.quot_pos; lia).
      rewrite (wrap_small (start + LastIndexAny w sentenceEnds)) by lia.
      rewrite (wrap_small (start + LastIndexAny w sentenceEnds + 1)) by lia.
      apply Htail; lia.
    + apply Htail; lia.
  - apply Htail; lia.
Qed.

Lemma splitLoop_advances (text : string) (maxSize overlap : Z) :
  0 < maxSize < 2 ^ 62 -> - 2 ^ 62 < overlap <= 0 -> len text < 2 ^ 62 ->
  forall (fuel : nat) (start : Z) (chunks : list string),
    0 <= start -> (Z.to_nat (len text - start) <= fuel)%nat ->
    Forall (fun c => 0 < len c <= maxSize) chunks ->
    exists out,
      splitLoop fuel text maxSize overlap start chunks = Returns out
      /\ Forall (fun c => 0 < len c <= maxSize) out.
Proof.
  intros Hm Ho Ht.
  induction fuel as [| fuel IH]; intros start chunks Hs Hf Hc;
    cbn [splitLoop]; destruct (start <? len text) eqn:E;
    try (exists chunks; split; [reflexivity | exact Hc]);
    apply Z.ltb_lt in E; [lia |].
  destruct (splitStep_advances text maxSize overlap start Hm Ho Ht)
    as (c & next & -> & Hn & Hk); [lia |].
  destruct c as [chunk |]; apply IH; try lia; try exact Hc.
  apply Forall_app. split; [exact Hc |].
  constructor; [| constructor]. apply Hk. reflexivity.
Qed.

Lemma documentsFrom_Content md5hex fc total i chunks :
  map Document.Content (documentsFrom md5hex fc total i chunks) = chunks.
Proof.
  revert i. induction chunks as [| c rest IH]; intros i;
    cbn [documentsFrom map newDocument Document.Content]; [reflexivity |].
  rewrite IH. reflexivity.
Qed.

Lemma documentsFrom_length md5hex fc total i chunks :
  List.length (documentsFrom md5hex fc total i chunks) = List.length chunks.
Proof.
  rewrite <- (documentsFrom_Content md5hex fc total i chunks) at 2.
  rewrite length_map. reflexivity.
Qed.

Lemma documentsFrom_Forall md5hex fc total i chunks (P : string -> Prop) :
  Forall P chunks ->
  Forall (fun d => P (Document.Content d))
         (documentsFrom md5hex fc total i chunks).
Proof.
  intros H. rewrite <- (documentsFrom_Content md5hex fc total i chunks) in H.
  rewrite Forall_map in H. exact H.
Qed.

Lemma len_nonneg (s : string) : 0 <= len s.
Proof. unfold len. lia. Qed.

(** X14.  Without an overlap (zero, or negative) and with a positive
    chunk size [ChunkDocument] returns, within as many iterations as the
    cleaned content has bytes, and every document it returns holds
    between one and [maxSize] bytes. *)
Theorem ChunkDocument_without_overlap :
  forall (md5hex : string -> string) (fuel : nat) (fc : FileChange.t)
         (maxSize overlap : Z),
    0 < maxSize < 2 ^ 62 ->
    - 2 ^ 62 < overlap <= 0 ->
    len (CleanContent (FileChange.Content fc)) < 2 ^ 62 ->
    (String.length (CleanContent (FileChange.Content fc)) <= fuel)%nat ->
    exists docs,
      ChunkDocument md5hex fuel fc maxSize overlap = Returns docs
      /\ Forall (fun d => 0 < len (Document.Content d) <= maxSize) docs.
Proof.
  intros md5hex fuel fc maxSize overlap Hm Ho Ht Hf.
  unfold ChunkDocument. cbv zeta.
  set (content := CleanContent (FileChange.Content fc)) in *.
  pose proof (len_nonneg content) as Hge.
  destruct (len content =? 0) eqn:E0.
  - exists []. split; [reflexivity | constructor].
  - apply Z.eqb_neq in E0.
    destruct (len content <=? maxSize) eqn:E1.
    + apply Z.leb_le in E1. eexists. split; [reflexivity |].
      apply documentsFrom_Forall with (P := fun c => 0 < len c <= maxSize).
      constructor; [lia | constructor].
    + destruct (splitLoop_advances content maxSize overlap Hm Ho Ht
                  fuel 0 []) as (out & Hout & Hall);
        [lia | unfold len; lia | constructor |].
      unfold splitIntoChunks. rewrite Hout.
      eexists. split; [reflexivity |].
      apply documentsFrom_Forall with (P := fun c => 0 < len c <= maxSize).
      exact Hall.
Qed.

Lemma ChunkDocument_without_overlap_witness :
  let fc := Example.file "notes.md" "One. Two! Three? Four" "added" in
  exists docs,
    ChunkDocument Example.digest 21 fc 8 0 = Returns docs
    /\ Forall (fun d => 0 < len (Document.Content d) <= 8) docs.
Proof.
  intros fc.
  apply (ChunkDocument_without_overlap Example.digest 21 fc 8 0).
  - lia.
  - lia.
  - vm_compute. reflexivity.
  - vm_compute. lia.
Defined.

(** X15.  When does the chunking endpoint answer?  For a processor with
    a positive default chunk size and a default overlap that is not
    negative, a request that overrides neither is answered exactly when
    the cleaned content fits one chunk or the default overlap is zero:
    with any positive overlap a longer file is never answered. *)
Theorem handleChunk_returns_iff :
  forall (md5hex : string -> string) (p : DocumentProcessor.t)
         (fc : FileChange.t),
    0 < maxChunkSize p < 2 ^ 62 ->
    0 <= chunkOverlap p < 2 ^ 62 ->
    len (CleanContent (FileChange.Content fc)) < 2 ^ 62 ->
    (exists fuel docs, handleChunk md5hex p fuel fc 0 0 = Returns docs)
    <-> (len (CleanContent (FileChange.Content fc)) <= maxChunkSize p
         \/ chunkOverlap p = 0).
Proof.
  intros md5hex p fc Hm Ho Ht.
  unfold handleChunk. cbn [Z.eqb].
  set (content := CleanContent (FileChange.Content fc)) in *.
  pose proof (len_nonneg content) as Hge.
  split.
  - intros (fuel & docs & H).
    destruct (Z_le_gt_dec (len content) (maxChunkSize p)) as [Hle | Hgt];
      [left; exact Hle | right].
    destruct (Z.eq_dec (chunkOverlap p) 0) as [H0 | Hn]; [exact H0 |].
    rewrite ChunkDocument_positive_overlap in H;
      [discriminate | lia | lia | subst content; lia].
  - intros [Hle | H0].
    + exists 0%nat. unfold ChunkDocument. cbv zeta. fold content.
      destruct (len content =? 0); [eexists; reflexivity |].
      replace (len content <=? maxChunkSize p) with true
        by (symmetry; apply Z.leb_le; exact Hle).
      eexists. reflexivity.
    + exists (String.length content). unfold ChunkDocument. cbv zeta.
      fold content.
      destruct (len content =? 0); [eexists; reflexivity |].
      destruct (len content <=? maxChunkSize p); [eexists; reflexivity |].
      destruct (splitLoop_advances content (maxChunkSize p) (chunkOverlap p)
                  Hm ltac:(lia) Ht (String.length content) 0 [])
        as (out & Hout & _); [lia | unfold len; lia | constructor |].
      unfold splitIntoChunks. rewrite Hout. eexists. reflexivity.
Qed.

Lemma handleChunk_returns_iff_witness :
  let fc := Example.file "notes.md" "One. Two! Three? Four" "added" in
  ((exists fuel docs,
       handleChunk Example.digest (NewDocumentProcessor 8 0) fuel fc 0 0
       = Returns docs)
   <-> (len (CleanContent (FileChange.Content fc)) <= 8 \/ 0 = 0))
  /\ ~ (exists fuel docs,
          handleChunk Example.digest (NewDocumentProcessor 8 2) fuel fc 0 0
          = Returns docs).
Proof.
  intros fc. split.
  - apply (handleChunk_returns_iff Example.digest (NewDocumentProcessor 8 0) fc).
    + cbn. lia.
    + cbn. lia.
    + vm_compute. reflexivity.
  - intros H.
    apply (handleChunk_returns_iff Example.digest (NewDocumentProcessor 8 2) fc)
      in H.
    + destruct H as [H | H]; [vm_compute in H; apply H; reflexivity
                             | discriminate H].
    + cbn. lia.
    + cbn. lia.
    + vm_compute. reflexivity.
Defined.

(** X16.  The documents [ChunkDocument] returns are numbered by position
    and each knows how many there are; none has empty content; each
    carries the repository, path and commit of the change record, also in
    its metadata. *)
Theorem ChunkDocument_documents_numbered :
  forall (md5hex : string -> string) (fuel : nat) (fc : FileChange.t)
         (maxSize overlap : Z) (docs : list Document.t) (k : nat)
         (d : Document.t),
    ChunkDocument md5hex fuel fc maxSize overlap = Returns docs ->
    nth_error docs k = Some d ->
    Document.ChunkIndex d = Z.of_nat k
    /\ Document.TotalChunks d = Z.of_nat (List.length docs)
    /\ 0 < len (Document.Content d)
    /\ Document.Repository d = FileChange.Repository fc
    /\ Document.FilePath d = FileChange.FilePath fc
    /\ Document.CommitSHA d = FileChange.CommitSHA fc
    /\ Document.Metadata d
       = [ ("repository", FileChange.Repository fc);
           ("file_path", FileChange.FilePath fc);
           ("commit_sha", FileChange.CommitSHA fc);
           ("chunk_index", GoInt.itoa (Z.of_nat k));
           ("total_chunks", GoInt.itoa (Z.of_nat (List.length docs)));
           ("file_ext", Ext (FileChange.FilePath fc)) ].
Proof.
  intros md5hex fuel fc maxSize overlap docs k d H Hk.
  apply ChunkDocument_inv in H as (chunks & -> & Hc).
  assert (Hne : Forall (fun c => 0 < len c) chunks).
  { cbv zeta in Hc.
    pose proof (len_nonneg (CleanContent (FileChange.Content fc))) as Hge.
    destruct (len (CleanContent (FileChange.Content fc)) =? 0) eqn:E0.
    - subst. constructor.
    - apply Z.eqb_neq in E0.
      destruct (len (CleanContent (FileChange.Content fc)) <=? maxSize).
      + subst. constructor; [lia | constructor].
      + unfold splitIntoChunks in Hc.
        eapply splitLoop_nonempty; [exact Hc | constructor]. }
  rewrite documentsFrom_length.
  apply documentsFrom_nth in Hk as (chunk & Hchunk & ->).
  cbn [newDocument Document.ChunkIndex Document.TotalChunks Document.Content
       Document.Repository Document.FilePath Document.CommitSHA
       Document.Metadata].
  rewrite Z.add_0_l.
  repeat split.
  rewrite Forall_forall in Hne. apply Hne.
  eapply nth_error_In. exact Hchunk.
Qed.

Lemma ChunkDocument_documents_numbered_witness :
  let fc := Example.file "notes.md" "One. Two! Three? Four" "added" in
  let docs := match ChunkDocument Example.digest 21 fc 8 0 with
              | Returns docs => docs
              | _ => []
              end in
  let d := nth 2 docs (newDocument Example.digest fc 0 0 "") in
  List.length docs = 3%nat
  /\ Document.Content d = "Four"
  /\ Document.ChunkIndex d = 2
  /\ Document.TotalChunks d = 3.
Proof.
  intros fc docs d.
  split; [vm_compute; reflexivity |].
  split; [vm_compute; reflexivity |].
  destruct (ChunkDocument_documents_numbered Example.digest 21 fc 8 0 docs 2 d)
    as (H1 & H2 & _).
  - vm_compute. reflexivity.
  - vm_compute. reflexivity.
  - split; [exact H1 | exact H2].
Defined.

Lemma list_ascii_app (a b : string) :
  list_ascii_of_string (a ++ b)
  = list_ascii_of_string a ++ list_ascii_of_string b.
Proof.
  induction a as [| c a IH]; cbn; [reflexivity |]. rewrite IH. reflexivity.
Qed.

Lemma MapKeep_all (keep : ascii -> bool) (s : string) :
  forallb keep (list_ascii_of_string (MapKeep keep s)) = true.
Proof.
  induction s as [| c s IH]; cbn [MapKeep]; [reflexivity |].
  destruct (keep c) eqn:E; [| exact IH].
  cbn [list_ascii_of_string forallb]. rewrite E, IH. reflexivity.
Qed.

Lemma cleanLines_all (lines : list string) :
  Forall (fun l => forallb keepRune (list_ascii_of_string l) = true)
         (cleanLines lines).
Proof.
  induction lines as [| l rest IH]; cbn [cleanLines]; [constructor |].
  destruct (len (TrimSpace l) =? 0); [exact IH |].
  constructor; [apply MapKeep_all | exact IH].
Qed.

Lemma forallb_weaken {A : Type} (p q : A -> bool) (l : list A) :
  (forall a, p a = true -> q a = true) ->
  forallb p l = true -> forallb q l = true.
Proof.
  intros Hpq. induction l as [| a l IH]; cbn [forallb]; [reflexivity |].
  rewrite !andb_true_iff. intros [Ha Hl]. split; [apply Hpq; exact Ha | auto].
Qed.

Lemma JoinLines_all (keep : ascii -> bool) (lines : list string) :
  Forall (fun l => forallb keep (list_ascii_of_string l) = true) lines ->
  forallb (fun c => Ascii.eqb c nl_char || keep c)
          (list_ascii_of_string (JoinLines lines)) = true.
Proof.
  intros H. unfold JoinLines.
  assert (Hw : forall l, forallb keep (list_ascii_of_string l) = true ->
               forallb (fun c => Ascii.eqb c nl_char || keep c)
                       (list_ascii_of_string l) = true).
  { intros l. apply forallb_weaken. intros a ->. apply orb_true_r. }
  induction H as [| l rest Hl Hrest IH]; [reflexivity |].
  cbn [String.concat]. destruct rest as [| l' rest'].
  - apply Hw. exact Hl.
  - rewrite !list_ascii_app, !forallb_app.
    rewrite (Hw _ Hl), IH. reflexivity.
Qed.

(** X17.  What [CleanContent] returns holds line feeds, tabs and
    printable characters only: every other control character of the
    input is gone. *)
Theorem CleanContent_alphabet :
  forall content : string,
    forallb (fun c => Ascii.eqb c nl_char || keepRune c)
            (list_ascii_of_string (CleanContent content)) = true.
Proof.
  intros content. unfold CleanContent.
  apply JoinLines_all. apply cleanLines_all.
Qed.

Lemma SplitLines_blank (s : string) :
  forallb isSpace (list_ascii_of_string s) = true ->
  Forall (fun l => forallb isSpace (list_ascii_of_string l) = true)
         (SplitLines s).
Proof.
  induction s as [| c s IH]; cbn [list_ascii_of_string forallb SplitLines].
  - intros _. constructor; [reflexivity | constructor].
  - rewrite andb_true_iff. intros [Hc Hs]. specialize (IH Hs).
    destruct (Ascii.eqb c nl_char).
    + constructor; [reflexivity | exact IH].
    + destruct (SplitLines s) as [| l ls].
      * constructor; [| constructor]. cbn. rewrite Hc. reflexivity.
      * inversion IH; subst. constructor; [| assumption].
        cbn [list_ascii_of_string forallb]. rewrite Hc. assumption.
Qed.

Lemma TrimLeft_blank (s : string) :
  forallb isSpace (list_ascii_of_string s) = true -> TrimLeft s = "".
Proof.
  induction s as [| c s IH]; cbn [list_ascii_of_string forallb TrimLeft];
    [reflexivity |].
  rewrite andb_true_iff. intros [-> Hs]. auto.
Qed.

Lemma cleanLines_blank (lines : list string) :
  Forall (fun l => forallb isSpace (list_ascii_of_string l) = true) lines ->
  cleanLines lines = [].
Proof.
  induction 1 as [| l rest Hl _ IH]; cbn [cleanLines]; [reflexivity |].
  unfold TrimSpace. rewrite (TrimLeft_blank l Hl). exact IH.
Qed.

(** X18.  A change record whose content is white space only (blanks,
    tabs, line ends) cleans to the empty string and gives no document,
    whatever the chunk size and the overlap. *)
Theorem ChunkDocument_blank_content :
  forall (md5hex : string -> string) (fuel : nat) (fc : FileChange.t)
         (maxSize overlap : Z),
    forallb isSpace (list_ascii_of_string (FileChange.Content fc)) = true ->
    CleanContent (FileChange.Content fc) = ""
    /\ ChunkDocument md5hex fuel fc maxSize overlap = Returns [].
Proof.
  intros md5hex fuel fc maxSize overlap H.
  assert (Hc : CleanContent (FileChange.Content fc) = "").
  { unfold CleanContent.
    rewrite (cleanLines_blank _ (SplitLines_blank _ H)). reflexivity. }
  split; [exact Hc |].
  unfold ChunkDocument. rewrite Hc. reflexivity.
Qed.

Lemma ChunkDocument_blank_content_witness :
  let fc := Example.file "blank.md" ("  " ++ nl ++ "   " ++ nl)%string "added" in
  CleanContent (FileChange.Content fc) = ""
  /\ ChunkDocument Example.digest 0 fc 1000 200 = Returns [].
Proof.
  intros fc.
  apply (ChunkDocument_blank_content Example.digest 0 fc 1000 200).
  vm_compute. reflexivity.
Defined.

End ChunkingFacts.

(** ** The HTTP entry point of the orchestrator *)
Section Handlers.
Import Orchestrator.

Variable o : Orchestrator.t.

(** The error a run returns and the [Success] flag of its result say the
    same thing. *)
Lemma SyncProject_success_flag fuel projectID incremental res err effects :
  SyncProject o fuel projectID incremental = (Returns (res, err), effects) ->
  match err with
  | None => SyncResult.Success res = true
  | Some _ => SyncResult.Success res = false /\ SyncResult.Errors res <> []
  end.
Proof.
  intros H.
  destruct (repositories (services o) (Organization (GitHub (config o)))
                         (FilterKeyword (GitHub (config o))))
    as [repos | e0] eqn:Hrepos.
  - destruct (SyncProject_shape o _ _ _ _ _ _ _ H Hrepos)
      as (es & lp & _ & _ & Hcases).
    cbv zeta in Hcases.
    destruct Hcases as [(e & _ & _ & -> & -> & _)
                       | [(_ & _ & -> & -> & _) | (_ & -> & -> & _)]].
    + split; [reflexivity | discriminate].
    + reflexivity.
    + reflexivity.
  - rewrite (SyncProject_discovery_failure o fuel projectID incremental e0 Hrepos)
      in H.
    inversion H; subst. split; [reflexivity | discriminate].
Qed.

End Handlers.

(** X19.  The answer of [POST /sync].  Any other method is refused with
    405 before anything is requested of a peer.  Otherwise the run is
    made for the project of the query (or [default]), incremental only
    for the literal [true]; the body is the result of the run; the status
    is 200 exactly when the result has [Success] set, and 500 otherwise,
    in which case the status has gone out before the handler sets the
    content type, so that the JSON content type is not among the headers
    sent. *)
Theorem handleSync_status :
  forall (o : Orchestrator.t) (fuel : nat) (r : Orchestrator.Request)
         (w : Orchestrator.ResponseWriter)
         (effects : list Orchestrator.Effect),
    Orchestrator.handleSync o fuel Orchestrator.newResponseWriter r
    = (Returns w, effects) ->
    (Orchestrator.Method r <> "POST"
     /\ effects = []
     /\ Orchestrator.wroteHeader w
        = Some (405, [("Content-Type", "text/plain; charset=utf-8");
                      ("X-Content-Type-Options", "nosniff")])
     /\ Orchestrator.body w = [Orchestrator.Text "Method not allowed"])
    \/ (Orchestrator.Method r = "POST"
        /\ exists (res : SyncResult.t) (err : option Error),
            Orchestrator.SyncProject o fuel
              (if String.eqb (Orchestrator.queryGet (Orchestrator.Query r)
                                                    "project_id") ""
               then "default"
               else Orchestrator.queryGet (Orchestrator.Query r) "project_id")
              (String.eqb (Orchestrator.queryGet (Orchestrator.Query r)
                                                 "incremental") "true")
            = (Returns (res, err), effects)
            /\ Orchestrator.body w = [Orchestrator.Json res]
            /\ ((SyncResult.Success res = true
                 /\ Orchestrator.wroteHeader w
                    = Some (200, [("Content-Type", "application/json")]))
                \/ (SyncResult.Success res = false
                    /\ SyncResult.Errors res <> []
                    /\ Orchestrator.wroteHeader w = Some (500, [])))).
Proof.
  intros o fuel r w effects. unfold Orchestrator.handleSync.
  destruct (String.eqb (Orchestrator.Method r) "POST") eqn:Hm;
    cbn [negb].
  - apply String.eqb_eq in Hm.
    set (pid := if String.eqb (Orchestrator.queryGet (Orchestrator.Query r)
                                                     "project_id") ""
                then "default"
                else Orchestrator.queryGet (Orchestrator.Query r) "project_id").
    set (inc := String.eqb (Orchestrator.queryGet (Orchestrator.Query r)
                                                  "incremental") "true").
    destruct (Orchestrator.SyncProject o fuel pid inc)
      as [[[res err] | |] es] eqn:Hrun;
      cbn [Orchestrator.bind Orchestrator.ret]; try discriminate.
    intros H. inversion H; subst. rewrite app_nil_r.
    right. split; [exact Hm |]. exists res, err.
    split; [reflexivity |].
    pose proof (SyncProject_success_flag o _ _ _ _ _ _ Hrun) as Hflag.
    destruct err as [e |].
    + destruct Hflag as [Hs He].
      split; [reflexivity |]. right. repeat split; assumption.
    + split; [reflexivity |]. left. split; [exact Hflag | reflexivity].
  - apply String.eqb_neq in Hm.
    cbn [Orchestrator.ret]. intros H. inversion H; subst.
    left. repeat split. exact Hm.
Qed.

Lemma handleSync_status_witness :
  let refused :=
    {| Orchestrator.config := Example.cfg;
       Orchestrator.services :=
         {| Orchestrator.repositories := fun _ _ => Orchestrator.Ok [Example.repo];
            Orchestrator.changes := fun _ _ => Orchestrator.Ok [Example.fileA];
            Orchestrator.lastCommit := fun _ _ => Orchestrator.Ok "c0";
            Orchestrator.chunk := Example.chunker;
            Orchestrator.embed := Example.vectorizer;
            Orchestrator.upsert := fun _ => Some "quota";
            Orchestrator.postMetadata := fun _ => None |} |} in
  let r := {| Orchestrator.Method := "POST";
              Orchestrator.Query := [("incremental", "TRUE")] |} in
  let run := Orchestrator.handleSync refused 4 Orchestrator.newResponseWriter r in
  let w := match fst run with
           | Returns w => w
           | _ => Orchestrator.newResponseWriter
           end in
  run = (Returns w, snd run)
  /\ Orchestrator.metadataReads (snd run) = []
  /\ Orchestrator.wroteHeader w = Some (500, [])
  /\ ((Orchestrator.Method r <> "POST" /\ snd run = []
       /\ Orchestrator.wroteHeader w
          = Some (405, [("Content-Type", "text/plain; charset=utf-8");
                        ("X-Content-Type-Options", "nosniff")])
       /\ Orchestrator.body w = [Orchestrator.Text "Method not allowed"])
      \/ (Orchestrator.Method r = "POST"
          /\ exists (res : SyncResult.t) (err : option Error),
              Orchestrator.SyncProject refused 4 "default" false
              = (Returns (res, err), snd run)
              /\ Orchestrator.body w = [Orchestrator.Json res]
              /\ ((SyncResult.Success res = true
                   /\ Orchestrator.wroteHeader w
                      = Some (200, [("Content-Type", "application/json")]))
                  \/ (SyncResult.Success res = false
                      /\ SyncResult.Errors res <> []
                      /\ Orchestrator.wroteHeader w = Some (500, []))))).
Proof.
  intros refused r run w.
  split; [vm_compute; reflexivity |].
  split; [vm_compute; reflexivity |].
  split; [vm_compute; reflexivity |].
  apply (handleSync_status refused 4 r w (snd run)).
  vm_compute. reflexivity.
Defined.

(** ** The lists of the configuration *)
Section ConfigFacts.
Import Config.

Lemma TrimLeft_head (s : string) :
  match TrimLeft s with
  | EmptyString => True
  | String c _ => isSpace c = false
  end.
Proof.
  induction s as [| c s IH]; cbn [TrimLeft]; [exact I |].
  destruct (isSpace c) eqn:E; [exact IH | exact E].
Qed.

Lemma TrimRight_head (c : ascii) (s : string) :
  isSpace c = false ->
  exists t, TrimRight (String c s) = String c t.
Proof.
  intros Hc. cbn [TrimRight]. rewrite Hc.
  destruct (TrimRight s); eexists; reflexivity.
Qed.

Lemma TrimRight_idem (s : string) : TrimRight (TrimRight s) = TrimRight s.
Proof.
  induction s as [| c s IH]; [reflexivity |].
  cbn [TrimRight]. destruct (TrimRight s) as [| d t] eqn:E.
  - destruct (isSpace c) eqn:Hc; [reflexivity |].
    cbn [TrimRight]. rewrite Hc. reflexivity.
  - cbn [TrimRight]. cbn [TrimRight] in IH.
    destruct (TrimRight t) as [| d' t'].
    + destruct (isSpace d); [discriminate IH |].
      rewrite IH. reflexivity.
    + rewrite IH. reflexivity.
Qed.

(** Trimming what is trimmed changes nothing. *)
Lemma TrimSpace_idem (s : string) : TrimSpace (TrimSpace s) = TrimSpace s.
Proof.
  unfold TrimSpace.
  pose proof (TrimLeft_head s) as Hh.
  destruct (TrimLeft s) as [| c t]; [reflexivity |].
  destruct (TrimRight_head c t Hh) as (u & Hu).
  rewrite Hu. cbn [TrimLeft]. rewrite Hh. rewrite <- Hu.
  apply TrimRight_idem.
Qed.

Lemma TrimLeft_all (p : ascii -> bool) (s : string) :
  forallb p (list_ascii_of_string s) = true ->
  forallb p (list_ascii_of_string (TrimLeft s)) = true.
Proof.
  induction s as [| c s IH]; cbn [TrimLeft]; [auto |].
  intros H. destruct (isSpace c); [| exact H].
  cbn [list_ascii_of_string forallb] in H.
  apply andb_true_iff in H. apply IH. apply H.
Qed.

Lemma TrimRight_all (p : ascii -> bool) (s : string) :
  forallb p (list_ascii_of_string s) = true ->
  forallb p (list_ascii_of_string (TrimRight s)) = true.
Proof.
  induction s as [| c s IH]; cbn [TrimRight]; [auto |].
  cbn [list_ascii_of_string forallb]. rewrite andb_true_iff.
  intros [Hc Hs]. specialize (IH Hs).
  destruct (TrimRight s) as [| d t].
  - destruct (isSpace c); [reflexivity |].
    cbn [list_ascii_of_string forallb]. rewrite Hc. reflexivity.
  - cbn [list_ascii_of_string forallb] in *. rewrite Hc. exact IH.
Qed.

Let noComma (c : ascii) : bool := negb (Ascii.eqb c comma_char).

Lemma SplitComma_parts (s : string) :
  Forall (fun part => forallb noComma (list_ascii_of_string part) = true)
         (SplitComma s).
Proof.
  induction s as [| c s IH]; cbn [SplitComma].
  - constructor; [reflexivity | constructor].
  - destruct (Ascii.eqb c comma_char) eqn:E.
    + constructor; [reflexivity | exact IH].
    + destruct (SplitComma s) as [| part parts].
      * constructor; [| constructor].
        cbn [list_ascii_of_string forallb]. unfold noComma. rewrite E.
        reflexivity.
      * inversion IH; subst. constructor; [| assumption].
        cbn [list_ascii_of_string forallb]. unfold noComma at 1. rewrite E.
        assumption.
Qed.

Lemma trimmedParts_items (parts : list string) :
  Forall (fun part => forallb noComma (list_ascii_of_string part) = true)
         parts ->
  Forall (fun item => item <> ""
                      /\ TrimSpace item = item
                      /\ forallb noComma (list_ascii_of_string item) = true)
         (trimmedParts parts).
Proof.
  induction 1 as [| part rest Hp _ IH]; cbn [trimmedParts]; [constructor |].
  destruct (String.eqb (TrimSpace part) "") eqn:E; cbn [negb]; [exact IH |].
  apply String.eqb_neq in E.
  constructor; [| exact IH].
  split; [exact E |]. split; [apply TrimSpace_idem |].
  unfold TrimSpace. apply TrimRight_all, TrimLeft_all. exact Hp.
Qed.

(** X20.  What [parseCSV] returns has no empty item, no item with white
    space at either end, and no item with a comma in it, whatever the
    value read from the environment. *)
Theorem parseCSV_items :
  forall value : string,
    Forall (fun item =>
              item <> ""
              /\ TrimSpace item = item
              /\ forallb (fun c => negb (Ascii.eqb c comma_char))
                         (list_ascii_of_string item) = true)
           (parseCSV value).
Proof.
  intros value. unfold parseCSV.
  destruct (String.eqb value ""); [constructor |].
  apply trimmedParts_items. apply SplitComma_parts.
Qed.







End ConfigFacts.

(** ** The answer of the vectorizer *)
Section VectorizerAnswer.
Import Orchestrator.

Variable o : Orchestrator.t.

Lemma embeddingsFrom_short (documents : list Document.t)
                           (vectors : list (list float32)) (i : nat) :
  documents <> [] ->
  (List.length vectors < i + List.length documents)%nat ->
  embeddingsFrom o documents vectors i = None.
Proof.
  revert i. induction documents as [| doc rest IH]; intros i Hne Hlen;
    [congruence |].
  cbn [embeddingsFrom]. cbn [List.length] in Hlen.
  destruct (nth_error vectors i) as [v |] eqn:Hv; [| reflexivity].
  assert (Hi : (i < List.length vectors)%nat).
  { apply nth_error_Some. congruence. }
  rewrite IH; [reflexivity | | lia].
  destruct rest; [cbn [List.length] in Hlen; lia | discriminate].
Qed.

Lemma skipn_nth_error {A : Type} (l : list A) (i : nat) (v : A) :
  nth_error l i = Some v -> skipn i l = v :: skipn (S i) l.
Proof.
  revert i. induction l as [| a l IH]; intros [| i] H; try discriminate.
  - inversion H; subst. reflexivity.
  - cbn [nth_error] in H. cbn [skipn]. rewrite (IH _ H). reflexivity.
Qed.

Lemma embeddingsFrom_vectors (documents : list Document.t)
                             (vectors : list (list float32)) (i : nat)
                             (es : list Embedding.t) :
  embeddingsFrom o documents vectors i = Some es ->
  map Embedding.Vector es
  = firstn (List.length documents) (skipn i vectors).
Proof.
  revert i es. induction documents as [| doc rest IH]; intros i es H;
    cbn [embeddingsFrom] in H.
  - inversion H; subst. reflexivity.
  - destruct (nth_error vectors i) as [v |] eqn:Hv; [| discriminate].
    destruct (embeddingsFrom o rest vectors (S i)) as [es' |] eqn:He;
      [| discriminate].
    inversion H; subst.
    rewrite (skipn_nth_error _ _ _ Hv).
    cbn [map newEmbedding Embedding.Vector List.length firstn].
    rewrite (IH _ _ He). reflexivity.
Qed.

End VectorizerAnswer.

(** X22.  [generateEmbeddings] does not compare the number of vectors in
    the answer with the number of documents.  With fewer vectors it
    panics on [result.Embeddings[i]] (in the goroutine of the worker,
    after the request); with more, it returns and the surplus is
    dropped: the vectors used are the first ones of the answer. *)
Theorem generateEmbeddings_answer_length :
  forall (o : Orchestrator.t) (documents : list Document.t)
         (vectors : list (list float32)),
    documents <> [] ->
    Orchestrator.embed (Orchestrator.services o)
                       (map Document.Content documents)
    = Orchestrator.Ok vectors ->
    ((List.length vectors < List.length documents)%nat ->
     Orchestrator.generateEmbeddings o documents
     = (Panics, [Orchestrator.PostEmbed (map Document.Content documents)]))
    /\ ((List.length documents <= List.length vectors)%nat ->
        exists embeddings,
          Orchestrator.generateEmbeddings o documents
          = (Returns (Orchestrator.Ok embeddings),
             [Orchestrator.PostEmbed (map Document.Content documents)])
          /\ map Embedding.Vector embeddings
             = firstn (List.length documents) vectors).
Proof.
  intros o documents vectors Hne Hembed.
  assert (Hz : (Orchestrator.lenL documents =? 0) = false).
  { apply Z.eqb_neq. unfold Orchestrator.lenL.
    destruct documents; [congruence | cbn [List.length]; lia]. }
  unfold Orchestrator.generateEmbeddings. rewrite Hz, Hembed.
  split; intros Hlen.
  - rewrite embeddingsFrom_short by (try exact Hne; lia). reflexivity.
  - destruct (embeddingsFrom_total o documents vectors 0)
      as (es & Hes & _); [lia |].
    rewrite Hes. exists es. split; [reflexivity |].
    apply (embeddingsFrom_vectors o _ _ _ _ Hes).
Qed.

Lemma generateEmbeddings_answer_length_witness :
  let short :=
    {| Orchestrator.config := Example.cfg;
       Orchestrator.services :=
         {| Orchestrator.repositories := fun _ _ => Orchestrator.Ok [];
            Orchestrator.changes := fun _ _ => Orchestrator.Ok [];
            Orchestrator.lastCommit := fun _ _ => Orchestrator.Ok "c0";
            Orchestrator.chunk := Example.chunker;
            Orchestrator.embed := fun _ => Orchestrator.Ok [];
            Orchestrator.upsert := fun _ => None;
            Orchestrator.postMetadata := fun _ => None |} |} in
  let documents :=
    match Example.chunker Example.fileA with
    | Orchestrator.Ok ds => ds
    | Orchestrator.Err _ => []
    end in
  documents <> []
  /\ Orchestrator.generateEmbeddings short documents
     = (Panics, [Orchestrator.PostEmbed (map Document.Content documents)]).
Proof.
  intros short documents.
  split; [vm_compute; discriminate |].
  apply (generateEmbeddings_answer_length short documents []).
  - vm_compute. discriminate.
  - reflexivity.
  - vm_compute. lia.
Defined.

(** ** The change records of the GitHub service *)
Section ChangeRecords.
Import GitHubService.
Import Orchestrator (result, Ok, Err).

Variable client : Client.
Variable now : Time.
Variable repo : Repository.t.

Let fetched (fc : FileChange.t) : Prop :=
  GetFileContent client (Repository.Owner repo) (Repository.Name repo)
                 (FileChange.FilePath fc) (Repository.DefaultBranch repo)
  = Ok (FileChange.Content fc).

Lemma comparedFiles_records (head : Commit) (files : list CommitFile)
                            (changes : list FileChange.t)
                            (warnings : list string) :
  comparedFiles client repo head files = (changes, warnings) ->
  Forall (fun fc =>
            FileChange.Repository fc = Repository.FullName repo
            /\ FileChange.CommitSHA fc = SHA head
            /\ FileChange.LastModified fc = AuthorDate head
            /\ (if String.eqb (FileChange.ChangeType fc) "removed"
                   || String.eqb (FileChange.ChangeType fc) "deleted"
                then FileChange.Content fc = ""
                else fetched fc))
         changes
  /\ (List.length changes + List.length warnings = List.length files)%nat.
Proof.
  revert changes warnings.
  induction files as [| file rest IH]; intros changes warnings H;
    cbn [comparedFiles] in H.
  - inversion H; subst. split; [constructor | reflexivity].
  - destruct (comparedFiles client repo head rest) as [changes' warnings'].
    destruct (IH _ _ eq_refl) as [Hall Hlen].
    set (changeType := match Status file with
                       | Some status => status
                       | None => "modified"
                       end) in *.
    destruct (String.eqb changeType "removed" || String.eqb changeType "deleted")
      eqn:Hkind.
    + inversion H; subst. split; [| cbn [List.length]; lia].
      constructor; [| exact Hall].
      cbn [FileChange.Repository FileChange.CommitSHA FileChange.LastModified
           FileChange.ChangeType FileChange.Content].
      rewrite Hkind. repeat split.
    + destruct (GetFileContent client (Repository.Owner repo)
                  (Repository.Name repo) (Filename file)
                  (Repository.DefaultBranch repo)) as [content | err] eqn:Hc.
      * inversion H; subst. split; [| cbn [List.length]; lia].
        constructor; [| exact Hall].
        cbn [FileChange.Repository FileChange.CommitSHA FileChange.LastModified
             FileChange.ChangeType FileChange.Content].
        rewrite Hkind. repeat split. exact Hc.
      * inversion H; subst. split; [exact Hall | cbn [List.length]; lia].
Qed.

Lemma treeFiles_records (latestSHA : string) (entries : list TreeEntry)
                        (files : list FileChange.t) (warnings : list string) :
  treeFiles client now repo latestSHA entries = (files, warnings) ->
  Forall (fun fc =>
            FileChange.Repository fc = Repository.FullName repo
            /\ FileChange.CommitSHA fc = latestSHA
            /\ FileChange.ChangeType fc = "added"
            /\ fetched fc)
         files
  /\ (List.length files + List.length warnings
      = List.length (filter (fun entry => String.eqb (EntryType entry) "blob")
                            entries))%nat.
Proof.
  revert files warnings.
  induction entries as [| entry rest IH]; intros files warnings H;
    cbn [treeFiles] in H.
  - inversion H; subst. split; [constructor | reflexivity].
  - destruct (treeFiles client now repo latestSHA rest) as [files' warnings'].
    destruct (IH _ _ eq_refl) as [Hall Hlen].
    cbn [filter].
    destruct (String.eqb (EntryType entry) "blob").
    + destruct (GetFileContent client (Repository.Owner repo)
                  (Repository.Name repo) (Path entry)
                  (Repository.DefaultBranch repo)) as [content | err] eqn:Hc.
      * inversion H; subst. split; [| cbn [List.length]; lia].
        constructor; [| exact Hall]. repeat split. exact Hc.
      * inversion H; subst. split; [exact Hall | cbn [List.length]; lia].
    + inversion H; subst. split; assumption.
Qed.

End ChangeRecords.

(** X23.  The records [GetChangedFiles] returns.  Each names the
    repository and carries the head commit of the default branch (not the
    commit that touched the file).  A record of a removed or deleted file
    has no content; any other has the content fetched at the default
    branch.  Without a last commit every record is [added], so that a
    full listing reports no removal.  A file whose content cannot be
    fetched gives a warning in the log and no record, and the call still
    succeeds: compared with a last commit, records and warnings together
    are as many as the files of the comparison. *)
Theorem GetChangedFiles_records :
  forall (client : GitHubService.Client) (now : Time) (repo : Repository.t)
         (lastCommitSHA : string) (changes : list FileChange.t)
         (warnings : list string),
    GitHubService.GetChangedFiles client now repo lastCommitSHA
    = (Orchestrator.Ok changes, warnings) ->
    exists head : GitHubService.Commit,
      GitHubService.GetCommit client (Repository.Owner repo)
        (Repository.Name repo) (Repository.DefaultBranch repo)
      = Orchestrator.Ok head
      /\ Forall (fun fc =>
                   FileChange.Repository fc = Repository.FullName repo
                   /\ FileChange.CommitSHA fc = GitHubService.SHA head
                   /\ (lastCommitSHA = "" -> FileChange.ChangeType fc = "added")
                   /\ (if String.eqb (FileChange.ChangeType fc) "removed"
                          || String.eqb (FileChange.ChangeType fc) "deleted"
                       then FileChange.Content fc = ""
                       else GitHubService.GetFileContent client
                              (Repository.Owner repo) (Repository.Name repo)
                              (FileChange.FilePath fc)
                              (Repository.DefaultBranch repo)
                            = Orchestrator.Ok (FileChange.Content fc)))
                changes
      /\ (lastCommitSHA <> "" ->
          exists files,
            GitHubService.CompareCommits client (Repository.Owner repo)
              (Repository.Name repo) lastCommitSHA (GitHubService.SHA head)
            = Orchestrator.Ok files
            /\ (List.length changes + List.length warnings
                = List.length files)%nat).
Proof.
  intros client now repo lastCommitSHA changes warnings.
  unfold GitHubService.GetChangedFiles.
  destruct (GitHubService.GetCommit client (Repository.Owner repo)
              (Repository.Name repo) (Repository.DefaultBranch repo))
    as [head | err] eqn:Hhead; [| discriminate].
  intros H. exists head. split; [reflexivity |].
  destruct (String.eqb lastCommitSHA "") eqn:Hlast.
  - apply String.eqb_eq in Hlast. subst lastCommitSHA.
    unfold GitHubService.getAllFiles, GitHubService.GetLatestCommitSHA in H.
    rewrite Hhead in H.
    destruct (GitHubService.GetTree client (Repository.Owner repo)
                (Repository.Name repo) (Repository.DefaultBranch repo))
      as [entries | err]; [| discriminate].
    destruct (GitHubService.treeFiles client now repo (GitHubService.SHA head)
                entries) as [files ws] eqn:Ht.
    inversion H; subst.
    destruct (treeFiles_records client now repo _ _ _ _ Ht) as [Hall _].
    split; [| congruence].
    eapply Forall_impl; [| exact Hall].
    intros fc (H1 & H2 & H3 & H4). rewrite H3. cbn. auto.
  - apply String.eqb_neq in Hlast.
    destruct (GitHubService.CompareCommits client (Repository.Owner repo)
                (Repository.Name repo) lastCommitSHA (GitHubService.SHA head))
      as [files | err]; [| discriminate].
    destruct (GitHubService.comparedFiles client repo head files)
      as [cs ws] eqn:Hc.
    inversion H; subst.
    destruct (comparedFiles_records client repo _ _ _ _ Hc) as [Hall Hlen].
    split.
    + eapply Forall_impl; [| exact Hall].
      intros fc (H1 & H2 & _ & H4). repeat split; try assumption.
      intros Hn. congruence.
    + intros _. exists files. split; [reflexivity | exact Hlen].
Qed.

Lemma GetChangedFiles_records_witness :
  let client :=
    {| GitHubService.GetCommit := fun _ _ _ =>
         Orchestrator.Ok {| GitHubService.SHA := "c9";
                            GitHubService.AuthorDate := 7 |};
       GitHubService.CompareCommits := fun _ _ _ _ =>
         Orchestrator.Ok
           [ {| GitHubService.Filename := "a.md";
                GitHubService.Status := Some "modified";
                GitHubService.Changes := 3 |};
             {| GitHubService.Filename := "gone.md";
                GitHubService.Status := Some "removed";
                GitHubService.Changes := 5 |};
             {| GitHubService.Filename := "big.md";
                GitHubService.Status := None;
                GitHubService.Changes := 1 |} ];
       GitHubService.GetTree := fun _ _ _ => Orchestrator.Ok [];
       GitHubService.GetContents := fun _ _ path _ =>
         if String.eqb path "big.md" then Orchestrator.Err "too large"
         else Orchestrator.Ok (Orchestrator.Ok "text") |} in
  let run := GitHubService.GetChangedFiles client 0 Example.repo "c1" in
  let changes := match fst run with
                 | Orchestrator.Ok changes => changes
                 | Orchestrator.Err _ => []
                 end in
  run = (Orchestrator.Ok changes, snd run)
  /\ map FileChange.FilePath changes = ["a.md"; "gone.md"]
  /\ List.length (snd run) = 1%nat
  /\ Forall (fun fc => FileChange.CommitSHA fc = "c9") changes.
Proof.
  intros client run changes.
  split; [vm_compute; reflexivity |].
  split; [vm_compute; reflexivity |].
  split; [vm_compute; reflexivity |].
  destruct (GetChangedFiles_records client 0 Example.repo "c1" changes (snd run))
    as (head & Hhead & Hall & _).
  - vm_compute. reflexivity.
  - cbn in Hhead. inversion Hhead; subst head.
    eapply Forall_impl; [| exact Hall].
    intros fc (_ & H2 & _). exact H2.
Defined.

(** ** Cleaning twice *)
Section CleaningTwice.
Import DocumentProcessor.

Let allowed (c : ascii) : bool := keepRune c || isSpace c.












End CleaningTwice.

(** ** What the logger writes *)

Lemma parseLogLevel_cases (name : string) :
  (Logger.parseLogLevel name = Logger.DEBUG
   <-> Logger.ToUpper name = "DEBUG")
  /\ (Logger.parseLogLevel name = Logger.WARNING
      <-> (Logger.ToUpper name = "WARNING" \/ Logger.ToUpper name = "WARN"))
  /\ (Logger.parseLogLevel name = Logger.ERROR
      <-> Logger.ToUpper name = "ERROR").
Proof.
  unfold Logger.parseLogLevel. cbv zeta.
  destruct (String.eqb_spec (Logger.ToUpper name) "DEBUG") as [-> | N1];
    [intuition (discriminate || congruence) |].
  destruct (String.eqb_spec (Logger.ToUpper name) "INFO") as [-> | N2];
    [intuition (discriminate || congruence) |].
  destruct (String.eqb_spec (Logger.ToUpper name) "WARNING") as [-> | N3];
    [cbn [orb]; intuition (discriminate || congruence) |].
  destruct (String.eqb_spec (Logger.ToUpper name) "WARN") as [-> | N4];
    [cbn [orb]; intuition (discriminate || congruence) |].
  cbn [orb].
  destruct (String.eqb_spec (Logger.ToUpper name) "ERROR") as [-> | N5];
    intuition (discriminate || congruence).
Qed.

(** X25.  Which entries a logger set up from a level name writes, for a
    name in ASCII (where upper-casing is byte by byte).  Error entries
    are written whatever the name.  Warnings, the only trace of a file
    whose processing failed, are dropped exactly under [ERROR].  Info
    entries are dropped exactly under [ERROR], [WARNING] and [WARN].
    Debug entries are written only under [DEBUG]: a name that is none of
    the five behaves as [INFO]. *)
Theorem log_written :
  forall (name service timestamp message : string),
    forallb (fun c => (nat_of_ascii c <? 128)%nat)
            (list_ascii_of_string name) = true ->
    let l := Logger.Init name service in
    Logger.log l timestamp Logger.ERROR message <> None
    /\ (Logger.log l timestamp Logger.WARNING message = None
        <-> Logger.ToUpper name = "ERROR")
    /\ (Logger.log l timestamp Logger.INFO message = None
        <-> (Logger.ToUpper name = "ERROR"
             \/ Logger.ToUpper name = "WARNING"
             \/ Logger.ToUpper name = "WARN"))
    /\ (Logger.log l timestamp Logger.DEBUG message <> None
        <-> Logger.ToUpper name = "DEBUG").
Proof.
  intros name service timestamp message _ l. subst l.
  destruct (parseLogLevel_cases name) as (HD & HW & HE).
  unfold Logger.Init, Logger.New, Logger.log.
  cbn [Logger.level Logger.prefix].
  destruct (Logger.parseLogLevel name) eqn:P; cbn;
    intuition (discriminate || congruence).
Qed.

Lemma log_written_witness :
  let l := Logger.Init "Error" "orchestrator" in
  Logger.log l "2024-01-01 00:00:00" Logger.WARNING
             "Failed to chunk document a.md: timeout" = None
  /\ Logger.log (Logger.Init "verbose" "orchestrator") "2024-01-01 00:00:00"
                Logger.ERROR "boom" <> None.
Proof.
  intros l. split.
  - destruct (log_written "Error" "orchestrator" "2024-01-01 00:00:00"
                "Failed to chunk document a.md: timeout")
      as (_ & [_ Hw] & _).
    + vm_compute. reflexivity.
    + apply Hw. vm_compute. reflexivity.
  - destruct (log_written "verbose" "orchestrator" "2024-01-01 00:00:00" "boom")
      as (He & _).
    + vm_compute. reflexivity.
    + exact He.
Defined.

(** ** Runs that return *)
Section Returning.
Import Orchestrator.

Variable o : Orchestrator.t.

(** The vectorizer never answers with fewer vectors than texts. *)
Hypothesis enough_vectors :
  forall texts vectors,
    embed (services o) texts = Ok vectors ->
    (List.length texts <= List.length vectors)%nat.




End Returning.



(** ** Chunks without overlap keep the text *)
Section KeepsText.
Import DocumentProcessor.

Let nonspace (s : string) : list ascii :=
  filter (fun c => negb (isSpace c)) (list_ascii_of_string s).

Lemma nonspace_app (a b : string) :
  nonspace (a ++ b) = nonspace a ++ nonspace b.
Proof. unfold nonspace. rewrite list_ascii_app. apply filter_app. Qed.

Lemma nonspace_TrimLeft (s : string) : nonspace (TrimLeft s) = nonspace s.
Proof.
  induction s as [| c s IH]; [reflexivity |].
  cbn [TrimLeft]. destruct (isSpace c) eqn:E; [| reflexivity].
  rewrite IH. unfold nonspace. cbn [list_ascii_of_string filter].
  rewrite E. reflexivity.
Qed.

Lemma nonspace_TrimRight (s : string) : nonspace (TrimRight s) = nonspace s.
Proof.
  induction s as [| c s IH]; [reflexivity |].
  cbn [TrimRight]. unfold nonspace in *.
  cbn [list_ascii_of_string filter]. rewrite <- IH.
  destruct (TrimRight s) as [| d t].
  - destruct (isSpace c) eqn:E; cbn [list_ascii_of_string filter negb];
      [reflexivity |].
    rewrite E. reflexivity.
  - reflexivity.
Qed.

Lemma nonspace_TrimSpace (s : string) : nonspace (TrimSpace s) = nonspace s.
Proof.
  unfold TrimSpace. rewrite nonspace_TrimRight. apply nonspace_TrimLeft.
Qed.

Lemma substring_zero (s : string) (n : nat) : substring n 0 s = "".
Proof.
  revert n. induction s as [| c s IH]; intros [| n]; cbn [substring];
    try reflexivity.
  apply IH.
Qed.

Lemma substring_add (s : string) (a k m : nat) :
  (a + k + m <= String.length s)%nat ->
  substring a (k + m) s = (substring a k s ++ substring (a + k) m s)%string.
Proof.
  revert a k m. induction s as [| c s IH]; intros a k m H;
    cbn [String.length] in H.
  - assert (a = 0%nat) by lia. assert (k = 0%nat) by lia.
    assert (m = 0%nat) by lia. subst. reflexivity.
  - destruct a as [| a].
    + destruct k as [| k].
      * cbn [Nat.add]. rewrite substring_zero. reflexivity.
      * cbn [Nat.add substring]. rewrite (IH 0%nat k m) by lia.
        reflexivity.
    + cbn [Nat.add substring]. apply IH. lia.
Qed.

(** The part of the text from [start] on. *)
Let rest (text : string) (start : Z) : string :=
  substring (Z.to_nat start) (Z.to_nat (len text - start)) text.

Lemma rest_slice (text : string) (start end2 : Z) (raw : string) :
  0 <= start <= end2 -> end2 <= len text ->
  slice text start end2 = Some raw ->
  rest text start = (raw ++ rest text end2)%string.
Proof.
  intros H1 H2 Hs. unfold slice in Hs.
  destruct ((0 <=? start) && (start <=? end2) && (end2 <=? len text));
    [| discriminate].
  inversion Hs; subst raw. unfold rest.
  replace (Z.to_nat (len text - start))
    with (Z.to_nat (end2 - start) + Z.to_nat (len text - end2))%nat by lia.
  replace (Z.to_nat end2)
    with (Z.to_nat start + Z.to_nat (end2 - start))%nat by lia.
  apply substring_add. unfold len in *. lia.
Qed.

(** One iteration without overlap: the slice it trims and where it goes
    on, which is where the slice ends. *)
Lemma splitStep_no_overlap (text : string) (maxSize start : Z) :
  0 < maxSize < 2 ^ 62 -> len text < 2 ^ 62 ->
  0 <= start < len text ->
  exists end2 raw,
    start < end2 <= len text
    /\ slice text start end2 = Some raw
    /\ splitStep text maxSize 0 start
       = Some (if len (TrimSpace raw) >? 0 then Some (TrimSpace raw) else None,
               end2).
Proof.
  intros Hm Ht Hs. unfold splitStep. cbv zeta.
  unfold GoInt.add, GoInt.sub.
  rewrite (wrap_small (start + maxSize)) by lia.
  set (end1 := if start + maxSize >? len text then len text
               else start + maxSize).
  assert (He1 : start < end1 <= len text).
  { subst end1. rewrite Z.gtb_ltb.
    destruct (len text <? start + maxSize) eqn:E;
      [apply Z.ltb_lt in E | apply Z.ltb_ge in E]; lia. }
  assert (Htail : forall e,
    start < e <= len text ->
    exists end2 raw,
      start < end2 <= len text
      /\ slice text start end2 = Some raw
      /\ match slice text start e with
         | Some raw =>
             Some (if len (TrimSpace raw) >? 0 then Some (TrimSpace raw)
                   else None,
                   if GoInt.wrap (e - 0) <? 0 then 0 else GoInt.wrap (e - 0))
         | None => None
         end
         = Some (if len (TrimSpace raw) >? 0 then Some (TrimSpace raw)
                 else None, end2)).
  { intros e He.
    destruct (slice_some text start e) as (raw & Hraw & _); [lia | lia |].
    exists e, raw. split; [exact He |]. split; [exact Hraw |].
    rewrite Hraw, Z.sub_0_r, (wrap_small e) by lia.
    replace (e <? 0) with false by (symmetry; apply Z.ltb_ge; lia).
    reflexivity. }
  destruct (end1 <? len text).
  - destruct (slice_some text start end1) as (w & -> & Hw); [lia | lia |].
    pose proof (LastIndexAny_bounds w sentenceEnds) as Hb.
    destruct (LastIndexAny w sentenceEnds >? GoInt.div maxSize 2) eqn:E.
    + rewrite Z.gtb_ltb in E. apply Z.ltb_lt in E. unfold GoInt.div in E.
      assert (0 <= Z.quot maxSize 2) by (apply Z.quot_pos; lia).
      rewrite (wrap_small (start + LastIndexAny w sentenceEnds)) by lia.
      rewrite (wrap_small (start + LastIndexAny w sentenceEnds + 1)) by lia.
      apply Htail; lia.
    + apply Htail; lia.
  - apply Htail; lia.
Qed.

Lemma splitLoop_keeps_text (text : string) (maxSize : Z) :
  0 < maxSize < 2 ^ 62 -> len text < 2 ^ 62 ->
  forall (fuel : nat) (start : Z) (chunks out : list string),
    0 <= start <= len text ->
    splitLoop fuel text maxSize 0 start chunks = Returns out ->
    flat_map nonspace out
    = flat_map nonspace chunks ++ nonspace (rest text start).
Proof.
  intros Hm Ht.
  induction fuel as [| fuel IH]; intros start chunks out Hs H;
    cbn [splitLoop] in H; destruct (start <? len text) eqn:E;
    try discriminate;
    try (apply Z.ltb_ge in E; inversion H; subst;
         assert (start = len text) by lia; subst start;
         unfold rest; rewrite Z.sub_diag, substring_zero;
         cbn; rewrite app_nil_r; reflexivity).
  apply Z.ltb_lt in E.
  destruct (splitStep_no_overlap text maxSize start Hm Ht)
    as (end2 & raw & He & Hraw & Hstep); [lia |].
  rewrite Hstep in H.
  rewrite (rest_slice text start end2 raw) by (try exact Hraw; lia).
  rewrite nonspace_app, <- (nonspace_TrimSpace raw).
  destruct (len (TrimSpace raw) >? 0) eqn:G.
  - rewrite (IH end2 _ _ ltac:(lia) H).
    rewrite flat_map_app. cbn [flat_map]. rewrite app_nil_r, <- app_assoc.
    reflexivity.
  - rewrite (IH end2 _ _ ltac:(lia) H).
    assert (Hz : TrimSpace raw = "").
    { rewrite Z.gtb_ltb in G. apply Z.ltb_ge in G. unfold len in G.
      destruct (TrimSpace raw); [reflexivity | cbn [String.length] in G; lia]. }
    rewrite Hz. reflexivity.
Qed.

(** X27.  Without overlap, chunking loses nothing but white space: the
    bytes of the documents [ChunkDocument] returns, white space left
    out, are those of the cleaned content, in order. *)
Theorem ChunkDocument_keeps_text :
  forall (md5hex : string -> string) (fuel : nat) (fc : FileChange.t)
         (maxSize : Z) (docs : list Document.t),
    0 < maxSize < 2 ^ 62 ->
    len (CleanContent (FileChange.Content fc)) < 2 ^ 62 ->
    ChunkDocument md5hex fuel fc maxSize 0 = Returns docs ->
    flat_map (fun d => filter (fun c => negb (isSpace c))
                              (list_ascii_of_string (Document.Content d)))
             docs
    = filter (fun c => negb (isSpace c))
             (list_ascii_of_string (CleanContent (FileChange.Content fc))).
Proof.
  intros md5hex fuel fc maxSize docs Hm Ht H.
  apply ChunkDocument_inv in H as (chunks & -> & Hc).
  assert (Hdocs : forall total i cs,
    flat_map (fun d => nonspace (Document.Content d))
             (documentsFrom md5hex fc total i cs)
    = flat_map nonspace cs).
  { intros total i cs. revert i.
    induction cs as [| c cs IH]; intros i; cbn [documentsFrom flat_map];
      [reflexivity |].
    rewrite IH. reflexivity. }
  change (flat_map (fun d => nonspace (Document.Content d))
            (documentsFrom md5hex fc (Z.of_nat (List.length chunks)) 0 chunks)
          = nonspace (CleanContent (FileChange.Content fc))).
  rewrite Hdocs. cbv zeta in Hc.
  set (content := CleanContent (FileChange.Content fc)) in *.
  destruct (len content =? 0) eqn:E0.
  - subst chunks. apply Z.eqb_eq in E0. unfold len in E0.
    destruct content; [reflexivity | cbn [String.length] in E0; lia].
  - destruct (len content <=? maxSize).
    + subst chunks. cbn [flat_map]. apply app_nil_r.
    + unfold splitIntoChunks in Hc.
      rewrite (splitLoop_keeps_text content maxSize Hm Ht fuel 0 [] chunks)
        by (try exact Hc; pose proof (len_nonneg content); lia).
      cbn [flat_map app]. unfold rest.
      rewrite Z.sub_0_r. unfold len. rewrite Nat2Z.id.
      cbn [Z.to_nat]. rewrite substring_full. reflexivity.
Qed.

Lemma ChunkDocument_keeps_text_witness :
  let fc := Example.file "notes.md" "One. Two! Three? Four" "added" in
  let docs := match ChunkDocument Example.digest 21 fc 8 0 with
              | Returns docs => docs
              | _ => []
              end in
  map Document.Content docs = ["One. Two"; "! Three?"; "Four"]
  /\ flat_map (fun d => filter (fun c => negb (isSpace c))
                               (list_ascii_of_string (Document.Content d)))
              docs
     = list_ascii_of_string "One.Two!Three?Four".
Proof.
  intros fc docs. split; [vm_compute; reflexivity |].
  rewrite (ChunkDocument_keeps_text Example.digest 21 fc 8 docs).
  - vm_compute. reflexivity.
  - lia.
  - vm_compute. reflexivity.
  - vm_compute. reflexivity.
Defined.

End KeepsText.

(** ** The filter of the document processor *)
Section ValidateFacts.
Import DocumentProcessor.

(** [strings.Contains] finds the pattern anywhere in the string. *)
Lemma Contains_app (s sub : string) :
  Contains s sub = true <-> exists pre post, s = (pre ++ sub ++ post)%string.
Proof.
  split.
  - induction s as [| c s IH]; cbn [Contains].
    + rewrite orb_false_r. intros H. apply prefix_app in H as (post & ->).
      exists "", post. reflexivity.
    + intros H. apply orb_true_iff in H as [H | H].
      * apply prefix_app in H as (post & ->). exists "", post. reflexivity.
      * destruct (IH H) as (pre & post & ->).
        exists (String c pre), post. reflexivity.
  - intros (pre & post & ->). induction pre as [| c pre IH].
    + apply prefix_Contains. apply prefix_app. exists post. reflexivity.
    + change (Contains (String c (pre ++ sub ++ post)) sub = true).
      cbn [Contains]. rewrite IH. apply orb_true_r.
Qed.

End ValidateFacts.

(** X28.  [ValidateDocument] accepts a change record exactly when the
    extension of its path is in the allow-list (or the list is empty),
    no exclude pattern occurs anywhere in the path, and the change is
    neither [deleted] nor [removed]. *)
Theorem ValidateDocument_accepts :
  forall (fc : FileChange.t) (allowedExtensions excludePatterns : list string),
    DocumentProcessor.ValidateDocument fc allowedExtensions excludePatterns
    = true
    <-> ((allowedExtensions = []
          \/ In (Ext (FileChange.FilePath fc)) allowedExtensions)
         /\ (forall pattern pre post,
                In pattern excludePatterns ->
                FileChange.FilePath fc <> (pre ++ pattern ++ post)%string)
         /\ FileChange.ChangeType fc <> "deleted"
         /\ FileChange.ChangeType fc <> "removed").
Proof.
  intros fc exts pats. unfold DocumentProcessor.ValidateDocument. cbv zeta.
  assert (Hext : (Z.of_nat (List.length exts) >? 0)
                 && negb (existsb (fun allowed =>
                                     String.eqb (Ext (FileChange.FilePath fc))
                                                allowed) exts) = false
                 <-> (exts = [] \/ In (Ext (FileChange.FilePath fc)) exts)).
  { destruct exts as [| e exts]; [cbn; intuition |].
    replace (Z.of_nat (List.length (e :: exts)) >? 0) with true
      by (symmetry; rewrite Z.gtb_ltb; apply Z.ltb_lt;
          cbn [List.length]; lia).
    cbn [andb]. rewrite negb_false_iff, existsb_exists. split.
    - intros (x & Hin & Hx). apply String.eqb_eq in Hx. subst x.
      right. exact Hin.
    - intros [H | H]; [discriminate |].
      exists (Ext (FileChange.FilePath fc)). split; [exact H |].
      apply String.eqb_refl. }
  assert (Hpat : existsb (fun pattern =>
                            Contains (FileChange.FilePath fc) pattern) pats
                 = false
                 <-> (forall pattern pre post,
                         In pattern pats ->
                         FileChange.FilePath fc
                         <> (pre ++ pattern ++ post)%string)).
  { split.
    - intros H pattern pre post Hin Heq.
      assert (Ht : existsb (fun pattern =>
                              Contains (FileChange.FilePath fc) pattern) pats
                   = true).
      { apply existsb_exists. exists pattern. split; [exact Hin |].
        apply Contains_app. exists pre, post. exact Heq. }
      congruence.
    - intros H. apply not_true_is_false. intros Ht.
      apply existsb_exists in Ht as (pattern & Hin & Hc).
      apply Contains_app in Hc as (pre & post & Heq).
      exact (H pattern pre post Hin Heq). }
  destruct ((Z.of_nat (List.length exts) >? 0)
            && negb (existsb (fun allowed =>
                                String.eqb (Ext (FileChange.FilePath fc))
                                           allowed) exts)).
  - split; [discriminate |]. intros (H & _).
    apply Hext in H. discriminate.
  - destruct (existsb (fun pattern =>
                         Contains (FileChange.FilePath fc) pattern) pats).
    + split; [discriminate |]. intros (_ & H & _).
      apply Hpat in H. discriminate.
    + destruct (String.eqb_spec (FileChange.ChangeType fc) "deleted")
        as [Hd | Hd]; cbn [orb].
      * split; [discriminate |]. intros (_ & _ & H & _). congruence.
      * destruct (String.eqb_spec (FileChange.ChangeType fc) "removed")
          as [Hr | Hr].
        -- split; [discriminate |]. intros (_ & _ & _ & H). congruence.
        -- split; [| reflexivity]. intros _.
           split; [apply Hext; reflexivity |].
           split; [apply Hpat; reflexivity |].
           split; assumption.
Qed.
